(** * codaapps: batch extraction pipeline and change-detection scheduler

    A shallow embedding of the Python sources
      - [batch_processor.py]   (BatchProcessor.process_url / process_batch / process_urls,
                                process_urls_sync),
      - [scraper.py]           (fetch_url_content, scrape_urls_async, scrape_urls,
                                test_scraper),
      - [main.py]              (the view [index]),
      - [template_manager.py]  (TemplateManager),
      - [coda_pack.py]         (CSSSelector, extract_content and the formulas),
      - [sync_manager.py]      (SyncManager.add_urls_to_config / _process_config /
                                run_sync_cycle / start_sync_service),
    followed by the properties of the specification that were checked on them,
    and by properties of the functions the specification does not speak of.

    Modelling conventions.
      - A Python [str] is a Rocq [string]; one [ascii] stands for one character,
        so the texts covered are those whose code points are below 256.
        [len], [lower], [strip], [split], [count], [in], [startswith],
        [str.format] and UTF-8 [encode] are written out for that range.
      - A Python [int] is a [Z].
      - A [dict] is an association list in insertion order with unique keys
        ([dict_set] overwrites in place, as assignment to a present key does).
      - An exception is a value [Raise e]; [try/except/finally] is written out.
      - What the code obtains from other libraries (BeautifulSoup, trafilatura,
        urllib, pydantic) is an interface ([Libs]); what it obtains from the
        network, the event loop, the Coda service and the database server is
        a [World], a [Coda] or a [Tick]; [hashlib.sha256], [json.dump] and
        the regular expressions of the sources are written out. *)

From Stdlib Require Import ZArith List String Ascii Bool Arith Lia Permutation.
From Stdlib Require Import DecimalString DecimalZ.
Import ListNotations.

Local Open Scope string_scope.
Local Open Scope list_scope.
Local Open Scope Z_scope.

(* ================================================================= *)
(** ** Python values *)

Module Py.

(** An exception object: [str(e)] and whether it is an [aiohttp.ClientError]. *)
Record Exc := mkExc { exc_client : bool; exc_msg : string }.

Inductive Result (A : Type) : Type :=
| Ok (a : A)
| Raise (e : Exc).
Arguments Ok {A} a.
Arguments Raise {A} e.

Definition bind {A B} (r : Result A) (k : A -> Result B) : Result B :=
  match r with
  | Ok a => k a
  | Raise e => Raise e
  end.

(** [len(s)] *)
Definition len (s : string) : Z := Z.of_nat (String.length s).

(** [s.startswith(p)] *)
Definition startswith (s p : string) : bool := String.prefix p s.

(** [needle in hay] *)
Fixpoint is_substring (needle hay : string) : bool :=
  if String.prefix needle hay then true
  else match hay with
       | EmptyString => false
       | String _ rest => is_substring needle rest
       end.

(** [c.lower()] for a character below U+0100: A-Z, and the Latin-1 capitals
    U+00C0..U+00DE except the multiplication sign U+00D7. *)
Definition lower_char (c : ascii) : ascii :=
  let n := nat_of_ascii c in
  if ((65 <=? n) && (n <=? 90))%nat then ascii_of_nat (n + 32)
  else if ((192 <=? n) && (n <=? 222) && negb (n =? 215))%nat then ascii_of_nat (n + 32)
  else c.

(** [s.lower()] *)
Fixpoint lower (s : string) : string :=
  match s with
  | EmptyString => EmptyString
  | String c rest => String (lower_char c) (lower rest)
  end.

(** [c.isspace()] below U+0100. *)
Definition isspace (c : ascii) : bool :=
  let n := nat_of_ascii c in
  (((9 <=? n) && (n <=? 13)) || ((28 <=? n) && (n <=? 32)) || (n =? 133) || (n =? 160))%nat.

Fixpoint lstrip (s : string) : string :=
  match s with
  | EmptyString => EmptyString
  | String c rest => if isspace c then lstrip rest else s
  end.

Fixpoint rstrip (s : string) : string :=
  match s with
  | EmptyString => EmptyString
  | String c rest =>
      match rstrip rest with
      | EmptyString => if isspace c then EmptyString else String c EmptyString
      | r => String c r
      end
  end.

(** [s.strip()] *)
Definition strip (s : string) : string := rstrip (lstrip s).

(** [sep.join(parts)] *)
Fixpoint join (sep : string) (parts : list string) : string :=
  match parts with
  | [] => EmptyString
  | [p] => p
  | p :: rest => p ++ sep ++ join sep rest
  end.

(** [str(n)] for an int, as an f-string prints it. *)
Definition str_of_int (n : Z) : string := NilZero.string_of_int (Z.to_int n).

Definition is_digit (c : ascii) : bool :=
  let n := nat_of_ascii c in ((48 <=? n) && (n <=? 57))%nat.

Definition digit_val (c : ascii) : Z := Z.of_nat (nat_of_ascii c) - 48.

(** The digits of an int literal: decimal digits, single underscores allowed
    between two digits.  [prev] tells whether the previous character was a
    digit; [acc] is the value read so far. *)
Fixpoint int_digits (s : string) (prev : bool) (acc : Z) : option Z :=
  match s with
  | EmptyString => if prev then Some acc else None
  | String c rest =>
      if is_digit c then int_digits rest true (10 * acc + digit_val c)
      else if (Ascii.eqb c "_" && prev)%bool then
        match rest with
        | String d _ => if is_digit d then int_digits rest false acc else None
        | EmptyString => None
        end
      else None
  end.

(** [int(s)] for a str: surrounding whitespace, an optional sign, digits.
    [None] stands for the [ValueError]. *)
Definition int_of_str (s : string) : option Z :=
  match strip s with
  | String "-" rest => option_map Z.opp (int_digits rest false 0)
  | String "+" rest => int_digits rest false 0
  | t => int_digits t false 0
  end.

(** [str(e)] of the [ValueError] raised by [int(s)] (for [s] whose [repr] is
    [s] between single quotes). *)
Definition int_error (s : string) : Exc :=
  mkExc false ("invalid literal for int() with base 10: '" ++ s ++ "'")%string.

Definition py_int (s : string) : Result Z :=
  match int_of_str s with
  | Some n => Ok n
  | None => Raise (int_error s)
  end.

(** [s.isdigit()] restricted to the decimal digits 0-9 (below U+0100 Python
    also accepts the superscripts U+00B2, U+00B3, U+00B9). *)
Fixpoint all_digits (s : string) : bool :=
  match s with
  | EmptyString => true
  | String c rest => (is_digit c || (let n := nat_of_ascii c in (n =? 178) || (n =? 179) || (n =? 185))%nat) && all_digits rest
  end.

Definition isdigit (s : string) : bool :=
  match s with EmptyString => false | _ => all_digits s end.

(** Truthiness of an [Optional[str]]. *)
Definition truthy (o : option string) : bool :=
  match o with
  | Some s => negb (s =? "")%string
  | None => false
  end.

(** *** Insertion-ordered dictionaries with string keys *)

Definition dict (V : Type) : Type := list (string * V).

Fixpoint dict_get {V} (d : dict V) (k : string) : option V :=
  match d with
  | [] => None
  | (k', v) :: rest => if (k' =? k)%string then Some v else dict_get rest k
  end.

(** [d[k] = v] *)
Fixpoint dict_set {V} (d : dict V) (k : string) (v : V) : dict V :=
  match d with
  | [] => [(k, v)]
  | (k', v') :: rest =>
      if (k' =? k)%string then (k, v) :: rest else (k', v') :: dict_set rest k v
  end.

(** [d.update(d2)] *)
Definition dict_update {V} (d d2 : dict V) : dict V :=
  fold_left (fun acc kv => dict_set acc (fst kv) (snd kv)) d2 d.

Definition keys {V} (d : dict V) : list string := map fst d.
Definition values {V} (d : dict V) : list V := map snd d.

(** [range(0, stop, step)] for [step <> 0]. *)
Definition range0 (stop step : Z) : list Z :=
  if 0 <? step then
    map (fun k => Z.of_nat k * step) (seq 0 (Z.to_nat ((stop + step - 1) / step)))
  else
    map (fun k => Z.of_nat k * step) (seq 0 (Z.to_nat ((stop + step + 1) / step))).

(** [l[i:j]] for [0 <= i <= j]. *)
Definition slice {A} (l : list A) (i j : Z) : list A :=
  firstn (Z.to_nat (j - i)) (skipn (Z.to_nat i) l).

End Py.
Export Py.

Notation "x <- c ;; k" := (bind c (fun x => k))
  (at level 61, c at next level, right associativity).

Definition nl : string := String (ascii_of_nat 10) EmptyString.

(** The character U+0022 as a string. *)
Definition dq : string := String (ascii_of_nat 34) EmptyString.

(* ================================================================= *)
(** ** More of [str]: [split], [count], slices *)

Module Str.

Definition newline : ascii := ascii_of_nat 10.

(** [s.split(sep)] for a separator of one character: the pieces between its
    occurrences; there is always at least one piece. *)
Fixpoint split_char (sep : ascii) (s : string) : list string :=
  match s with
  | EmptyString => [EmptyString]
  | String c rest =>
      if Ascii.eqb c sep then EmptyString :: split_char sep rest
      else match split_char sep rest with
           | piece :: pieces => String c piece :: pieces
           | [] => [String c EmptyString]
           end
  end.

(** [s.split(sep)] for any non-empty separator: occurrences are taken from the
    left, without overlap; [skip] characters of the occurrence just met are
    still to be passed. *)
Fixpoint split_str (sep : string) (skip : nat) (s : string) : list string :=
  match s with
  | EmptyString => [EmptyString]
  | String c rest =>
      match skip with
      | S k => split_str sep k rest
      | O =>
          if String.prefix sep s
          then EmptyString :: split_str sep (String.length sep - 1) rest
          else match split_str sep O rest with
               | piece :: pieces => String c piece :: pieces
               | [] => [String c EmptyString]
               end
      end
  end.

(** [s.split()]: the maximal runs of characters that are not whitespace. *)
Fixpoint split_ws (s : string) : list string :=
  match s with
  | EmptyString => []
  | String c rest =>
      if isspace c then split_ws rest
      else match rest with
           | EmptyString => [String c EmptyString]
           | String d _ =>
               if isspace d then String c EmptyString :: split_ws rest
               else match split_ws rest with
                    | word :: more => String c word :: more
                    | [] => [String c EmptyString]
                    end
           end
  end.

(** [s.count(sub)] for a non-empty [sub]: occurrences from the left, without
    overlap. *)
Fixpoint count (sub : string) (skip : nat) (s : string) : Z :=
  match s with
  | EmptyString => 0
  | String c rest =>
      match skip with
      | S k => count sub k rest
      | O => if String.prefix sub s
             then 1 + count sub (String.length sub - 1) rest
             else count sub O rest
      end
  end.

(** The first [n] characters of [s], all of [s] when it has fewer. *)
Fixpoint take (n : nat) (s : string) : string :=
  match n, s with
  | S k, String c rest => String c (take k rest)
  | _, _ => EmptyString
  end.

(** [s[:n]]: a negative [n] counts from the end. *)
Definition upto (s : string) (n : Z) : string :=
  if n <? 0 then take (Z.to_nat (len s + n)) s else take (Z.to_nat n) s.

(** [s * n] *)
Fixpoint times (s : string) (n : nat) : string :=
  match n with
  | O => EmptyString
  | S k => (s ++ times s k)%string
  end.

(** [l.remove(x)] when [x] is in [l]: the first occurrence goes. *)
Fixpoint remove (x : string) (l : list string) : list string :=
  match l with
  | [] => []
  | y :: rest => if (y =? x)%string then rest else y :: remove x rest
  end.

End Str.

(* ================================================================= *)
(** ** [json.dump] of the values the code writes *)

Module Json.

Definition backslash : string := String (ascii_of_nat 92) EmptyString.

Definition hex_digit (n : nat) : ascii :=
  ascii_of_nat (if (n <? 10)%nat then 48 + n else 87 + n).

(** One character of a string as [json.dumps] writes it with
    [ensure_ascii=True]: the quote and the backslash behind a backslash, the
    short escapes of U+000A, U+000D, U+0009, U+0008 and U+000C, any other
    character outside U+0020..U+007E as a [u] escape of four hexadecimal
    digits. *)
Definition escape (c : ascii) : string :=
  let n := nat_of_ascii c in
  (if (n =? 34)%nat then backslash ++ dq
   else if (n =? 92)%nat then backslash ++ backslash
   else if (n =? 10)%nat then backslash ++ "n"
   else if (n =? 13)%nat then backslash ++ "r"
   else if (n =? 9)%nat then backslash ++ "t"
   else if (n =? 8)%nat then backslash ++ "b"
   else if (n =? 12)%nat then backslash ++ "f"
   else if ((n <? 32) || (126 <? n))%nat
   then backslash ++ "u00" ++ String (hex_digit (n / 16)) (String (hex_digit (n mod 16)) EmptyString)
   else String c EmptyString)%string.

Fixpoint escape_all (s : string) : string :=
  match s with
  | EmptyString => EmptyString
  | String c rest => (escape c ++ escape_all rest)%string
  end.

(** [json.dumps(s)] for a str. *)
Definition str (s : string) : string := (dq ++ escape_all s ++ dq)%string.

(** [json.dumps(l)] for a list of str, default separators. *)
Definition str_list (l : list string) : string :=
  ("[" ++ join ", " (map str l) ++ "]")%string.

(** [json.dumps(d, indent=2)] for a dict of str to str. *)
Definition str_dict_indent2 (d : dict string) : string :=
  match d with
  | [] => "{}"
  | _ =>
      ("{" ++ nl
       ++ join ("," ++ nl)
               (map (fun kv => "  " ++ str (fst kv) ++ ": " ++ str (snd kv)) d)
       ++ nl ++ "}")%string
  end.

End Json.

(* ================================================================= *)
(** ** What the code takes from libraries and from the outside world *)

(** The libraries, as the code uses them.  [get_text s e sep] is
    [e.get_text(separator=sep, strip=True)] on the tree [s]; every call in the
    sources passes [strip=True].  [validation_error_str m] is [str(e)] of the
    [ValidationError] pydantic raises when a validator raises [ValueError(m)]. *)
Class Libs : Type := {
  Soup : Type;
  Elem : Type;
  BeautifulSoup : string -> Soup;
  soup_select : Soup -> string -> Result (list Elem);
  get_text : Soup -> Elem -> string -> string;
  decompose : Soup -> Elem -> Soup;
  find_all_names : Soup -> list string -> list Elem;
  find_all_class_code : Soup -> list Elem;
  stripped_strings : Soup -> list string;
  trafilatura_extract : string -> Result (option string);
  urlparse : string -> Result (string * string);
  strftime : Z -> string;
  validation_error_str : string -> string
}.

(** The arguments of one [session.get] call. *)
Record Request := mkRequest {
  req_url : string;
  req_headers : list (string * string);
  req_allow_redirects : option bool;
  req_timeout : option Z
}.

(** What a [session.get] call comes to: a response with its status and its
    [await response.text()], or an exception; [sent = false] marks an exception
    raised before anything was sent and before the task suspended (an
    unparsable URL, for instance). *)
Inductive HttpOutcome :=
| Response (status : Z) (text : Result string)
| GetRaises (sent : bool) (e : Exc).

(** The network and the event loop during one run.  [sched n] chooses, at the
    [n]-th step of the run, which of the suspended tasks completes next. *)
Record World := mkWorld {
  session_get : Request -> HttpOutcome;
  trafilatura_fetch_url : string -> Result (option string);
  sched : nat -> nat
}.

(* ================================================================= *)
(** ** batch_processor.py *)

Module BatchProcessor.

Record BatchProgress := mkProgress {
  total_urls : Z;
  processed_urls : Z;
  failed_urls : Z;
  current_batch : Z;
  total_batches : Z
}.

(** The object: [__init__] stores its two arguments and sets [progress] to
    [None]. *)
Record t := mk {
  batch_size : Z;
  max_concurrent : Z;
  progress : option BatchProgress
}.

Definition __init__ (batch_size max_concurrent : Z) : t := mk batch_size max_concurrent None.

(** [BatchProcessor()] *)
Definition default : t := __init__ 10 5.

(** [content_selector: Optional[Union[str, List[str]]]] *)
Inductive ContentSelector :=
| SelStr (s : string)
| SelList (l : list string).

(** The keyword arguments of [process_url]. *)
Record Kwargs := mkKwargs {
  content_selector : option ContentSelector;
  code_selector : option string;
  exclude_selector : option string;
  search_query : option string;
  content_filters : option (dict string)
}.

Definition no_kwargs : Kwargs := mkKwargs None None None None None.

Definition truthy_sel (o : option ContentSelector) : bool :=
  match o with
  | Some (SelStr s) => negb (s =? "")%string
  | Some (SelList l) => match l with [] => false | _ => true end
  | None => false
  end.

(** [[content_selector] if isinstance(content_selector, str) else content_selector] *)
Definition selectors_of (o : option ContentSelector) : list string :=
  match o with
  | Some (SelStr s) => [s]
  | Some (SelList l) => l
  | None => []
  end.

Definition opt_str (o : option string) : string :=
  match o with Some s => s | None => "" end.

Definition NO_CONTENT : string := "No content found".

(** Events of a run, kept to state what the run did and when. *)
Inductive Event :=
| EvStart (url : string)
| EvRequest (r : Request)
| EvFinish (url : string).

(** The processor together with the events so far. *)
Record St := mkSt { self : t; trace : list Event }.

Section WithLibs.
Context {L : Libs}.

(** [[elem.get_text(separator=sep, strip=True) for elem in elements
      if elem.get_text(strip=True)]] *)
Definition texts (soup : Soup) (sep : string) (elements : list Elem) : list string :=
  map (fun elem => get_text soup elem sep)
      (filter (fun elem => negb (get_text soup elem "" =? "")%string) elements).

(** The loop over the content selectors. *)
Fixpoint select_each (soup : Soup) (selectors : list string) : Result (list string) :=
  match selectors with
  | [] => Ok []
  | selector :: rest =>
      elements <- soup_select soup selector ;;
      more <- select_each soup rest ;;
      Ok (texts soup " " elements ++ more)
  end.

(** Lines 40-62: the branch taken when a selector is given. *)
Definition extract_selected (downloaded : string) (kw : Kwargs) : Result string :=
  let soup := BeautifulSoup downloaded in
  c1 <- (if truthy_sel (content_selector kw)
         then select_each soup (selectors_of (content_selector kw))
         else Ok []) ;;
  c2 <- (if truthy (code_selector kw)
         then code_elements <- soup_select soup (opt_str (code_selector kw)) ;;
              Ok (texts soup nl code_elements)
         else Ok []) ;;
  _ <- (if truthy (exclude_selector kw)
        then excluded <- soup_select soup (opt_str (exclude_selector kw)) ;;
             Ok (fold_left decompose excluded soup)
        else Ok soup) ;;
  let content := c1 ++ c2 in
  Ok (match content with
      | [] => NO_CONTENT
      | _ => join (nl ++ nl)%string content
      end).

(** Lines 38-64. *)
Definition extract_text (downloaded : string) (kw : Kwargs) : Result string :=
  if truthy_sel (content_selector kw) || truthy (code_selector kw)
     || truthy (exclude_selector kw)
  then extract_selected downloaded kw
  else
    r <- trafilatura_extract downloaded ;;
    Ok (match r with
        | Some text => if (text =? "")%string then NO_CONTENT else text
        | None => NO_CONTENT
        end).

(** [re.search(re.escape(q), text, re.IGNORECASE)] is not None: the pattern is
    the literal [q], matched without regard to case. *)
Definition search_matches (q text : string) : bool :=
  is_substring (lower q) (lower text).

(** Lines 73-81: the loop over [content_filters.items()].  [Ok None] when the
    loop ends without returning, [Ok (Some v)] when it returns [{url: v}]. *)
Fixpoint apply_filters (text_content : string) (filters : list (string * string))
  : Result (option string) :=
  match filters with
  | [] => Ok None
  | (filter_type, filter_value) :: rest =>
      if (filter_type =? "min_length")%string then
        n <- py_int filter_value ;;
        if len text_content <? n
        then Ok (Some ("Content filtered: Too short (min: " ++ filter_value ++ ")")%string)
        else apply_filters text_content rest
      else if (filter_type =? "max_length")%string then
        n <- py_int filter_value ;;
        if n <? len text_content
        then Ok (Some ("Content filtered: Too long (max: " ++ filter_value ++ ")")%string)
        else apply_filters text_content rest
      else if (filter_type =? "contains")%string then
        if negb (is_substring (lower filter_value) (lower text_content))
        then Ok (Some ("Content filtered: Does not contain '" ++ filter_value ++ "'")%string)
        else apply_filters text_content rest
      else if (filter_type =? "excludes")%string then
        if is_substring (lower filter_value) (lower text_content)
        then Ok (Some ("Content filtered: Contains excluded text '" ++ filter_value ++ "'")%string)
        else apply_filters text_content rest
      else apply_filters text_content rest
  end.

Definition truthy_dict (o : option (dict string)) : bool :=
  match o with
  | Some (_ :: _) => true
  | _ => false
  end.

Definition items (o : option (dict string)) : list (string * string) :=
  match o with Some d => d | None => [] end.

(** Lines 66-83: what is returned once the text is extracted. *)
Definition filter_text (text_content : string) (kw : Kwargs) : Result string :=
  if truthy (search_query kw) && negb (text_content =? NO_CONTENT)%string
     && negb (search_matches (opt_str (search_query kw)) text_content)
  then Ok "Content filtered: Does not match search query"
  else if truthy_dict (content_filters kw) && negb (text_content =? NO_CONTENT)%string
  then
    r <- apply_filters text_content (items (content_filters kw)) ;;
    Ok (match r with Some v => v | None => text_content end)
  else Ok text_content.

(** [session.get(url)]: no header, redirect or timeout argument. *)
Definition request (url : string) : Request := mkRequest url [] None None.

(** The [try] block of [process_url] (lines 33-85). *)
Definition process_url_try (w : World) (url : string) (kw : Kwargs) : Result string :=
  match session_get w (request url) with
  | GetRaises _ e => Raise e
  | Response status text =>
      if status =? 200 then
        html_content <- text ;;
        text_content <- extract_text html_content kw ;;
        filter_text text_content kw
      else Ok ("Error: HTTP " ++ str_of_int status)%string
  end.

(** [try] and [except Exception] together: the string [url] is mapped to. *)
Definition process_url_value (w : World) (url : string) (kw : Kwargs) : string :=
  match process_url_try w url kw with
  | Ok v => v
  | Raise e => "Error: " ++ exc_msg e
  end.

(** The [finally] clause (lines 89-91). *)
Definition finally (p : t) : t :=
  match progress p with
  | Some pr =>
      mk (batch_size p) (max_concurrent p)
         (Some (mkProgress (total_urls pr) (processed_urls pr + 1) (failed_urls pr)
                           (current_batch pr) (total_batches pr)))
  | None => p
  end.


(** *** Concurrent dispatch: [process_batch]

    [asyncio.gather] turns the coroutines into tasks.  The loop runs each task,
    in order, up to its first suspension, which is inside [session.get]; a task
    whose [session.get] raises before suspending runs to its end at once.  The
    suspended tasks then complete one at a time, in an order the world
    chooses; completing a task runs its [finally] clause.  [gather] returns
    the results in the order of the arguments. *)

Definition suspends (w : World) (url : string) : bool :=
  match session_get w (request url) with
  | GetRaises false _ => false
  | _ => true
  end.

Definition emit (st : St) (e : Event) : St := mkSt (self st) (trace st ++ [e]).

(** The end of a task: its [finally] clause. *)
Definition finish (st : St) (url : string) : St :=
  mkSt (finally (self st)) (trace st ++ [EvFinish url]).

(** The first run of a task. *)
Definition start (w : World) (st : St) (url : string) : St :=
  let st1 := emit st (EvStart url) in
  if suspends w url then emit st1 (EvRequest (request url)) else finish st1 url.

Definition remove_at {A} (i : nat) (l : list A) : list A := firstn i l ++ skipn (S i) l.

(** The suspended tasks complete in the order the world chooses. *)
Fixpoint drain (w : World) (fuel : nat) (pending : list string) (st : St) : St :=
  match fuel with
  | O => st
  | S fuel' =>
      match pending with
      | [] => st
      | _ =>
          let i := (sched w (List.length (trace st)) mod List.length pending)%nat in
          drain w fuel' (remove_at i pending) (finish st (nth i pending ""))
      end
  end.

Definition bump_batch (p : t) : t :=
  match progress p with
  | Some pr =>
      mk (batch_size p) (max_concurrent p)
         (Some (mkProgress (total_urls pr) (processed_urls pr) (failed_urls pr)
                           (current_batch pr + 1) (total_batches pr)))
  | None => p
  end.

(** Lines 93-106. *)
Definition process_batch (w : World) (st : St) (urls : list string) (kw : Kwargs)
  : dict string * St :=
  let st1 := fold_left (start w) urls st in
  let pending := filter (suspends w) urls in
  let st2 := drain w (List.length pending) pending st1 in
  let results := map (fun url => [(url, process_url_value w url kw)]) urls in
  let merged_results := fold_left dict_update results [] in
  (merged_results, mkSt (bump_batch (self st2)) (trace st2)).

Definition ZeroDivisionError : Exc := mkExc false "integer division or modulo by zero".

(** The loop of lines 116-119 over the start indices [range(0, len(urls), batch_size)]. *)
Fixpoint batch_loop (w : World) (urls : list string) (kw : Kwargs) (bs : Z)
  (starts : list Z) (results : dict string) (st : St) : dict string * St :=
  match starts with
  | [] => (results, st)
  | i :: rest =>
      let batch := slice urls i (i + bs) in
      let '(batch_results, st') := process_batch w st batch kw in
      batch_loop w urls kw bs rest (dict_update results batch_results) st'
  end.

(** Lines 108-121.  [//] and [%] by zero raise before [self.progress] is
    assigned. *)
Definition process_urls (w : World) (st : St) (urls : list string) (kw : Kwargs)
  : Result (dict string) * St :=
  let p := self st in
  let n := Z.of_nat (List.length urls) in
  if batch_size p =? 0 then (Raise ZeroDivisionError, st)
  else
    let pr := mkProgress n 0 0 0
                (n / batch_size p + (if n mod batch_size p =? 0 then 0 else 1)) in
    let st0 := mkSt (mk (batch_size p) (max_concurrent p) (Some pr)) (trace st) in
    let '(results, st') :=
      batch_loop w urls kw (batch_size p) (range0 n (batch_size p)) [] st0 in
    (Ok results, st').

(** [process_urls_sync]: a fresh [BatchProcessor()] for each call. *)
Definition process_urls_sync (w : World) (urls : list string) (kw : Kwargs)
  : Result (dict string) * St :=
  process_urls w (mkSt default []) urls kw.

End WithLibs.
End BatchProcessor.

(* ================================================================= *)
(** ** scraper.py *)

Module Scraper.

Definition MIN_CONTENT_LENGTH : Z := 10.

Definition USER_AGENT : string :=
  "Mozilla/5.0 (Windows NT 10.0; Win64; x64) AppleWebKit/537.36 (KHTML, like Gecko) Chrome/91.0.4472.124 Safari/537.36".

(** [session.get(url, headers=headers, allow_redirects=True,
                 timeout=aiohttp.ClientTimeout(total=30))] *)
Definition request (url : string) : Request :=
  mkRequest url [("User-Agent", USER_AGENT)] (Some true) (Some 30).

(** [s.replace(pat, '')] for a non-empty [pat]; [skip] characters of a match
    are still to be dropped. *)
Fixpoint delete_all (pat : string) (skip : nat) (s : string) : string :=
  match s with
  | EmptyString => EmptyString
  | String c rest =>
      match skip with
      | S k => delete_all pat k rest
      | O => if String.prefix pat s
             then delete_all pat (String.length pat - 1) rest
             else String c (delete_all pat O rest)
      end
  end.

Section WithLibs.
Context {L : Libs}.

(** Lines 84-90. *)
Definition code_block (soup : Soup) (block : Elem) : list string :=
  let code_text := get_text soup block "" in
  if (code_text =? "")%string then []
  else
    let code_text := strip (delete_all "Copy code" O code_text) in
    if 5 <? len code_text then [code_text] else [].

(** Lines 96-99. *)
Definition class_block (soup : Soup) (element : Elem) : list string :=
  let code_text := get_text soup element "" in
  if negb (code_text =? "")%string && (5 <? len code_text) then [code_text] else [].

(** Lines 59-126: from the body of a 200 response to the returned string. *)
Definition extract (content : string) (content_selector code_selector exclude_selector : option string)
  : Result string :=
  let soup := BeautifulSoup content in
  soup <- (if truthy exclude_selector
           then excluded <- soup_select soup (BatchProcessor.opt_str exclude_selector) ;;
                Ok (fold_left decompose excluded soup)
           else Ok soup) ;;
  text_content <- (if truthy content_selector
                   then content_elements <- soup_select soup (BatchProcessor.opt_str content_selector) ;;
                        Ok (filter (fun text => negb (text =? "")%string)
                                   (map (fun element => get_text soup element "") content_elements))
                   else Ok []) ;;
  code_elements <- (if truthy code_selector
                    then soup_select soup (BatchProcessor.opt_str code_selector)
                    else Ok (find_all_names soup ["code"; "pre"; "div.highlight"; "div.code"])) ;;
  let code_blocks := flat_map (code_block soup) code_elements in
  let '(text_content, code_blocks) :=
    match text_content, code_blocks with
    | [], [] =>
        ([join " " (stripped_strings soup)],
         flat_map (class_block soup) (find_all_class_code soup))
    | _, _ => (text_content, code_blocks)
    end in
  let final_content := text_content ++ code_blocks in
  let text_content := strip (join (nl ++ nl)%string final_content) in
  if len text_content <? MIN_CONTENT_LENGTH
  then Ok ("Error: Content too short (minimum " ++ str_of_int MIN_CONTENT_LENGTH
           ++ " characters required)")%string
  else Ok text_content.

(** Lines 51-57 and on: the request and the reading of the status. *)
Definition fetch_with_session (w : World) (url : string)
  (content_selector code_selector exclude_selector : option string) : Result string :=
  match session_get w (request url) with
  | GetRaises _ e => Raise e
  | Response status text =>
      if (status =? 403) || (status =? 401)
      then Ok ("Error: Access forbidden (HTTP " ++ str_of_int status
               ++ "). Try a publicly accessible URL.")%string
      else if negb (status =? 200)
      then Ok ("Error: HTTP " ++ str_of_int status)%string
      else
        content <- text ;;
        extract content content_selector code_selector exclude_selector
  end.

(** Lines 38-47: [Ok (Some v)] when the function returns [v] from there. *)
Definition try_trafilatura (w : World) (url : string) : Result (option string) :=
  downloaded <- trafilatura_fetch_url w url ;;
  match downloaded with
  | None => Ok None
  | Some d =>
      text_content <- trafilatura_extract d ;;
      Ok (match text_content with
          | Some t => if (t =? "")%string then None else Some (strip t)
          | None => None
          end)
  end.

(** The [try] block (lines 27-126). *)
Definition fetch_url_content_try (w : World) (url : string)
  (content_selector code_selector exclude_selector : option string) : Result string :=
  parsed_url <- urlparse url ;;
  let '(scheme, netloc) := parsed_url in
  if (scheme =? "")%string || (netloc =? "")%string then Ok "Error: Invalid URL"
  else
    early <- (if negb (truthy content_selector || truthy code_selector
                       || truthy exclude_selector)
              then try_trafilatura w url
              else Ok None) ;;
    match early with
    | Some v => Ok v
    | None => fetch_with_session w url content_selector code_selector exclude_selector
    end.

(** Lines 26-133, the two [except] clauses included. *)
Definition fetch_url_content (w : World) (url : string)
  (content_selector code_selector exclude_selector : option string) : string :=
  match fetch_url_content_try w url content_selector code_selector exclude_selector with
  | Ok v => v
  | Raise e =>
      if exc_client e then "Error: " ++ exc_msg e
      else "Error: An unexpected error occurred - " ++ exc_msg e
  end.

(** [scrape_urls_async] (lines 135-152): [dict(zip(urls, results))] over the
    results of the gathered tasks, which are in the order of [urls].  The
    tasks share no state, so each result is that of its own call. *)
Definition scrape_urls_async (w : World) (urls : list string)
  (content_selector code_selector exclude_selector : option string) : dict string :=
  let results :=
    map (fun url => fetch_url_content w url content_selector code_selector exclude_selector)
        urls in
  fold_left (fun d ur => dict_set d (fst ur) (snd ur)) (combine urls results) [].

(** [scrape_urls] (lines 154-165). *)
Definition scrape_urls (w : World) (urls : list string)
  (content_selector code_selector exclude_selector : option string) : dict string :=
  scrape_urls_async w urls content_selector code_selector exclude_selector.

(** [test_scraper_async] and [test_scraper] (lines 167-176): what is returned;
    the rest is logging. *)
Definition test_scraper (w : World) (url : string) : dict string :=
  scrape_urls_async w [url] None None None.

End WithLibs.
End Scraper.

(* ================================================================= *)
(** ** main.py: the view [index] *)

Module Main.

(** Lines 59-73: [request.form.get(name, '').strip()] for the four fields, and
    the dictionary built from them. *)
Definition build_content_filters (min_length max_length contains_text excludes_text : string)
  : dict string :=
  let min_length := strip min_length in
  let max_length := strip max_length in
  let contains_text := strip contains_text in
  let excludes_text := strip excludes_text in
  let content_filters := [] in
  let content_filters :=
    if negb (min_length =? "")%string && isdigit min_length
    then dict_set content_filters "min_length" min_length else content_filters in
  let content_filters :=
    if negb (max_length =? "")%string && isdigit max_length
    then dict_set content_filters "max_length" max_length else content_filters in
  let content_filters :=
    if negb (contains_text =? "")%string
    then dict_set content_filters "contains" contains_text else content_filters in
  let content_filters :=
    if negb (excludes_text =? "")%string
    then dict_set content_filters "excludes" excludes_text else content_filters in
  content_filters.

(** Line 104: [content_filters if content_filters else None]. *)
Definition content_filters_arg (d : dict string) : option (dict string) :=
  match d with [] => None | _ => Some d end.

(** The posted form: [None] for a field that is absent, so that
    [request.form.get(name, '')] is [opt_str] of the field;
    [f_content_selector_type] is [request.form.getlist('content_selector_type[]')]. *)
Record Form := mkForm {
  f_urls : option string;
  f_output_format : option string;
  f_content_selector_type : list string;
  f_content_selector : option string;
  f_search_query : option string;
  f_min_length : option string;
  f_max_length : option string;
  f_contains_text : option string;
  f_excludes_text : option string;
  f_code_selector : option string;
  f_exclude_selector : option string
}.

(** What the view returns: a body with a status, a file sent as an
    attachment, or a rendered template. *)
Inductive Reply :=
| Text (body : string) (status : Z)
| Attachment (content download_name : string)
| Page (template : string).

(** [request.form.get(name, '').strip() or None] *)
Definition stripped_or_none (field : option string) : option string :=
  let v := strip (BatchProcessor.opt_str field) in
  if (v =? "")%string then None else Some v.

(** Lines 75-82: the content selector made of the chosen types and of the
    custom selector. *)
Definition combine_selectors (content_selector_types : list string) (custom_selector : string)
  : option string :=
  let content_selector_types :=
    if existsb (String.eqb "custom") content_selector_types
       && negb (custom_selector =? "")%string
    then (Str.remove "custom" content_selector_types ++ [custom_selector])%list
    else content_selector_types in
  match content_selector_types with
  | [] => None
  | _ => Some (join ", " (filter (fun t => negb (t =? "")%string) content_selector_types))
  end.

(** Lines 109-110: the entries that are neither empty, nor errors, nor
    filtered out. *)
Definition valid_results (scraped_data : dict string) : dict string :=
  filter (fun uc => negb (snd uc =? "")%string
                    && negb (startswith (snd uc) "Error:"
                             || startswith (snd uc) "Content filtered:"))
         scraped_data.

(** Lines 118-121. *)
Definition render_txt (valid_results : dict string) : string :=
  String.concat ""
    (map (fun uc => ("URL: " ++ fst uc ++ nl ++ nl ++ snd uc
                     ++ nl ++ nl ++ Str.times "-" 50 ++ nl ++ nl)%string)
         valid_results).

(** Line 136: the blocks of a content that are not blank. *)
Definition code_blocks_of (content : string) : list string :=
  filter (fun block => negb (strip block =? "")%string)
         (Str.split_str (nl ++ nl) O content).

(** Lines 135-142: one record and the newline written after it. *)
Definition jsonl_line (uc : string * string) : string :=
  let code_blocks := code_blocks_of (snd uc) in
  ("{" ++ Json.str "url" ++ ": " ++ Json.str (fst uc) ++ ", "
   ++ Json.str "code_blocks" ++ ": " ++ Json.str_list code_blocks ++ ", "
   ++ Json.str "total_blocks" ++ ": " ++ str_of_int (Z.of_nat (List.length code_blocks))
   ++ "}" ++ nl)%string.

Definition render_jsonl (valid_results : dict string) : string :=
  String.concat "" (map jsonl_line valid_results).

(** Lines 149-152. *)
Definition render_md (valid_results : dict string) : string :=
  String.concat ""
    (map (fun uc => ("# " ++ fst uc ++ nl ++ nl ++ snd uc ++ nl ++ nl ++ "---" ++ nl ++ nl)%string)
         valid_results).

(** Lines 159-164. *)
Definition render_html (valid_results : dict string) : string :=
  ("<html><body>"
   ++ String.concat ""
        (map (fun uc => ("<h1>" ++ fst uc ++ "</h1>" ++ "<p>" ++ snd uc ++ "</p>" ++ "<hr>")%string)
             valid_results)
   ++ "</body></html>")%string.

Section WithLibs.
Context {L : Libs}.

(** Lines 87-93: the lines of the input that are URLs with a scheme and a
    host, stripped.  [urlparse] raising leaves the view. *)
Fixpoint valid_urls (urls_input : list string) : Result (list string) :=
  match urls_input with
  | [] => Ok []
  | url :: rest =>
      let url := strip url in
      if negb (url =? "")%string then
        parsed_url <- urlparse url ;;
        urls <- valid_urls rest ;;
        Ok (if negb (fst parsed_url =? "")%string && negb (snd parsed_url =? "")%string
            then url :: urls else urls)
      else valid_urls rest
  end.

(** Lines 115-172: the file written for [output_format]; [io] is the
    exception, if any, raised while the file is created, written and sent.
    A format that is none of the five leaves the [try] block without a
    return. *)
Definition export (io : option Exc) (output_format : option string)
  (valid_results : dict string) : option Reply :=
  let send content download_name :=
    match io with
    | Some e => Some (Text ("Error creating file: " ++ exc_msg e)%string 500)
    | None => Some (Attachment content download_name)
    end in
  match output_format with
  | Some "txt" => send (render_txt valid_results) "scraped_content.txt"
  | Some "json" => send (Json.str_dict_indent2 valid_results) "scraped_content.json"
  | Some "jsonl" => send (render_jsonl valid_results) "code_blocks.jsonl"
  | Some "md" => send (render_md valid_results) "scraped_content.md"
  | Some "html" => send (render_html valid_results) "scraped_content.html"
  | _ => None
  end.

(** The [POST] branch of [index] (lines 50-172), with the events of the
    pipeline it ran. *)
Definition index_post (w : World) (io : option Exc) (form : Form)
  : Result Reply * list BatchProcessor.Event :=
  let urls_input := Str.split_char Str.newline (BatchProcessor.opt_str (f_urls form)) in
  let custom_selector := strip (BatchProcessor.opt_str (f_content_selector form)) in
  let search_query := stripped_or_none (f_search_query form) in
  let content_filters :=
    build_content_filters (BatchProcessor.opt_str (f_min_length form))
                          (BatchProcessor.opt_str (f_max_length form))
                          (BatchProcessor.opt_str (f_contains_text form))
                          (BatchProcessor.opt_str (f_excludes_text form)) in
  let content_selector := combine_selectors (f_content_selector_type form) custom_selector in
  let code_selector := stripped_or_none (f_code_selector form) in
  let exclude_selector := stripped_or_none (f_exclude_selector form) in
  match valid_urls urls_input with
  | Raise e => (Raise e, [])
  | Ok [] => (Ok (Text "No valid URLs provided" 400), [])
  | Ok urls =>
      let kw := BatchProcessor.mkKwargs
                  (option_map BatchProcessor.SelStr content_selector)
                  code_selector exclude_selector search_query
                  (content_filters_arg content_filters) in
      match BatchProcessor.process_urls_sync w urls kw with
      | (Raise e, st) => (Raise e, BatchProcessor.trace st)
      | (Ok scraped_data, st) =>
          let valid_results := valid_results scraped_data in
          match valid_results with
          | [] => (Ok (Text "No content was extracted or all content was filtered out" 400),
                   BatchProcessor.trace st)
          | _ =>
              (Ok (match export io (f_output_format form) valid_results with
                   | Some reply => reply
                   | None => Page "index.html"
                   end),
               BatchProcessor.trace st)
          end
      end
  end.

(** [index] (lines 48-174). *)
Definition index (w : World) (io : option Exc) (method : string) (form : Form)
  : Result Reply * list BatchProcessor.Event :=
  if (method =? "POST")%string then index_post w io form
  else (Ok (Page "index.html"), []).

End WithLibs.

End Main.

(* ================================================================= *)
(** ** template_manager.py *)

Module TemplateManager.

Definition template_article : string :=
  join nl ["# {title}"; ""; "{toc}"; ""; "{content}"; ""; "---";
           "Source: {url}"; "Extracted: {timestamp}"; ""].

Definition template_code : string :=
  join nl ["# {title}"; ""; "{toc}"; ""; "## Code Blocks"; ""; "{content}"; ""; "---";
           "Source: {url}"; "Extracted: {timestamp}"; ""].

Definition template_documentation : string :=
  join nl ["# {title}"; ""; "## Table of Contents"; "{toc}"; ""; "## Content";
           "{content}"; ""; "---"; "Source: {url}"; "Last Updated: {timestamp}"; ""].

Definition template_blog : string :=
  join nl ["# {title}"; ""; "{toc}"; ""; "{content}"; ""; "## Metadata";
           "- Source: {url}"; "- Published: {timestamp}";
           "- Reading Time: {reading_time} min"; ""].

(** Lines 7-53. *)
Definition DEFAULT_TEMPLATE : dict string :=
  [("article", template_article); ("code", template_code);
   ("documentation", template_documentation); ("blog", template_blog)].

(** *** The heading pattern [^(#{1,6})\s+(.+)$] *)

(** [(.+)$]: the characters up to the end, none of them a newline; [$] also
    matches before a newline that ends the string.  The result is group 2. *)
Fixpoint dot_plus (s : string) : option string :=
  match s with
  | EmptyString => None
  | String c rest =>
      if Ascii.eqb c Str.newline then None
      else match rest with
           | EmptyString => Some (String c EmptyString)
           | String d rest' =>
               if Ascii.eqb d Str.newline && (rest' =? "")%string
               then Some (String c EmptyString)
               else option_map (String c) (dot_plus rest)
           end
  end.

(** [\s+(.+)$]: the longest run of whitespace is tried first, then shorter
    ones. *)
Fixpoint spaces_then (s : string) : option string :=
  match s with
  | EmptyString => None
  | String c rest =>
      if isspace c then
        match spaces_then rest with
        | Some text => Some text
        | None => dot_plus rest
        end
      else None
  end.

(** The pattern once [group1] has been read, with up to [more] further
    characters U+0023 allowed in it; the longest group is tried first.  The
    result is groups 1 and 2. *)
Fixpoint heading_from (more : nat) (group1 : string) (s : string) : option (string * string) :=
  let stop := match group1 with
              | EmptyString => None
              | _ => option_map (pair group1) (spaces_then s)
              end in
  match more, s with
  | S more', String c rest =>
      if Ascii.eqb c "#" then
        match heading_from more' (group1 ++ "#") rest with
        | Some m => Some m
        | None => stop
        end
      else stop
  | _, _ => stop
  end.

(** [heading_pattern.match(line)] *)
Definition heading_pattern_match (line : string) : option (string * string) :=
  heading_from 6 "" line.

(** The loop of lines 66-83. *)
Fixpoint toc_loop (lines toc_lines processed_content_lines : list string)
  (current_heading_id : Z) : list string * list string :=
  match lines with
  | [] => (toc_lines, processed_content_lines)
  | line :: rest =>
      match heading_pattern_match line with
      | Some (group1, group2) =>
          let level := len group1 in
          let heading_text := strip group2 in
          let heading_id := ("heading-" ++ str_of_int current_heading_id)%string in
          let indent := Str.times "  " (Z.to_nat (level - 1)) in
          toc_loop rest
            (toc_lines ++ [(indent ++ "- [" ++ heading_text ++ "](#" ++ heading_id ++ ")")%string])
            (processed_content_lines
             ++ [(group1 ++ " " ++ heading_text ++ " <a id=" ++ dq ++ heading_id ++ dq
                  ++ "></a>")%string])
            (current_heading_id + 1)
      | None => toc_loop rest toc_lines (processed_content_lines ++ [line]) current_heading_id
      end
  end.

(** [_generate_toc] (lines 56-88): the table of contents and the content with
    an anchor after each heading. *)
Definition _generate_toc (content : string) : string * string :=
  let lines := Str.split_char Str.newline content in
  let '(toc_lines, processed_content_lines) := toc_loop lines [] [] 0 in
  let toc := match toc_lines with
             | [] => EmptyString
             | _ => ("## Table of Contents" ++ nl ++ join nl toc_lines)%string
             end in
  (toc, join nl processed_content_lines).

(** [get_template] (lines 91-94). *)
Definition get_template (template_type : string) : string :=
  match dict_get DEFAULT_TEMPLATE template_type with
  | Some template => template
  | None => template_article
  end.

(** [str.format] with keyword arguments [args], for format strings whose replacement fields are
    bare names, as those of [DEFAULT_TEMPLATE] are: text is copied, a doubled
    brace stands for one brace, [{name}] is replaced by [args[name]]; a name
    that is not in [args] raises [KeyError], a closing brace on its own or a
    field that is not closed raises [ValueError].  [field] holds the name
    being read. *)
Fixpoint format (template : string) (field : option string) (args : dict string)
  : Result string :=
  match template with
  | EmptyString =>
      match field with
      | None => Ok EmptyString
      | Some _ => Raise (mkExc false "expected '}' before end of string")
      end
  | String c rest =>
      match field with
      | Some name =>
          if Ascii.eqb c "}" then
            match dict_get args name with
            | Some value => out <- format rest None args ;; Ok (value ++ out)%string
            | None => Raise (mkExc false ("'" ++ name ++ "'"))
            end
          else format rest (Some (name ++ String c EmptyString)%string) args
      | None =>
          if Ascii.eqb c "{" then
            match rest with
            | String "{" rest' => out <- format rest' None args ;; Ok (String c out)
            | _ => format rest (Some EmptyString) args
            end
          else if Ascii.eqb c "}" then
            match rest with
            | String "}" rest' => out <- format rest' None args ;; Ok (String c out)
            | _ => Raise (mkExc false "Single '}' encountered in format string")
            end
          else out <- format rest None args ;; Ok (String c out)
      end
  end.

(** [format_template] (lines 97-118).  [timestamp] is what
    [datetime.now().strftime("%Y-%m-%d %H:%M:%S")] gives at the call. *)
Definition format_template (timestamp : string) (template_type content url : string)
  (title : option string) : Result string :=
  let template := get_template template_type in
  let title := if truthy title then BatchProcessor.opt_str title else url in
  let reading_time := Z.max 1 (Z.of_nat (List.length (Str.split_ws content)) / 200) in
  let '(toc, processed_content) := _generate_toc content in
  format template None
    [("title", title); ("content", processed_content); ("url", url);
     ("timestamp", timestamp); ("toc", toc); ("reading_time", str_of_int reading_time)].

Definition code_block_indicators : list string :=
  ["```"; "def "; "class "; "function"; "return"].

Definition doc_indicators : list string :=
  ["## "; "### "; "Table of Contents"; "Installation"; "Usage"].

Definition blog_indicators : list string :=
  ["Posted on"; "Author:"; "Comments"; "Tags:"].

(** [sum(content.count(indicator) for indicator in indicators)] *)
Definition score (indicators : list string) (content : string) : Z :=
  fold_left Z.add (map (fun indicator => Str.count indicator O content) indicators) 0.

(** [max(items, key=lambda x: x[1])] with [best] the largest so far: a later
    item replaces it only when its value is larger. *)
Fixpoint max_item (best : string * Z) (items : list (string * Z)) : string * Z :=
  match items with
  | [] => best
  | item :: rest => max_item (if snd best <? snd item then item else best) rest
  end.

(** [detect_content_type] (lines 121-143). *)
Definition detect_content_type (content : string) : Result string :=
  let code_score := score code_block_indicators content in
  let doc_score := score doc_indicators content in
  let blog_score := score blog_indicators content in
  let scores := [("code", code_score); ("documentation", doc_score); ("blog", blog_score)] in
  let max_score_type := fst (max_item ("code", code_score) (tl scores)) in
  match dict_get scores max_score_type with
  | Some v => Ok (if 0 <? v then max_score_type else "article")
  | None => Raise (mkExc false ("'" ++ max_score_type ++ "'"))
  end.

End TemplateManager.

(* ================================================================= *)
(** ** coda_pack.py: selector validation and [extract_content] *)

Module CodaPack.

Definition code (c : ascii) : nat := nat_of_ascii c.

(** [[a-zA-Z0-9]] *)
Definition is_alnum (c : ascii) : bool :=
  (((48 <=? code c) && (code c <=? 57)) || ((65 <=? code c) && (code c <=? 90))
   || ((97 <=? code c) && (code c <=? 122)))%nat.

(** [[a-zA-Z0-9#\.\-_]] *)
Definition name_char (c : ascii) : bool :=
  (is_alnum c || (code c =? 35) || (code c =? 46) || (code c =? 45) || (code c =? 95))%nat.

(** The class of the first pattern: the name characters and the characters
    U+005B, U+005D, U+003D, U+0022, U+0027, U+007E, U+005E, U+0024, U+002A,
    U+007C. *)
Definition basic_char (c : ascii) : bool :=
  (name_char c || (code c =? 91) || (code c =? 93) || (code c =? 61) || (code c =? 34)
   || (code c =? 39) || (code c =? 126) || (code c =? 94) || (code c =? 36)
   || (code c =? 42) || (code c =? 124))%nat.

Definition is_nl (c : ascii) : bool := (code c =? 10)%nat.
Definition is_gt (c : ascii) : bool := (code c =? 62)%nat.

(** The end of a match: [$] matches at the end of the string and before a
    newline that ends it. *)
Definition last_newline (c : ascii) (rest : string) : bool :=
  is_nl c && (rest =? "")%string.

(** [re.match(r'^[...]+$', v)], first pattern; [seen]: a character of the
    class has been read. *)
Fixpoint basic_selector (seen : bool) (v : string) : bool :=
  match v with
  | EmptyString => seen
  | String c rest =>
      if basic_char c then basic_selector true rest
      else seen && last_newline c rest
  end.

(** Where a match of the second or third pattern stands: a name is needed,
    a name is being read, a separator is being read. *)
Inductive Pos := Need | Name | Sep.

(** Second pattern: names separated by whitespace. *)
Fixpoint descendant_selector (q : Pos) (v : string) : bool :=
  match v with
  | EmptyString => match q with Name => true | _ => false end
  | String c rest =>
      match q with
      | Need => name_char c && descendant_selector Name rest
      | Name =>
          if name_char c then descendant_selector Name rest
          else if isspace c then last_newline c rest || descendant_selector Sep rest
          else false
      | Sep =>
          if name_char c then descendant_selector Name rest
          else if isspace c then descendant_selector Sep rest
          else false
      end
  end.

(** Third pattern: names separated by optional whitespace and [>]. *)
Fixpoint child_selector (q : Pos) (v : string) : bool :=
  match v with
  | EmptyString => match q with Name => true | _ => false end
  | String c rest =>
      match q with
      | Need => name_char c && child_selector Name rest
      | Name =>
          if name_char c then child_selector Name rest
          else if is_gt c then child_selector Need rest
          else if isspace c then last_newline c rest || child_selector Sep rest
          else false
      | Sep =>
          if is_gt c then child_selector Need rest
          else if isspace c then child_selector Sep rest
          else false
      end
  end.

(** [validate_css_selector] does not raise on [v]. *)
Definition valid_css_selector (v : string) : bool :=
  (v =? "")%string || basic_selector false v || descendant_selector Need v
  || child_selector Need v.

(** A value of the dictionaries [Formula_PreviewContent] returns. *)
Inductive PreviewValue :=
| PStr (s : string)
| PInt (n : Z)
| PBool (b : bool).

(** The arguments of one [requests.post] call. *)
Record PostRequest := mkPost {
  post_url : string;
  post_headers : list (string * string);
  post_json : dict string
}.

(** The Coda service and the process environment, as the page formula uses
    them.  [get_doc n doc_id] is [coda.get_doc(doc_id)] and [requests_post n r]
    is [requests.post] with the arguments [r], each after [n] earlier posts:
    an exception, or the status code together with
    [response.json()['id']] as the f-string prints it (or the exception that
    reading it raises).  [api_key] is [os.environ['CODA_API_KEY']];
    [clock n] is what [datetime.now().strftime("%Y-%m-%d %H:%M:%S")] gives at
    its [n]-th call. *)
Record Coda := mkCoda {
  get_doc : nat -> string -> Result unit;
  api_key : Result string;
  requests_post : nat -> PostRequest -> Result (Z * Result string);
  clock : nat -> string
}.

(** What the formulas have done so far: the posts made, and the number of
    times the clock was read. *)
Record CodaSt := mkCodaSt {
  posts : list PostRequest;
  clock_reads : nat
}.

Section WithLibs.
Context {L : Libs}.

(** [CSSSelector(selector=v)] *)
Definition CSSSelector (v : string) : Result unit :=
  if valid_css_selector v then Ok tt
  else Raise (mkExc false (validation_error_str ("Invalid CSS selector: " ++ v)%string)).

(** Lines 55-59: [content_selector] as a list. *)
Definition as_list (content_selector : option BatchProcessor.ContentSelector) : list string :=
  match content_selector with
  | Some (BatchProcessor.SelStr s) => if (s =? "")%string then [] else [s]
  | Some (BatchProcessor.SelList l) => l
  | None => []
  end.

Fixpoint validate_each (selectors : list string) : Result unit :=
  match selectors with
  | [] => Ok tt
  | selector :: rest => _ <- CSSSelector selector ;; validate_each rest
  end.

(** Lines 63-68: the validation that opens the [try] block of each URL. *)
Definition validate (content_selector : list string) (code_selector exclude_selector : option string)
  : Result unit :=
  _ <- validate_each content_selector ;;
  _ <- (if truthy code_selector then CSSSelector (BatchProcessor.opt_str code_selector)
        else Ok tt) ;;
  if truthy exclude_selector then CSSSelector (BatchProcessor.opt_str exclude_selector)
  else Ok tt.

(** Lines 77-99: the three inner [try] blocks. *)
Definition selected (downloaded : string) (content_selector : list string)
  (code_selector exclude_selector : option string) : string :=
  let soup := BeautifulSoup downloaded in
  let c1 :=
    flat_map (fun selector =>
                match soup_select soup selector with
                | Ok elements => BatchProcessor.texts soup " " elements
                | Raise e => [("Error with selector '" ++ selector ++ "': " ++ exc_msg e)%string]
                end) content_selector in
  let c2 :=
    if truthy code_selector then
      match soup_select soup (BatchProcessor.opt_str code_selector) with
      | Ok code_elements => BatchProcessor.texts soup nl code_elements
      | Raise e => [("Error with code selector: " ++ exc_msg e)%string]
      end
    else [] in
  let c3 :=
    if truthy exclude_selector then
      match soup_select soup (BatchProcessor.opt_str exclude_selector) with
      | Ok _ => []
      | Raise e => [("Error with exclude selector: " ++ exc_msg e)%string]
      end
    else [] in
  match (c1 ++ c2 ++ c3)%list with
  | [] => BatchProcessor.NO_CONTENT
  | content => join (nl ++ nl)%string content
  end.

(** The [try] block of one URL (lines 62-104), and whether
    [trafilatura.fetch_url] was called. *)
Definition extract_one_try (w : World) (url : string) (content_selector : list string)
  (code_selector exclude_selector : option string) : Result string * bool :=
  match validate content_selector code_selector exclude_selector with
  | Raise e => (Raise e, false)
  | Ok _ =>
      (downloaded <- trafilatura_fetch_url w url ;;
       if truthy downloaded then
         if match content_selector with [] => false | _ => true end
            || truthy code_selector || truthy exclude_selector
         then Ok (selected (BatchProcessor.opt_str downloaded) content_selector
                           code_selector exclude_selector)
         else
           extracted_text <- trafilatura_extract (BatchProcessor.opt_str downloaded) ;;
           Ok (if truthy extracted_text then BatchProcessor.opt_str extracted_text
               else BatchProcessor.NO_CONTENT)
       else Ok "Error: Failed to download content",
       true)
  end.

(** The loop of lines 61-106: the results and the URLs downloaded. *)
Fixpoint extract_loop (w : World) (content_selector : list string)
  (code_selector exclude_selector : option string) (urls : list string)
  (results : dict string) (fetched : list string) : dict string * list string :=
  match urls with
  | [] => (results, fetched)
  | url :: rest =>
      let '(r, called) := extract_one_try w url content_selector code_selector exclude_selector in
      let value := match r with
                   | Ok v => v
                   | Raise e => ("Error: " ++ exc_msg e)%string
                   end in
      extract_loop w content_selector code_selector exclude_selector rest
        (dict_set results url value) (if called then fetched ++ [url] else fetched)
  end.

(** [extract_content] (lines 50-108). *)
Definition extract_content (w : World) (urls : list string)
  (content_selector : option BatchProcessor.ContentSelector)
  (code_selector exclude_selector : option string) : dict string * list string :=
  extract_loop w (as_list content_selector) code_selector exclude_selector urls [] [].

(** [Formula_ExtractContent] (lines 110-113). *)
Definition Formula_ExtractContent (w : World) (urls : list string)
  (content_selector : option BatchProcessor.ContentSelector)
  (code_selector exclude_selector : option string) : dict string :=
  fst (extract_content w urls content_selector code_selector exclude_selector).

(** Lines 123-138: the entry of one URL. *)
Definition preview_data (max_preview_length : Z) (content : string) : dict PreviewValue :=
  if startswith content "Error:" then
    [("status", PStr "error"); ("error_message", PStr content);
     ("preview", PStr ""); ("content_length", PInt 0)]
  else
    let content_length := len content in
    let preview :=
      (Str.upto content max_preview_length
       ++ (if (max_preview_length <? content_length)%Z then "..." else ""))%string in
    [("status", PStr "success"); ("preview", PStr preview);
     ("content_length", PInt content_length);
     ("has_more", PBool (max_preview_length <? content_length))].

(** [Formula_PreviewContent] (lines 115-141). *)
Definition Formula_PreviewContent (w : World) (urls : list string)
  (content_selector : option BatchProcessor.ContentSelector)
  (code_selector exclude_selector : option string) (max_preview_length : Z)
  : dict (dict PreviewValue) :=
  let results := fst (extract_content w urls content_selector code_selector exclude_selector) in
  fold_left (fun previews uc => dict_set previews (fst uc) (preview_data max_preview_length (snd uc)))
            results [].

(** Lines 149-159: the loop that builds the body of the page.  An exception
    of the template manager leaves the loop. *)
Fixpoint page_body (c : Coda) (template_type : option string) (content : list (string * string))
  (page_content : string) (st : CodaSt) : Result string * CodaSt :=
  match content with
  | [] => (Ok page_content, st)
  | (url, text) :: rest =>
      if negb (startswith text "Error:") then
        match (if truthy template_type then Ok (BatchProcessor.opt_str template_type)
               else TemplateManager.detect_content_type text) with
        | Raise e => (Raise e, st)
        | Ok detected_type =>
            let st' := mkCodaSt (posts st) (S (clock_reads st)) in
            match TemplateManager.format_template (clock c (clock_reads st))
                    detected_type text url None with
            | Raise e => (Raise e, st')
            | Ok formatted_content =>
                page_body c template_type rest
                  (page_content ++ formatted_content ++ nl ++ nl ++ "---" ++ nl ++ nl)%string st'
            end
        end
      else page_body c template_type rest page_content st
  end.

(** Lines 161-186: the inner [try] block. *)
Definition create_page (c : Coda) (doc_id page_name page_content : string) (st : CodaSt)
  : Result string * CodaSt :=
  match get_doc c (List.length (posts st)) doc_id with
  | Raise e => (Raise e, st)
  | Ok _ =>
      match api_key c with
      | Raise e => (Raise e, st)
      | Ok key =>
          let request :=
            mkPost ("https://coda.io/apis/v1/docs/" ++ doc_id ++ "/pages")%string
                   [("Authorization", ("Bearer " ++ key)%string);
                    ("Content-Type", "application/json")]
                   [("name", page_name); ("subtitle", "Extracted URL Content");
                    ("body", page_content)] in
          let st' := mkCodaSt (posts st ++ [request]) (clock_reads st) in
          match requests_post c (List.length (posts st)) request with
          | Raise e => (Raise e, st')
          | Ok (status_code, id) =>
              if status_code =? 200 then
                match id with
                | Ok i => (Ok ("https://coda.io/d/" ++ doc_id ++ "/p/" ++ i)%string, st')
                | Raise e => (Raise e, st')
                end
              else (Ok ("Error: Failed to create page (Status: "
                        ++ str_of_int status_code ++ ")")%string, st')
          end
      end
  end.

(** [Formula_GenerateSubPage] (lines 143-189). *)
Definition Formula_GenerateSubPage (c : Coda) (doc_id page_name : string)
  (content : dict string) (template_type : option string) (st : CodaSt) : string * CodaSt :=
  match page_body c template_type content "" st with
  | (Raise e, st') => (("Error: " ++ exc_msg e)%string, st')
  | (Ok page_content, st') =>
      match create_page c doc_id page_name page_content st' with
      | (Ok v, st'') => (v, st'')
      | (Raise inner_e, st'') => (("Error creating page: " ++ exc_msg inner_e)%string, st'')
      end
  end.

(** Line 204: [{url: all_content[url] for url in batch_urls if url in all_content}] *)
Definition batch_content_of (all_content : dict string) (batch_urls : list string) : dict string :=
  fold_left (fun d url => match dict_get all_content url with
                          | Some v => dict_set d url v
                          | None => d
                          end) batch_urls [].

(** The loop of lines 202-209 over the start indices. *)
Fixpoint pages_loop (c : Coda) (doc_id base_page_name : string) (template_type : option string)
  (urls : list string) (all_content : dict string) (starts : list Z)
  (page_urls : list string) (st : CodaSt) : list string * CodaSt :=
  match starts with
  | [] => (page_urls, st)
  | i :: rest =>
      let batch_urls := slice urls i (i + 5) in
      let batch_content := batch_content_of all_content batch_urls in
      match batch_content with
      | [] => pages_loop c doc_id base_page_name template_type urls all_content rest page_urls st
      | _ =>
          let page_name := (base_page_name ++ " - Batch " ++ str_of_int (i / 5 + 1))%string in
          let '(page_url, st') :=
            Formula_GenerateSubPage c doc_id page_name batch_content template_type st in
          pages_loop c doc_id base_page_name template_type urls all_content rest
            (page_urls ++ [page_url]) st'
      end
  end.

(** [Formula_BatchExtractAndGenerate] (lines 191-213).  Nothing in its [try]
    block raises: [extract_content] and [Formula_GenerateSubPage] catch what
    is raised inside them. *)
Definition Formula_BatchExtractAndGenerate (w : World) (c : Coda) (doc_id : string)
  (urls : list string) (base_page_name : string)
  (content_selector : option BatchProcessor.ContentSelector)
  (code_selector exclude_selector template_type : option string) (st : CodaSt)
  : list string * CodaSt :=
  let all_content := fst (extract_content w urls content_selector code_selector exclude_selector) in
  pages_loop c doc_id base_page_name template_type urls all_content
    (range0 (Z.of_nat (List.length urls)) 5) [] st.

End WithLibs.
End CodaPack.

(* ================================================================= *)
(** ** hashlib.sha256 and str.encode *)

Module Sha256.

(** [s.encode()]: UTF-8, for code points below 256. *)
Fixpoint encode (s : string) : list Z :=
  match s with
  | EmptyString => []
  | String c rest =>
      let n := Z.of_nat (nat_of_ascii c) in
      if n <? 128 then n :: encode rest
      else Z.lor 192 (Z.shiftr n 6) :: Z.lor 128 (Z.land n 63) :: encode rest
  end.

Definition w32 (x : Z) : Z := x mod 2 ^ 32.
Definition add32 (x y : Z) : Z := w32 (x + y).
Definition rotr (n x : Z) : Z := Z.lor (Z.shiftr x n) (w32 (Z.shiftl x (32 - n))).
Definition not32 (x : Z) : Z := 2 ^ 32 - 1 - x.

Definition Ch (x y z : Z) : Z := Z.lxor (Z.land x y) (Z.land (not32 x) z).
Definition Maj (x y z : Z) : Z := Z.lxor (Z.lxor (Z.land x y) (Z.land x z)) (Z.land y z).
Definition Sigma0 (x : Z) : Z := Z.lxor (Z.lxor (rotr 2 x) (rotr 13 x)) (rotr 22 x).
Definition Sigma1 (x : Z) : Z := Z.lxor (Z.lxor (rotr 6 x) (rotr 11 x)) (rotr 25 x).
Definition sigma0 (x : Z) : Z := Z.lxor (Z.lxor (rotr 7 x) (rotr 18 x)) (Z.shiftr x 3).
Definition sigma1 (x : Z) : Z := Z.lxor (Z.lxor (rotr 17 x) (rotr 19 x)) (Z.shiftr x 10).

(** The round constants are the first 32 bits of the fractional parts of the
    cube roots of the first 64 primes; the initial state, of the square roots
    of the first 8. *)
Definition is_prime (n : nat) : bool :=
  (1 <? n)%nat && forallb (fun d => negb (n mod d =? 0)%nat) (seq 2 (n - 2)).

Definition primes : list Z :=
  Eval vm_compute in map Z.of_nat (filter is_prime (seq 2 310)).

(** The integer cube root, bit by bit from bit [b - 1] down. *)
Fixpoint icbrt (b : nat) (n r : Z) : Z :=
  match b with
  | O => r
  | S b' =>
      let r' := r + 2 ^ Z.of_nat b' in
      icbrt b' n (if r' * r' * r' <=? n then r' else r)
  end.

Definition K : list Z :=
  Eval vm_compute in map (fun p => w32 (icbrt 40 (p * 2 ^ 96) 0)) primes.

Definition H0 : list Z :=
  Eval vm_compute in map (fun p => w32 (Z.sqrt (p * 2 ^ 64))) (firstn 8 primes).

(** Big-endian bytes of [x], [n] of them. *)
Fixpoint be_bytes (n : nat) (x : Z) : list Z :=
  match n with
  | O => []
  | S n' => Z.shiftr x (8 * Z.of_nat n') mod 256 :: be_bytes n' x
  end.

Definition pad (msg : list Z) : list Z :=
  let l := Z.of_nat (List.length msg) in
  let zeros := Z.to_nat ((55 - l) mod 64) in
  msg ++ [128] ++ repeat 0 zeros ++ be_bytes 8 (8 * l).

Fixpoint words (n : nat) (bytes : list Z) : list Z :=
  match n with
  | O => []
  | S n' =>
      match bytes with
      | a :: b :: c :: d :: rest =>
          (a * 2 ^ 24 + b * 2 ^ 16 + c * 2 ^ 8 + d) :: words n' rest
      | _ => []
      end
  end.

(** The message schedule, most recent word first. *)
Fixpoint schedule (n : nat) (rev_w : list Z) : list Z :=
  match n with
  | O => rev_w
  | S n' =>
      let w := add32 (add32 (sigma1 (nth 1 rev_w 0)) (nth 6 rev_w 0))
                     (add32 (sigma0 (nth 14 rev_w 0)) (nth 15 rev_w 0)) in
      schedule n' (w :: rev_w)
  end.

Definition round (s : list Z) (kw : Z * Z) : list Z :=
  match s with
  | [a; b; c; d; e; f; g; h] =>
      let t1 := add32 (add32 (add32 h (Sigma1 e)) (add32 (Ch e f g) (fst kw))) (snd kw) in
      let t2 := add32 (Sigma0 a) (Maj a b c) in
      [add32 t1 t2; a; b; c; add32 d t1; e; f; g]
  | _ => s
  end.

Definition compress (s : list Z) (block : list Z) : list Z :=
  let w := rev (schedule 48 (rev (words 16 block))) in
  map (fun xy => add32 (fst xy) (snd xy)) (combine s (fold_left round (combine K w) s)).

Fixpoint blocks (n : nat) (s : list Z) (bytes : list Z) : list Z :=
  match n with
  | O => s
  | S n' =>
      match bytes with
      | [] => s
      | _ => blocks n' (compress s (firstn 64 bytes)) (skipn 64 bytes)
      end
  end.

Definition digest (msg : list Z) : list Z :=
  let p := pad msg in
  flat_map (be_bytes 4) (blocks (List.length p) H0 p).

Definition hex_digit (n : Z) : ascii :=
  ascii_of_nat (Z.to_nat (if n <? 10 then 48 + n else 87 + n)).

Fixpoint hex (bytes : list Z) : string :=
  match bytes with
  | [] => EmptyString
  | b :: rest => String (hex_digit (b / 16)) (String (hex_digit (b mod 16)) (hex rest))
  end.

(** [hashlib.sha256(data).hexdigest()] *)
Definition hexdigest (data : list Z) : string := hex (digest data).

End Sha256.


(* ================================================================= *)
(** ** sync_manager.py *)

Module SyncManager.

(** Modelled from the spec: the relation [sync_configurations], whose
    [CREATE TABLE] is not part of the sources.  The fields are those of
    SyncConfig in section 3 of the specification; the queries of
    sync_manager.py and main.py use the same column names.  A SQL NULL is
    [None]; a timestamp is a number of microseconds. *)
Record SyncConfig := mkConfig {
  cfg_id : Z;
  cfg_doc_id : string;
  cfg_base_page_name : string;
  cfg_sync_interval : Z;
  cfg_content_selector : option string;
  cfg_code_selector : option string;
  cfg_exclude_selector : option string;
  cfg_active : bool;
  cfg_last_sync : option Z
}.

(** Modelled from the spec: the relation [tracked_urls] (TrackedURL in
    section 3), with the unique key [(config_id, url)] that
    [ON CONFLICT (config_id, url)] of [add_urls_to_config] refers to. *)
Record TrackedURL := mkTracked {
  tu_config_id : Z;
  tu_url : string;
  tu_last_content_hash : option string;
  tu_last_sync : option Z
}.

(** Modelled from the spec: the relation [sync_history] (SyncHistoryRecord
    in section 3).  The [INSERT] statements give no timestamp; the column
    takes the time of the insertion. *)
Record SyncHistoryRecord := mkHistory {
  h_config_id : Z;
  h_status : string;
  h_message : string;
  h_urls_processed : Z;
  h_urls_failed : Z;
  h_timestamp : Z
}.

(** The database: the three relations, rows in insertion order. *)
Record DB := mkDB {
  sync_configurations : list SyncConfig;
  tracked_urls : list TrackedURL;
  sync_history : list SyncHistoryRecord
}.

(** One call of [Formula_GenerateSubPage(doc_id, page_name, content)]. *)
Record SinkCall := mkSink {
  sink_doc_id : string;
  sink_page_name : string;
  sink_content : dict string
}.

(** The world during one scheduler tick: the network, the value of [NOW()]
    and of [datetime.now()], and which database operations fail
    ([db_fault n] is the exception raised by the [n]-th operation). *)
Record Tick := mkTick {
  net : World;
  now : Z;
  db_fault : nat -> option Exc
}.

(** The manager and what it acts on: the committed database, its
    [self.batch_processor] (with the events of its runs), the number of
    database operations issued so far, and the calls made to the sink. *)
Record St := mkSt {
  db : DB;
  pipeline : BatchProcessor.St;
  ops : nat;
  sink_calls : list SinkCall
}.

Definition init (d : DB) : St :=
  mkSt d (BatchProcessor.mkSt BatchProcessor.default []) O [].

(** Line 57. *)
Definition _compute_content_hash (content : string) : string :=
  Sha256.hexdigest (Sha256.encode content).

Definition minutes (n : Z) : Z := n * 60000000.

(** The [WHERE] clause of lines 161-166. *)
Definition is_due (now : Z) (c : SyncConfig) : bool :=
  cfg_active c
  && match cfg_last_sync c with
     | None => true
     | Some last => minutes (cfg_sync_interval c) <? now - last
     end.

(** [SELECT * FROM sync_configurations WHERE ...] *)
Definition select_due (now : Z) (d : DB) : list SyncConfig :=
  filter (is_due now) (sync_configurations d).

(** [SELECT url, last_content_hash FROM tracked_urls WHERE config_id = %s] *)
Definition select_tracked (d : DB) (cid : Z) : list TrackedURL :=
  filter (fun row => tu_config_id row =? cid) (tracked_urls d).

(** [UPDATE tracked_urls SET last_content_hash = %s, last_sync = NOW()
     WHERE config_id = %s AND url = %s] *)
Definition update_tracked (d : DB) (new_hash : string) (t : Z) (cid : Z) (url : string) : DB :=
  mkDB (sync_configurations d)
       (map (fun row =>
               if (tu_config_id row =? cid) && (tu_url row =? url)%string
               then mkTracked (tu_config_id row) (tu_url row) (Some new_hash) (Some t)
               else row)
            (tracked_urls d))
       (sync_history d).

(** [INSERT INTO sync_history ...] *)
Definition insert_history (d : DB) (r : SyncHistoryRecord) : DB :=
  mkDB (sync_configurations d) (tracked_urls d) (sync_history d ++ [r]).

(** [UPDATE sync_configurations SET last_sync = NOW() WHERE id = %s] *)
Definition update_last_sync (d : DB) (t : Z) (cid : Z) : DB :=
  mkDB (map (fun c =>
               if cfg_id c =? cid
               then mkConfig (cfg_id c) (cfg_doc_id c) (cfg_base_page_name c)
                             (cfg_sync_interval c) (cfg_content_selector c)
                             (cfg_code_selector c) (cfg_exclude_selector c)
                             (cfg_active c) (Some t)
               else c)
            (sync_configurations d))
       (tracked_urls d) (sync_history d).

(** [next((row['last_content_hash'] for row in tracked_urls if row['url'] == url), None)] *)
Definition old_hash_of (tracked : list TrackedURL) (url : string) : option string :=
  match find (fun row => (tu_url row =? url)%string) tracked with
  | Some row => tu_last_content_hash row
  | None => None
  end.

(** [new_hash != old_hash] *)
Definition hash_differs (new_hash : string) (old_hash : option string) : bool :=
  match old_hash with
  | Some h => negb (new_hash =? h)%string
  | None => true
  end.

Definition is_error (content : string) : bool := startswith content "Error:".

(** *** State and exceptions *)

Definition M (A : Type) : Type := St -> Result A * St.

Definition ret {A} (a : A) : M A := fun s => (Ok a, s).

Definition mbind {A B} (m : M A) (k : A -> M B) : M B :=
  fun s =>
    match m s with
    | (Ok a, s') => k a s'
    | (Raise e, s') => (Raise e, s')
    end.

Notation "x <~ c ;; k" := (mbind c (fun x => k))
  (at level 61, c at next level, right associativity).

(** One operation on a database connection: it fails when the world says so. *)
Definition db_op (tk : Tick) : M unit :=
  fun s =>
    let s' := mkSt (db s) (pipeline s) (S (ops s)) (sink_calls s) in
    match db_fault tk (ops s) with
    | Some e => (Raise e, s')
    | None => (Ok tt, s')
    end.

Definition read_db : M DB := fun s => (Ok (db s), s).

(** [conn.commit()]: the work of the transaction becomes the database. *)
Definition commit (tk : Tick) (work : DB) : M unit :=
  _ <~ db_op tk ;;
  fun s => (Ok tt, mkSt work (pipeline s) (ops s) (sink_calls s)).

(** Modelled from the spec: the row that
    [INSERT INTO tracked_urls (config_id, url) VALUES (%s, %s)
     ON CONFLICT (config_id, url) DO NOTHING]
    adds.  The statement names two columns; the other two, optional in
    section 3 of the specification, are NULL in a new row.  Nothing is added
    when the pair is there already. *)
Definition insert_tracked (d : DB) (config_id : Z) (url : string) : DB :=
  if existsb (fun row => (tu_config_id row =? config_id) && (tu_url row =? url)%string)
             (tracked_urls d)
  then d
  else mkDB (sync_configurations d)
            (tracked_urls d ++ [mkTracked config_id url None None])
            (sync_history d).

(** The loop of lines 47-52 on the open transaction [work]. *)
Fixpoint add_urls_loop (tk : Tick) (config_id : Z) (urls : list string) (work : DB) : M DB :=
  match urls with
  | [] => ret work
  | url :: rest =>
      _ <~ db_op tk ;;
      add_urls_loop tk config_id rest (insert_tracked work config_id url)
  end.

(** [add_urls_to_config] (lines 43-54): connect, insert, commit.  An
    exception leaves the [with conn] block, which rolls the transaction back:
    [work] is dropped. *)
Definition add_urls_to_config (tk : Tick) (config_id : Z) (urls : list string) : M unit :=
  _ <~ db_op tk ;;
  work <~ read_db ;;
  work <~ add_urls_loop tk config_id urls work ;;
  commit tk work.

Section WithLibs.
Context {L : Libs}.

(** Lines 110-116: the call is made; what it returns or raises is only logged. *)
Definition publish (tk : Tick) (config : SyncConfig) (url content : string) : M unit :=
  fun s =>
    let call := mkSink (cfg_doc_id config)
                       (cfg_base_page_name config ++ " - " ++ strftime (now tk))%string
                       [(url, content)] in
    (Ok tt, mkSt (db s) (pipeline s) (ops s) (sink_calls s ++ [call])).

(** Lines 78-83: [await self.batch_processor.process_urls(...)]. *)
Definition run_pipeline (tk : Tick) (config : SyncConfig) (urls : list string)
  : M (dict string) :=
  fun s =>
    let kw := BatchProcessor.mkKwargs
                (option_map BatchProcessor.SelStr (cfg_content_selector config))
                (cfg_code_selector config) (cfg_exclude_selector config) None None in
    let '(r, p) := BatchProcessor.process_urls (net tk) (pipeline s) urls kw in
    (r, mkSt (db s) p (ops s) (sink_calls s)).

(** Lines 91-118: the loop over [results.items()].  [work] is the state of
    the open transaction. *)
Fixpoint check_changes (tk : Tick) (config : SyncConfig) (tracked : list TrackedURL)
  (results : list (string * string)) (work : DB) (urls_changed : Z) : M (DB * Z) :=
  match results with
  | [] => ret (work, urls_changed)
  | (url, content) :: rest =>
      if negb (is_error content) then
        let new_hash := _compute_content_hash content in
        let old_hash := old_hash_of tracked url in
        if hash_differs new_hash old_hash then
          _ <~ db_op tk ;;
          _ <~ publish tk config url content ;;
          check_changes tk config tracked rest
            (update_tracked work new_hash (now tk) (cfg_id config) url)
            (urls_changed + 1)
        else check_changes tk config tracked rest work urls_changed
      else check_changes tk config tracked rest work urls_changed
  end.

Definition status_message (urls_processed urls_changed urls_failed : Z) : string :=
  ("Processed " ++ str_of_int urls_processed ++ " URLs: "
   ++ str_of_int urls_changed ++ " changed, " ++ str_of_int urls_failed ++ " failed")%string.

(** The [try] block of [_process_config] (lines 62-141).  Leaving the
    [with conn] block by [return] commits; leaving it by an exception rolls
    back, which here is: [work] is dropped. *)
Definition try_block (tk : Tick) (config : SyncConfig) : M unit :=
  _ <~ db_op tk ;;
  _ <~ db_op tk ;;
  work <~ read_db ;;
  let tracked_urls := select_tracked work (cfg_id config) in
  match tracked_urls with
  | [] => commit tk work
  | _ =>
      let urls_to_process := map tu_url tracked_urls in
      results <~ run_pipeline tk config urls_to_process ;;
      let urls_processed := Z.of_nat (List.length results) in
      let urls_failed := Z.of_nat (List.length (filter is_error (values results))) in
      r <~ check_changes tk config tracked_urls results work 0 ;;
      let '(work, urls_changed) := r in
      _ <~ db_op tk ;;
      let work := insert_history work
                    (mkHistory (cfg_id config) "completed"
                               (status_message urls_processed urls_changed urls_failed)
                               urls_processed urls_failed (now tk)) in
      _ <~ db_op tk ;;
      let work := update_last_sync work (now tk) (cfg_id config) in
      commit tk work
  end.

(** The [except Exception as e] block (lines 143-152). *)
Definition except_block (tk : Tick) (config : SyncConfig) (e : Exc) : M unit :=
  _ <~ db_op tk ;;
  _ <~ db_op tk ;;
  work <~ read_db ;;
  commit tk (insert_history work
               (mkHistory (cfg_id config) "error" (exc_msg e) 0 0 (now tk))).

(** Lines 59-152. *)
Definition _process_config (tk : Tick) (config : SyncConfig) : M unit :=
  fun s =>
    match try_block tk config s with
    | (Ok tt, s') => (Ok tt, s')
    | (Raise e, s') => except_block tk config e s'
    end.

(** The passes of the selected configurations, each run to its end in the
    order of selection; a pass that raises does not stop the others. *)
Fixpoint gather (tk : Tick) (configs : list SyncConfig) (s : St) : St :=
  match configs with
  | [] => s
  | config :: rest => gather tk rest (snd (_process_config tk config s))
  end.

(** Lines 154-180.  Every exception is caught and logged. *)
Definition run_sync_cycle (tk : Tick) (s : St) : St :=
  match (_ <~ db_op tk ;; _ <~ db_op tk ;; read_db) s with
  | (Ok d, s') => gather tk (select_due (now tk) d) s'
  | (Raise _, s') => s'
  end.

(** [start_sync_service] (lines 182-194) never returns: the loop runs a
    cycle, sleeps and starts again, and a cycle lets no exception out.
    [ticks] are the worlds of its first iterations, in order; the result is
    the state after them. *)
Definition start_sync_service (ticks : list Tick) (s : St) : St :=
  fold_left (fun s tk => run_sync_cycle tk s) ticks s.

End WithLibs.
End SyncManager.

(* ================================================================= *)
(** ** Vocabulary of the properties *)

Module Obs.
Import BatchProcessor.

(** The URLs whose task ended, in the order of their ends. *)
Definition finishes (tr : list Event) : list string :=
  flat_map (fun e => match e with EvFinish u => [u] | _ => [] end) tr.

(** The requests sent, in order. *)
Definition requests (tr : list Event) : list Request :=
  flat_map (fun e => match e with EvRequest r => [r] | _ => [] end) tr.

Fixpoint remove_first (u : string) (l : list string) : list string :=
  match l with
  | [] => []
  | x :: rest => if (x =? u)%string then rest else x :: remove_first u rest
  end.

(** The fetches in flight and the largest number of them so far: a fetch is
    in flight from its request to the end of its task. *)
Definition flight_step (s : list string * nat) (e : Event) : list string * nat :=
  match e with
  | EvRequest r => (req_url r :: fst s, Nat.max (snd s) (S (List.length (fst s))))
  | EvFinish u => (remove_first u (fst s), snd s)
  | EvStart _ => s
  end.

(** The largest number of fetches in flight at one time during [tr]. *)
Definition in_flight_peak (tr : list Event) : nat :=
  snd (fold_left flight_step tr ([], O)).

(** The dictionary obtained from [d] by assigning [d[u] = f u] for each [u]
    of [urls] in turn. *)
Definition assigned (f : string -> string) (urls : list string) (d : dict string)
  : dict string :=
  fold_left (fun acc u => dict_set acc u (f u)) urls d.

Definition consistent (f : string -> string) (d : dict string) : Prop :=
  forall k v, In (k, v) d -> v = f k.

(** From [st] to [st'] the tasks of the URLs [fin] ended, each counted once
    in [processed_urls], and requests were sent for [req], in that order;
    nothing else of the processor changed but [current_batch]. *)
Definition ran (fin req : list string) (st st' : St) : Prop :=
  batch_size (self st') = batch_size (self st)
  /\ max_concurrent (self st') = max_concurrent (self st)
  /\ (exists pr pr',
         progress (self st) = Some pr /\ progress (self st') = Some pr'
         /\ processed_urls pr' = processed_urls pr + Z.of_nat (List.length fin)
         /\ total_urls pr' = total_urls pr
         /\ failed_urls pr' = failed_urls pr
         /\ total_batches pr' = total_batches pr)
  /\ exists tr,
       trace st' = trace st ++ tr
       /\ Permutation (finishes tr) fin
       /\ requests tr = map request req.

(** A selector is given and the configured content and code selectors match
    nothing in the document (the exclude selector may match: what it selects
    is not content). *)
Definition selects_nothing {L : Libs} (html : string) (kw : Kwargs) : Prop :=
  truthy_sel (content_selector kw) || truthy (code_selector kw)
  || truthy (exclude_selector kw) = true
  /\ (truthy_sel (content_selector kw) = true ->
      forall selector, In selector (selectors_of (content_selector kw)) ->
                       soup_select (BeautifulSoup html) selector = Ok [])
  /\ (truthy (code_selector kw) = true ->
      soup_select (BeautifulSoup html) (opt_str (code_selector kw)) = Ok [])
  /\ (truthy (exclude_selector kw) = true ->
      exists excluded,
        soup_select (BeautifulSoup html) (opt_str (exclude_selector kw)) = Ok excluded).

(** No selector is given and the generic extractor returns nothing. *)
Definition extracts_nothing {L : Libs} (html : string) (kw : Kwargs) : Prop :=
  truthy_sel (content_selector kw) || truthy (code_selector kw)
  || truthy (exclude_selector kw) = false
  /\ (trafilatura_extract html = Ok None \/ trafilatura_extract html = Ok (Some "")).

(** [self.progress] is set. *)
Definition live (st : St) : Prop := exists pr, progress (self st) = Some pr.

(** The same processor and events with another [max_concurrent]. *)
Definition set_max (m : Z) (st : St) : St :=
  mkSt (mk (batch_size (self st)) m (progress (self st))) (trace st).

(** [x] occurs in [y]. *)
Definition occurs (x y : string) : Prop := exists a b, y = (a ++ x ++ b)%string.



(** Section 4.3 of the specification, word for word: a URL is changed iff
    [fingerprint(new_text) != stored.last_content_hash], no prior hash
    counting as changed. *)
Definition spec_changed (stored : option string) (new_text : string) : Prop :=
  stored <> Some (SyncManager._compute_content_hash new_text).

(** Section 4.4 of the specification, word for word: a config is Due iff
    [active = true] and ([last_sync] is null or
    [now - last_sync > sync_interval minutes]). *)
Definition spec_due (now : Z) (c : SyncManager.SyncConfig) : Prop :=
  SyncManager.cfg_active c = true
  /\ (SyncManager.cfg_last_sync c = None
      \/ exists last, SyncManager.cfg_last_sync c = Some last
                      /\ now - last > SyncManager.minutes (SyncManager.cfg_sync_interval c)).

(** The sink calls made for [url]. *)
Definition calls_for (url : string) (calls : list SyncManager.SinkCall)
  : list SyncManager.SinkCall :=
  filter (fun c => match SyncManager.sink_content c with
                   | [(u, _)] => (u =? url)%string
                   | _ => false
                   end) calls.

End Obs.

(** The effect of the loop of [_process_config] in closed form. *)
Module PassObs.
Import SyncManager.

(** The entry [(url, content)] of the results is one the loop acts on. *)
Definition changed_b (tracked : list TrackedURL) (uc : string * string) : bool :=
  negb (is_error (snd uc))
  && hash_differs (_compute_content_hash (snd uc)) (old_hash_of tracked (fst uc)).

Definition changed_entries (tracked : list TrackedURL) (results : dict string)
  : list (string * string) :=
  filter (changed_b tracked) results.

(** The row as the loop leaves it, given the entry of its URL. *)
Definition persist_row (tk : Tick) (cid : Z) (uc : string * string) (row : TrackedURL)
  : TrackedURL :=
  if (tu_config_id row =? cid) && (tu_url row =? fst uc)%string
  then mkTracked (tu_config_id row) (tu_url row)
                 (Some (_compute_content_hash (snd uc))) (Some (now tk))
  else row.

Definition persist_all (tk : Tick) (cid : Z) (changed : list (string * string)) (work : DB)
  : DB :=
  fold_left (fun d uc => update_tracked d (_compute_content_hash (snd uc)) (now tk) cid (fst uc))
            changed work.

Definition sink_call_of {L : Libs} (tk : Tick) (config : SyncConfig) (uc : string * string)
  : SinkCall :=
  mkSink (cfg_doc_id config)
         (cfg_base_page_name config ++ " - " ++ strftime (now tk))%string
         [(fst uc, snd uc)].

Definition persist_rows (tk : Tick) (cid : Z) (changed : list (string * string))
  (row : TrackedURL) : TrackedURL :=
  fold_left (fun r uc => persist_row tk cid uc r) changed row.

(** What a pass that completes does with one tracked row, given the results
    of the pipeline and the sink calls [new_calls] of the pass: either the
    content of its URL is not an error and is changed in the sense of the
    specification, the row then holds the new fingerprint and the time of the
    pass and the sink was called once for the URL, with that content; or the
    row is as it was and the sink was not called for the URL. *)
Definition row_outcome {L : Libs} (tk : Tick) (config : SyncConfig)
  (results : dict string) (new_calls : list SinkCall) (row row' : TrackedURL) : Prop :=
  exists content,
    dict_get results (tu_url row) = Some content
    /\ ((is_error content = false
         /\ Obs.spec_changed (tu_last_content_hash row) content
         /\ row' = mkTracked (tu_config_id row) (tu_url row)
                             (Some (_compute_content_hash content)) (Some (now tk))
         /\ Obs.calls_for (tu_url row) new_calls
            = [sink_call_of tk config (tu_url row, content)])
        \/ ((is_error content = true
             \/ ~ Obs.spec_changed (tu_last_content_hash row) content)
            /\ row' = row
            /\ Obs.calls_for (tu_url row) new_calls = [])).

(** The keyword arguments a pass gives to the pipeline. *)
Definition kwargs_of (config : SyncConfig) : BatchProcessor.Kwargs :=
  BatchProcessor.mkKwargs
    (option_map BatchProcessor.SelStr (cfg_content_selector config))
    (cfg_code_selector config) (cfg_exclude_selector config) None None.

(** A computation that leaves the committed database as it was; one that
    does so whenever it raises. *)
Definition keeps_db {A} (m : M A) : Prop :=
  forall s r s', m s = (r, s') -> db s' = db s.

Definition keeps_db_on_raise {A} (m : M A) : Prop :=
  forall s e s', m s = (Raise e, s') -> db s' = db s.

(** The database operations [n], [n+1], ... of the tick do not fail. *)
Definition no_fault_from (tk : Tick) (n : nat) : Prop :=
  forall k, (n <= k)%nat -> db_fault tk k = None.

End PassObs.

(* ================================================================= *)
(** ** Stand-ins used to run the model on concrete inputs *)

Module Fixture.

(** A document is its text; the selector [body] selects all of it, [div[] is
    not a selector, any other selector selects nothing. *)
#[local] Instance libs : Libs := {|
  Soup := string;
  Elem := string;
  BeautifulSoup := fun markup => markup;
  soup_select := fun soup selector =>
    if (selector =? "div[")%string
    then Raise (mkExc false "Malformed attribute selector at position 3")
    else if (selector =? "body")%string then Ok [soup] else Ok [];
  get_text := fun _ elem _ => strip elem;
  decompose := fun soup _ => soup;
  find_all_names := fun _ _ => [];
  find_all_class_code := fun _ => [];
  stripped_strings := fun soup => match strip soup with EmptyString => [] | t => [t] end;
  trafilatura_extract := fun downloaded =>
    Ok (match strip downloaded with EmptyString => None | t => Some t end);
  urlparse := fun url =>
    if startswith url "https://" then Ok ("https", substring 8 (String.length url) url)
    else if startswith url "http://" then Ok ("http", substring 7 (String.length url) url)
    else Ok ("", "");
  strftime := str_of_int;
  validation_error_str := fun m => ("1 validation error: " ++ m)%string
|}.

(** A network serving [pages]: status and body by URL; an unknown host cannot
    be reached; a URL without scheme is refused before anything is sent. *)
Definition site (pages : dict (Z * string)) : World :=
  mkWorld
    (fun r =>
       match dict_get pages (req_url r) with
       | Some (status, body) => Response status (Ok body)
       | None =>
           if startswith (req_url r) "http"
           then GetRaises true (mkExc true "Cannot connect to host")
           else GetRaises false (mkExc true (req_url r))
       end)
    (fun url =>
       match dict_get pages url with
       | Some (200, body) => Ok (Some body)
       | _ => Ok None
       end)
    (fun n => n).

Definition no_fault : nat -> option Exc := fun _ => None.

(** The [n]-th database operation fails with message [msg]. *)
Definition fault_at (n : nat) (msg : string) : nat -> option Exc :=
  fun k => if (k =? n)%nat then Some (mkExc false msg) else None.

(** One configuration with two tracked URLs: the first never synced, the
    second synced with the text the site still serves. *)
Definition config1 : SyncManager.SyncConfig :=
  SyncManager.mkConfig 1 "doc-1" "Pages" 30 None None None true None.

Definition pages1 : dict (Z * string) :=
  [("https://a.example", (200, "text of a")); ("https://b.example", (200, "text of b"))].

Definition db1 : SyncManager.DB :=
  SyncManager.mkDB
    [config1]
    [SyncManager.mkTracked 1 "https://a.example" None None;
     SyncManager.mkTracked 1 "https://b.example"
       (Some (SyncManager._compute_content_hash "text of b")) (Some 5)]
    [].

Definition tick1 : SyncManager.Tick := SyncManager.mkTick (site pages1) 1000 no_fault.

(** A blank page, a page behind a login, a short page. *)
Definition pages2 : dict (Z * string) :=
  [("https://blank.example", (200, "   "));
   ("https://private.example", (403, "Forbidden"));
   ("https://short.example", (200, "hello"))].

(** A configuration whose only tracked URL is the blank page, never synced. *)
Definition config2 : SyncManager.SyncConfig :=
  SyncManager.mkConfig 2 "doc-2" "Blank" 15 None None None true None.

Definition db2 : SyncManager.DB :=
  SyncManager.mkDB [config2] [SyncManager.mkTracked 2 "https://blank.example" None None] [].

Definition tick2 : SyncManager.Tick := SyncManager.mkTick (site pages2) 1000 no_fault.

Definition ten_urls : list string :=
  map (fun k => ("https://site.example/" ++ str_of_int (Z.of_nat k))%string) (seq 0 10).

Definition ten_pages : dict (Z * string) :=
  map (fun u => (u, (200, "some text of the page"))) ten_urls.

End Fixture.

(* ================================================================= *)
(** ** Vocabulary of the properties of the other functions *)

(** Classes of characters. *)
Module StrObs.

(** Every character of [s] satisfies [p]. *)
Fixpoint all_chars (p : ascii -> bool) (s : string) : bool :=
  match s with
  | EmptyString => true
  | String c rest => p c && all_chars p rest
  end.

Definition no_newline (s : string) : bool :=
  all_chars (fun c => negb (Ascii.eqb c Str.newline)) s.

(** A printable ASCII character. *)
Definition printable (c : ascii) : bool :=
  ((32 <=? nat_of_ascii c) && (nat_of_ascii c <=? 126))%nat.



(** One of the characters 0-9 and a-f. *)
Definition lower_hex (c : ascii) : bool :=
  let n := nat_of_ascii c in
  (((48 <=? n) && (n <=? 57)) || ((97 <=? n) && (n <=? 102)))%nat.

End StrObs.

(** What [_generate_toc] writes. *)
Module TocObs.
Import TemplateManager.

(** The headings among [lines], in order: groups 1 and 2 of each match. *)
Definition headings (lines : list string) : list (string * string) :=
  flat_map (fun line => match heading_pattern_match line with
                        | Some m => [m]
                        | None => []
                        end) lines.

Definition heading_id (k : Z) : string := ("heading-" ++ str_of_int k)%string.

(** The entry of the table of contents for the heading [m] numbered [k]. *)
Definition toc_entry (k : Z) (m : string * string) : string :=
  (Str.times "  " (Z.to_nat (len (fst m) - 1)) ++ "- [" ++ strip (snd m) ++ "](#"
   ++ heading_id k ++ ")")%string.

(** The line written for the heading [m] numbered [k]. *)
Definition anchored (k : Z) (m : string * string) : string :=
  (fst m ++ " " ++ strip (snd m) ++ " <a id=" ++ dq ++ heading_id k ++ dq ++ "></a>")%string.

(** The lines as [_generate_toc] writes them, the headings numbered from [k]. *)
Fixpoint rewritten (k : Z) (lines : list string) : list string :=
  match lines with
  | [] => []
  | line :: rest =>
      match heading_pattern_match line with
      | Some m => anchored k m :: rewritten (k + 1) rest
      | None => line :: rewritten k rest
      end
  end.

(** The entries of the table of contents for the headings [hs] numbered from [k]. *)
Fixpoint entries (k : Z) (hs : list (string * string)) : list string :=
  match hs with
  | [] => []
  | m :: rest => toc_entry k m :: entries (k + 1) rest
  end.

(** The keyword arguments [format_template] gives to [str.format]. *)
Definition fields (title processed_content url timestamp toc reading_time : string) : dict string :=
  [("title", title); ("content", processed_content); ("url", url);
   ("timestamp", timestamp); ("toc", toc); ("reading_time", reading_time)].

End TocObs.

Module CodaObs.
Import CodaPack.

(** A character that an accepted selector can hold. *)
Definition selector_char (c : ascii) : bool := basic_char c || isspace c || is_gt c.

(** The value [extract_content] gives to one URL. *)
Definition url_value {L : Libs} (w : World) (content_selector : list string)
  (code_selector exclude_selector : option string) (url : string) : string :=
  match fst (extract_one_try w url content_selector code_selector exclude_selector) with
  | Ok v => v
  | Raise e => ("Error: " ++ exc_msg e)%string
  end.

(** The arguments of the post that creates the page [page_name] with [body]. *)
Definition page_post (doc_id key page_name body : string) : PostRequest :=
  mkPost ("https://coda.io/apis/v1/docs/" ++ doc_id ++ "/pages")%string
         [("Authorization", ("Bearer " ++ key)%string); ("Content-Type", "application/json")]
         [("name", page_name); ("subtitle", "Extracted URL Content"); ("body", body)].

End CodaObs.

Module BatchObs.
Import BatchProcessor.


(** The keyword arguments without the exclude selector. *)
Definition without_exclude (kw : Kwargs) : Kwargs :=
  mkKwargs (content_selector kw) (code_selector kw) None (search_query kw) (content_filters kw).

End BatchObs.

Module MainObs.
Import Main.

(** One record of the JSONL file, without the newline that ends it. *)
Definition jsonl_record (uc : string * string) : string :=
  let code_blocks := code_blocks_of (snd uc) in
  ("{" ++ Json.str "url" ++ ": " ++ Json.str (fst uc) ++ ", "
   ++ Json.str "code_blocks" ++ ": " ++ Json.str_list code_blocks ++ ", "
   ++ Json.str "total_blocks" ++ ": " ++ str_of_int (Z.of_nat (List.length code_blocks))
   ++ "}")%string.

End MainObs.

(** What the operations of the manager may do to the database. *)
Module StoreObs.
Import SyncManager.

(** The database after the inserts of [add_urls_to_config], in order. *)
Definition add_all (d : DB) (config_id : Z) (urls : list string) : DB :=
  fold_left (fun work url => insert_tracked work config_id url) urls d.

(** The pair [(config_id, url)] has a row. *)
Definition is_tracked (d : DB) (config_id : Z) (url : string) : bool :=
  existsb (fun row => (tu_config_id row =? config_id) && (tu_url row =? url)%string)
          (tracked_urls d).

(** The key of a row of [tracked_urls]. *)
Definition tracked_key (row : TrackedURL) : Z * string := (tu_config_id row, tu_url row).

(** The configuration [c] with another [last_sync]. *)
Definition set_last_sync (c : SyncConfig) (t : option Z) : SyncConfig :=
  mkConfig (cfg_id c) (cfg_doc_id c) (cfg_base_page_name c) (cfg_sync_interval c)
           (cfg_content_selector c) (cfg_code_selector c) (cfg_exclude_selector c)
           (cfg_active c) t.

(** What a pass of the configuration [cid] may do to a row: its key stays, and
    the row of another configuration stays as it is. *)
Definition row_frame (cid : Z) (row row' : TrackedURL) : Prop :=
  tu_config_id row' = tu_config_id row /\ tu_url row' = tu_url row
  /\ (tu_config_id row <> cid -> row' = row).

(** What it may do to a configuration: nothing, or set [last_sync] when the
    configuration is [cid]. *)
Definition config_frame (cid : Z) (c c' : SyncConfig) : Prop :=
  c' = c \/ (cfg_id c = cid /\ exists t, c' = set_last_sync c (Some t)).

(** What it may do to the database: rows and configurations stay in place,
    changed as above; history records of [cid] are appended. *)
Definition pass_frame (cid : Z) (d d' : DB) : Prop :=
  Forall2 (row_frame cid) (tracked_urls d) (tracked_urls d')
  /\ Forall2 (config_frame cid) (sync_configurations d) (sync_configurations d')
  /\ exists added,
       sync_history d' = (sync_history d ++ added)%list
       /\ Forall (fun r => h_config_id r = cid) added.

(** Nothing of the configuration [cid] differs between [d] and [d']: its
    rows, the configuration itself, and its history records. *)
Definition untouched (cid : Z) (d d' : DB) : Prop :=
  Forall2 (fun row row' => tu_config_id row' = tu_config_id row
                           /\ (tu_config_id row = cid -> row' = row))
          (tracked_urls d) (tracked_urls d')
  /\ Forall2 (fun c c' => cfg_id c' = cfg_id c /\ (cfg_id c = cid -> c' = c))
             (sync_configurations d) (sync_configurations d')
  /\ exists added,
       sync_history d' = (sync_history d ++ added)%list
       /\ Forall (fun r => h_config_id r <> cid) added.

End StoreObs.

(** Further inputs for the properties of the other functions. *)
Module Samples.

(** A configuration without tracked URLs. *)
Definition empty_config : SyncManager.SyncConfig :=
  SyncManager.mkConfig 7 "doc-7" "Empty" 30 None None None true None.



(** Selectors: the whole document as content, [nav] excluded. *)
Definition body_without_nav : BatchProcessor.Kwargs :=
  BatchProcessor.mkKwargs (Some (BatchProcessor.SelStr "body")) None (Some "nav") None None.

(** A configuration that is not active, with one tracked URL, beside
    [Fixture.config1]. *)
Definition paused_config : SyncManager.SyncConfig :=
  SyncManager.mkConfig 9 "doc-9" "Paused" 1 None None None false None.

Definition db_paused : SyncManager.DB :=
  SyncManager.mkDB
    [Fixture.config1; paused_config]
    [SyncManager.mkTracked 1 "https://a.example" None None;
     SyncManager.mkTracked 9 "https://b.example" None None]
    [].

End Samples.

(* ================================================================= *)
(** * Properties *)

(** ** Strings and dictionaries *)

Section PyFacts.

Lemma prefix_split (x y : string) :
  String.prefix x y = true <-> exists b, y = (x ++ b)%string.
Proof.
  revert y; induction x as [|c x IH]; intros y; simpl.
  - split; [intros _; now exists y | now destruct y].
  - destruct y as [|d y]; simpl.
    + split; [discriminate | intros [b Hb]; discriminate].
    + destruct (Ascii.ascii_dec c d) as [->|Hcd].
      * rewrite IH. split; intros [b Hb]; exists b; [now rewrite Hb | now inversion Hb].
      * split; [discriminate | intros [b Hb]; inversion Hb; congruence].
Qed.

Lemma is_substring_unfold (x y : string) :
  is_substring x y =
  if String.prefix x y then true
  else match y with
       | EmptyString => false
       | String _ rest => is_substring x rest
       end.
Proof. destruct y; reflexivity. Qed.

Lemma is_substring_occurs (x y : string) :
  is_substring x y = true <-> Obs.occurs x y.
Proof.
  unfold Obs.occurs.
  induction y as [|c y IH]; rewrite is_substring_unfold.
  - destruct (String.prefix x "") eqn:Hp.
    + split; [intros _ | reflexivity].
      apply prefix_split in Hp as [b Hb]. exists "", b. exact Hb.
    + split; [discriminate|]. intros (a & b & Hab).
      destruct a; [|discriminate]. simpl in Hab.
      assert (String.prefix x "" = true) by (apply prefix_split; now exists b).
      congruence.
  - destruct (String.prefix x (String c y)) eqn:Hp.
    + split; [intros _ | reflexivity].
      apply prefix_split in Hp as [b Hb]. exists "", b. exact Hb.
    + rewrite IH. split.
      * intros (a & b & Hab). exists (String c a), b. simpl. now rewrite Hab.
      * intros (a & b & Hab). destruct a as [|d a]; simpl in Hab.
        -- assert (String.prefix x (String c y) = true)
             by (apply prefix_split; now exists b).
           congruence.
        -- inversion Hab; subst. now exists a, b.
Qed.


Context {V : Type}.

Lemma keys_dict_set_in (d : dict V) k v :
  In k (keys d) -> keys (dict_set d k v) = keys d.
Proof.
  induction d as [|[k' v'] d IH]; simpl; [tauto|].
  intros Hin. destruct (String.eqb_spec k' k) as [->|Hne]; simpl; [reflexivity|].
  f_equal. apply IH. destruct Hin; [contradiction | assumption].
Qed.

Lemma dict_set_notin (d : dict V) k v :
  ~ In k (keys d) -> dict_set d k v = d ++ [(k, v)].
Proof.
  induction d as [|[k' v'] d IH]; simpl; [reflexivity|].
  intros Hnin. destruct (String.eqb_spec k' k) as [->|Hne]; [tauto|].
  rewrite IH; tauto.
Qed.

Lemma in_keys_dict_set (d : dict V) k v x :
  In x (keys (dict_set d k v)) <-> x = k \/ In x (keys d).
Proof.
  destruct (in_dec string_dec k (keys d)) as [Hin|Hnin].
  - rewrite keys_dict_set_in by assumption. split; [tauto|]. intros [->|]; assumption.
  - rewrite dict_set_notin by assumption. unfold keys. rewrite map_app, in_app_iff.
    simpl. intuition congruence.
Qed.

Lemma nodup_keys_dict_set (d : dict V) k v :
  NoDup (keys d) -> NoDup (keys (dict_set d k v)).
Proof.
  intros Hnd. destruct (in_dec string_dec k (keys d)) as [Hin|Hnin].
  - now rewrite keys_dict_set_in.
  - rewrite dict_set_notin by assumption. unfold keys. rewrite map_app. simpl.
    apply NoDup_app; [assumption | repeat constructor; simpl; tauto |].
    simpl. intros x Hx [<-|[]]. contradiction.
Qed.

Lemma dict_get_dict_set (d : dict V) k v x :
  dict_get (dict_set d k v) x = if (k =? x)%string then Some v else dict_get d x.
Proof.
  induction d as [|[k' v'] d IH]; simpl.
  - reflexivity.
  - destruct (String.eqb_spec k' k) as [->|Hne]; simpl.
    + destruct (k =? x)%string; reflexivity.
    + rewrite IH. destruct (String.eqb_spec k' x) as [->|Hne'].
      * destruct (String.eqb_spec k x); [congruence | reflexivity].
      * reflexivity.
Qed.

Lemma dict_get_in (d : dict V) k v :
  dict_get d k = Some v -> In (k, v) d.
Proof.
  induction d as [|[k' v'] d IH]; simpl; [discriminate|].
  destruct (String.eqb_spec k' k) as [->|Hne].
  - intros [= ->]. now left.
  - intros H. right. now apply IH.
Qed.

Lemma in_dict_get (d : dict V) k v :
  NoDup (keys d) -> In (k, v) d -> dict_get d k = Some v.
Proof.
  induction d as [|[k' v'] d IH]; simpl; [tauto|].
  intros Hnd [Heq|Hin].
  - inversion Heq; subst. now rewrite String.eqb_refl.
  - inversion Hnd as [|? ? Hnotin Hnd']; subst.
    destruct (String.eqb_spec k' k) as [->|Hne].
    + exfalso. apply Hnotin. change k with (fst (k, v)). now apply in_map.
    + now apply IH.
Qed.

End PyFacts.

(** ** The result mapping of the pipeline *)

Section Assigned.
Import Obs.
Variable f : string -> string.

Lemma assigned_cons u l d : assigned f (u :: l) d = assigned f l (dict_set d u (f u)).
Proof. reflexivity. Qed.

Lemma assigned_app l l' d : assigned f (l ++ l') d = assigned f l' (assigned f l d).
Proof. apply fold_left_app. Qed.

Lemma consistent_nil : consistent f [].
Proof. intros k v []. Qed.

Lemma consistent_dict_set d k : consistent f d -> consistent f (dict_set d k (f k)).
Proof.
  unfold consistent. induction d as [|[k' v'] d IH]; simpl; intros Hc x v.
  - intros [[= <- <-]|[]]. reflexivity.
  - destruct (String.eqb_spec k' k) as [->|Hne]; simpl.
    + intros [[= <- <-]|Hin]; [reflexivity | apply Hc; now right].
    + intros [Heq|Hin]; [apply Hc; now left|].
      apply IH; [|assumption]. intros; apply Hc; now right.
Qed.

Lemma consistent_assigned l : forall d, consistent f d -> consistent f (assigned f l d).
Proof.
  induction l as [|u l IH]; intros d Hc; [assumption|].
  rewrite assigned_cons. apply IH. now apply consistent_dict_set.
Qed.

Lemma in_keys_assigned l : forall d x,
  In x (keys (assigned f l d)) <-> In x (keys d) \/ In x l.
Proof.
  induction l as [|u l IH]; intros d x; [simpl; tauto|].
  rewrite assigned_cons, IH, in_keys_dict_set. simpl. intuition congruence.
Qed.

Lemma nodup_keys_assigned l : forall d, NoDup (keys d) -> NoDup (keys (assigned f l d)).
Proof.
  induction l as [|u l IH]; intros d Hnd; [assumption|].
  rewrite assigned_cons. apply IH. now apply nodup_keys_dict_set.
Qed.

Lemma dict_set_present d k :
  consistent f d -> In k (keys d) -> dict_set d k (f k) = d.
Proof.
  unfold consistent. induction d as [|[k' v'] d IH]; simpl; intros Hc Hin; [tauto|].
  destruct (String.eqb_spec k' k) as [->|Hne].
  - f_equal. f_equal. symmetry. apply Hc. now left.
  - f_equal. apply IH; [intros; apply Hc; now right|].
    destruct Hin; [contradiction | assumption].
Qed.

Lemma in_keys_value d k : In k (keys d) -> exists v : string, In (k, v) d.
Proof.
  unfold keys. rewrite in_map_iff. intros [[k' v] [Hk Hin]]. simpl in Hk; subst.
  now exists v.
Qed.

(** Every URL assigned is mapped to its value. *)
Lemma dict_get_assigned l d u :
  consistent f d -> NoDup (keys d) -> In u (keys d) \/ In u l ->
  dict_get (assigned f l d) u = Some (f u).
Proof.
  intros Hc Hnd Hin.
  pose proof (consistent_assigned l d Hc) as Hc'.
  pose proof (nodup_keys_assigned l d Hnd) as Hnd'.
  apply (in_keys_assigned l d u) in Hin.
  destruct (in_keys_value _ _ Hin) as [v Hv].
  rewrite (Hc' _ _ Hv) in Hv. now apply in_dict_get.
Qed.

(** A URL list without repetition gives its values in the order of the list. *)
Lemma assigned_nodup l : forall d,
  NoDup l -> (forall x, In x l -> ~ In x (keys d)) ->
  assigned f l d = d ++ map (fun u => (u, f u)) l.
Proof.
  induction l as [|u l IH]; intros d Hnd Hfresh.
  - simpl. now rewrite app_nil_r.
  - inversion Hnd as [|? ? Hu Hnd']; subst.
    rewrite assigned_cons, dict_set_notin by (apply Hfresh; now left).
    rewrite IH; [now rewrite <- app_assoc | assumption |].
    intros x Hx. unfold keys. rewrite map_app, in_app_iff. simpl.
    intros [Hin|[<-|[]]]; [|contradiction].
    apply (Hfresh x); [now right | assumption].
Qed.

(** [results.update(batch_results)] continues the assignment. *)
Lemma update_assigned l : forall R,
  consistent f R -> dict_update R (assigned f l []) = assigned f l R.
Proof.
  induction l as [|u l IH] using rev_ind; intros R Hc; [reflexivity|].
  rewrite !assigned_app. simpl.
  change (fold_left (fun acc u0 => dict_set acc u0 (f u0)) [u] ?d) with (dict_set d u (f u)).
  destruct (in_dec string_dec u l) as [Hin|Hnin].
  - rewrite !dict_set_present; [now apply IH | | | |].
    + now apply consistent_assigned.
    + apply in_keys_assigned. now right.
    + apply consistent_assigned, consistent_nil.
    + apply in_keys_assigned. now right.
  - rewrite (dict_set_notin (assigned f l [])).
    + unfold dict_update. rewrite fold_left_app. simpl.
      fold (dict_update R (assigned f l [])). now rewrite IH.
    + rewrite in_keys_assigned. simpl. tauto.
Qed.

(** Merging the one-entry dictionaries of a batch is the same assignment. *)
Lemma merged_assigned l : forall acc,
  fold_left dict_update (map (fun url => [(url, f url)]) l) acc = assigned f l acc.
Proof.
  induction l as [|u l IH]; intros acc; [reflexivity|].
  simpl. rewrite IH. reflexivity.
Qed.

End Assigned.

(** ** Chunks *)

Section Chunks.
Context {A : Type}.

Lemma firstn_add (a c : nat) : forall l : list A,
  firstn (a + c) l = firstn a l ++ firstn c (skipn a l).
Proof.
  induction a as [|a IH]; intros l; [reflexivity|].
  destruct l as [|x l]; simpl.
  - now rewrite firstn_nil.
  - now rewrite IH.
Qed.

Lemma concat_chunks (b : nat) (l : list A) : forall m k,
  List.concat (map (fun j => firstn b (skipn (j * b) l)) (seq k m))
  = firstn (m * b) (skipn (k * b) l).
Proof.
  induction m as [|m IH]; intros k; [reflexivity|].
  cbn [seq map List.concat]. rewrite IH.
  change (S m * b)%nat with (b + m * b)%nat. rewrite firstn_add.
  f_equal. f_equal. rewrite skipn_skipn. reflexivity.
Qed.

(** The slices taken by [process_urls], one after the other, are the list. *)
Lemma concat_slices (l : list A) (bs : Z) :
  0 < bs ->
  List.concat (map (fun i => slice l i (i + bs)) (range0 (Z.of_nat (List.length l)) bs)) = l.
Proof.
  intros Hbs. unfold range0.
  destruct (Z.ltb_spec 0 bs) as [_|]; [|lia].
  rewrite map_map.
  rewrite (map_ext _ (fun j => firstn (Z.to_nat bs) (skipn (j * Z.to_nat bs) l))).
  - rewrite concat_chunks. simpl. apply firstn_all2.
    set (n := Z.of_nat (List.length l)).
    assert (Hq : n <= (n + bs - 1) / bs * bs).
    { pose proof (Z.div_mod (n + bs - 1) bs ltac:(lia)) as Hdm.
      pose proof (Z.mod_pos_bound (n + bs - 1) bs Hbs). nia. }
    assert (0 <= (n + bs - 1) / bs) by (apply Z.div_pos; lia).
    apply Nat2Z.inj_le. rewrite Nat2Z.inj_mul, !Z2Nat.id by lia. exact Hq.
  - intros j. unfold slice. f_equal.
    + f_equal. lia.
    + f_equal. rewrite Z2Nat.inj_mul, Nat2Z.id by lia. reflexivity.
Qed.

Lemma remove_at_perm (d : A) (i : nat) (l : list A) :
  (i < List.length l)%nat ->
  Permutation (nth i l d :: BatchProcessor.remove_at i l) l.
Proof.
  intros Hi. unfold BatchProcessor.remove_at.
  destruct (nth_split l d Hi) as (l1 & l2 & Hl & Hlen).
  assert (H1 : firstn i l = l1).
  { rewrite Hl, firstn_app, Hlen, Nat.sub_diag, firstn_all2 by lia.
    simpl. apply app_nil_r. }
  assert (H2 : skipn (S i) l = l2).
  { rewrite Hl, skipn_app, skipn_all2 by lia.
    replace (S i - List.length l1)%nat with 1%nat by lia. reflexivity. }
  rewrite H1, H2. rewrite Hl at 2. apply Permutation_middle.
Qed.

End Chunks.

(** ** The counters and the events of a run *)

Section Runs.
Import Obs BatchProcessor.
Context {L : Libs}.
Variable w : World.

Lemma finishes_app tr tr' : finishes (tr ++ tr') = finishes tr ++ finishes tr'.
Proof. apply flat_map_app. Qed.

Lemma requests_app tr tr' : requests (tr ++ tr') = requests tr ++ requests tr'.
Proof. apply flat_map_app. Qed.

Lemma ran_refl st : live st -> ran [] [] st st.
Proof.
  intros [pr Hpr]. repeat split.
  - exists pr, pr. repeat split; try assumption. simpl. lia.
  - exists []. rewrite app_nil_r. repeat split. constructor.
Qed.

Lemma ran_live_r fin req st st' : ran fin req st st' -> live st'.
Proof. intros (_ & _ & (_ & pr' & _ & H & _) & _). now exists pr'. Qed.

Lemma ran_trans fin1 req1 fin2 req2 st st' st'' :
  ran fin1 req1 st st' -> ran fin2 req2 st' st'' ->
  ran (fin1 ++ fin2) (req1 ++ req2) st st''.
Proof.
  intros (Hb1 & Hm1 & (pr & pr1 & Hp & Hp1 & Hn1 & Ht1 & Hf1 & Hx1) & tr1 & Htr1 & Hperm1 & Hreq1)
         (Hb2 & Hm2 & (pr1' & pr2 & Hp1' & Hp2 & Hn2 & Ht2 & Hf2 & Hx2) & tr2 & Htr2 & Hperm2 & Hreq2).
  assert (pr1' = pr1) by congruence. subst pr1'.
  split; [congruence|]. split; [congruence|]. split.
  - exists pr, pr2. repeat split; try congruence.
    rewrite length_app, Nat2Z.inj_add. lia.
  - exists (tr1 ++ tr2). split; [now rewrite Htr2, Htr1, app_assoc|].
    rewrite finishes_app, requests_app, map_app. split.
    + now apply Permutation_app.
    + congruence.
Qed.

Lemma ran_perm fin fin' req st st' :
  Permutation fin fin' -> ran fin req st st' -> ran fin' req st st'.
Proof.
  intros Hperm (Hb & Hm & (pr & pr' & Hp & Hp' & Hn & Hrest) & tr & Htr & Hfin & Hreq).
  split; [assumption|]. split; [assumption|]. split.
  - exists pr, pr'. repeat split; try tauto.
    rewrite <- (Permutation_length Hperm). exact Hn.
  - exists tr. repeat split; try assumption.
    now apply Permutation_trans with fin.
Qed.

Lemma ran_finish st u : live st -> ran [u] [] st (finish st u).
Proof.
  intros [pr Hpr]. unfold finish, finally. rewrite Hpr. simpl. repeat split.
  - eexists pr, _. repeat split; try eassumption; reflexivity.
  - exists [EvFinish u]. repeat split. simpl. apply Permutation_refl.
Qed.

Lemma ran_emit_start st u : live st -> ran [] [] st (emit st (EvStart u)).
Proof.
  intros [pr Hpr]. unfold emit. simpl. repeat split.
  - exists pr, pr. repeat split; try assumption. simpl; lia.
  - exists [EvStart u]. repeat split. simpl. constructor.
Qed.

Lemma ran_emit_request st u : live st -> ran [] [u] st (emit st (EvRequest (request u))).
Proof.
  intros [pr Hpr]. unfold emit. simpl. repeat split.
  - exists pr, pr. repeat split; try assumption. simpl; lia.
  - exists [EvRequest (request u)]. repeat split. simpl. constructor.
Qed.

Lemma ran_start st u :
  live st ->
  ran (if suspends w u then [] else [u]) (if suspends w u then [u] else []) st (start w st u).
Proof.
  intros Hl. unfold start.
  pose proof (ran_emit_start st u Hl) as H1.
  destruct (suspends w u).
  - apply (ran_trans [] [] [] [u] _ _ _ H1).
    apply ran_emit_request. eapply ran_live_r; eassumption.
  - apply (ran_trans [] [] [u] [] _ _ _ H1).
    apply ran_finish. eapply ran_live_r; eassumption.
Qed.

Lemma ran_starts urls : forall st,
  live st ->
  ran (filter (fun u => negb (suspends w u)) urls) (filter (suspends w) urls)
      st (fold_left (start w) urls st).
Proof.
  induction urls as [|u urls IH]; intros st Hl; [now apply ran_refl|].
  cbn [fold_left filter].
  pose proof (ran_start st u Hl) as H1.
  pose proof (IH _ (ran_live_r _ _ _ _ H1)) as H2.
  pose proof (ran_trans _ _ _ _ _ _ _ H1 H2) as H3.
  destruct (suspends w u); exact H3.
Qed.

Lemma length_remove_at {A} (i : nat) (l : list A) :
  (i < List.length l)%nat -> List.length (remove_at i l) = (List.length l - 1)%nat.
Proof.
  intros Hi. unfold remove_at.
  rewrite length_app, length_firstn, length_skipn. lia.
Qed.

Lemma ran_drain fuel : forall pending st,
  (List.length pending <= fuel)%nat -> live st ->
  ran pending [] st (drain w fuel pending st).
Proof.
  induction fuel as [|fuel IH]; intros pending st Hlen Hl.
  - destruct pending; [now apply ran_refl | simpl in Hlen; lia].
  - destruct pending as [|p pending']; [now apply ran_refl|].
    set (pending := p :: pending') in *.
    cbn [drain]. fold pending.
    set (i := (sched w (List.length (trace st)) mod List.length pending)%nat).
    assert (Hi : (i < List.length pending)%nat)
      by (apply Nat.mod_upper_bound; discriminate).
    pose proof (ran_finish st (nth i pending "") Hl) as H1.
    assert (H2 : ran (remove_at i pending) [] (finish st (nth i pending ""))
                     (drain w fuel (remove_at i pending) (finish st (nth i pending "")))).
    { apply IH; [|eapply ran_live_r; eassumption].
      rewrite length_remove_at by assumption. simpl in Hlen |- *. lia. }
    pose proof (ran_trans _ _ _ _ _ _ _ H1 H2) as H3.
    eapply ran_perm; [|exact H3].
    apply (remove_at_perm "" i pending Hi).
Qed.

Lemma ran_bump fin req st st' :
  ran fin req st st' -> ran fin req st (mkSt (bump_batch (self st')) (trace st')).
Proof.
  intros (Hb & Hm & (pr & pr' & Hp & Hp' & Hrest) & Htr).
  unfold bump_batch. rewrite Hp'. simpl.
  split; [assumption|]. split; [assumption|]. split; [|assumption].
  eexists pr, _. split; [eassumption|]. split; [reflexivity|]. exact Hrest.
Qed.

Lemma filter_partition_perm {A} (p : A -> bool) (l : list A) :
  Permutation (filter (fun x => negb (p x)) l ++ filter p l) l.
Proof.
  induction l as [|x l IH]; [constructor|].
  simpl. destruct (p x); simpl.
  - apply Permutation_sym, Permutation_cons_app, Permutation_sym, IH.
  - now constructor.
Qed.

Variable kw : Kwargs.
Let f := fun url => process_url_value w url kw.

(** One batch: its mapping, its counter and its events. *)
Lemma process_batch_spec st urls :
  live st ->
  fst (process_batch w st urls kw) = assigned f urls []
  /\ ran urls (filter (suspends w) urls) st (snd (process_batch w st urls kw)).
Proof.
  intros Hl. unfold process_batch. cbn [fst snd]. split.
  - apply (merged_assigned f).
  - apply ran_bump.
    pose proof (ran_starts urls st Hl) as H1.
    pose proof (ran_drain (List.length (filter (suspends w) urls)) (filter (suspends w) urls)
                  _ (le_n _) (ran_live_r _ _ _ _ H1)) as H2.
    pose proof (ran_trans _ _ _ _ _ _ _ H1 H2) as H3.
    rewrite app_nil_r in H3.
    eapply ran_perm; [|exact H3]. apply filter_partition_perm.
Qed.

Lemma batch_loop_spec urls bs starts : forall results st,
  live st -> consistent f results ->
  let all := List.concat (map (fun i => slice urls i (i + bs)) starts) in
  fst (batch_loop w urls kw bs starts results st) = assigned f all results
  /\ ran all (filter (suspends w) all) st (snd (batch_loop w urls kw bs starts results st)).
Proof.
  induction starts as [|i starts IH]; intros results st Hl Hc.
  - simpl. split; [reflexivity | now apply ran_refl].
  - cbn [batch_loop map List.concat].
    destruct (process_batch_spec st (slice urls i (i + bs)) Hl) as [Hres Hran].
    destruct (process_batch w st (slice urls i (i + bs)) kw) as [batch_results st'].
    cbn [fst snd] in Hres, Hran. subst batch_results.
    rewrite (update_assigned f) by assumption.
    destruct (IH (assigned f (slice urls i (i + bs)) results) st'
                 (ran_live_r _ _ _ _ Hran) (consistent_assigned f _ _ Hc)) as [IH1 IH2].
    split.
    + rewrite IH1. now rewrite assigned_app.
    + rewrite filter_app. eapply ran_trans; eassumption.
Qed.

(** The whole run, for a batch size above zero. *)
Lemma process_urls_spec st urls :
  0 < batch_size (self st) ->
  let st0 := mkSt (mk (batch_size (self st)) (max_concurrent (self st))
                      (Some (mkProgress (Z.of_nat (List.length urls)) 0 0 0
                               (Z.of_nat (List.length urls) / batch_size (self st)
                                + (if Z.of_nat (List.length urls) mod batch_size (self st) =? 0
                                   then 0 else 1)))))
                  (trace st) in
  fst (process_urls w st urls kw) = Ok (assigned f urls [])
  /\ ran urls (filter (suspends w) urls) st0 (snd (process_urls w st urls kw)).
Proof.
  intros Hbs st0. unfold process_urls.
  destruct (Z.eqb_spec (batch_size (self st)) 0) as [H0|_]; [lia|].
  fold st0.
  assert (Hl : live st0) by (eexists; reflexivity).
  destruct (batch_loop_spec urls (batch_size (self st))
              (range0 (Z.of_nat (List.length urls)) (batch_size (self st)))
              [] st0 Hl (consistent_nil f)) as [H1 H2].
  cbv zeta in H1, H2. rewrite concat_slices in H1, H2 by assumption.
  destruct (batch_loop w urls kw (batch_size (self st)) _ [] st0) as [results st'].
  cbn [fst snd] in *. now subst results.
Qed.

End Runs.

(** ** The batch pipeline *)

Section Pipeline.
Import Obs BatchProcessor.
Context {L : Libs}.

Lemma process_urls_raises w st urls kw e :
  fst (process_urls w st urls kw) = Raise e ->
  batch_size (self st) = 0 /\ snd (process_urls w st urls kw) = st.
Proof.
  unfold process_urls.
  destruct (Z.eqb_spec (batch_size (self st)) 0) as [H0|Hne].
  - intros _. now split.
  - destruct (batch_loop w urls kw (batch_size (self st)) _ [] _). discriminate.
Qed.

Lemma process_urls_zero w st urls kw :
  batch_size (self st) = 0 ->
  process_urls w st urls kw = (Raise ZeroDivisionError, st).
Proof. intros H0. unfold process_urls. now rewrite H0. Qed.


End Pipeline.

(** ** Content filters *)

Section Filters.
Import Obs BatchProcessor.

(** The verdict of one filter decides whether the loop goes on. *)
Lemma apply_filters_step text f rest :
  apply_filters text (f :: rest)
  = match apply_filters text [f] with
    | Ok None => apply_filters text rest
    | r => r
    end.
Proof.
  destruct f as [k v]. cbn [apply_filters].
  destruct (k =? "min_length")%string.
  { destruct (py_int v) as [n|e]; cbn [bind]; [|reflexivity].
    destruct (len text <? n); reflexivity. }
  destruct (k =? "max_length")%string.
  { destruct (py_int v) as [n|e]; cbn [bind]; [|reflexivity].
    destruct (n <? len text); reflexivity. }
  destruct (k =? "contains")%string.
  { destruct (is_substring (lower v) (lower text)); reflexivity. }
  destruct (k =? "excludes")%string.
  { destruct (is_substring (lower v) (lower text)); reflexivity. }
  reflexivity.
Qed.

(** The loop returns at the first filter, in the order of the mapping, that
    fails. *)
Lemma apply_filters_first_failure text pre : forall f post r,
  (forall g, In g pre -> apply_filters text [g] = Ok None) ->
  apply_filters text [f] = Ok (Some r) ->
  apply_filters text (pre ++ f :: post) = Ok (Some r).
Proof.
  induction pre as [|g pre IH]; intros f post r Hpre Hf.
  - simpl app. rewrite apply_filters_step, Hf. reflexivity.
  - simpl app. rewrite apply_filters_step, (Hpre g (or_introl eq_refl)).
    apply IH; [|assumption]. intros g' Hg'. apply Hpre. now right.
Qed.









(** C7 (as the code has it).  The filters are applied in the order in which
    the mapping holds them: the result is the rejection of the first filter
    of the mapping that fails.  The mapping that [index] of main.py builds
    from the form always holds its keys in the order [min_length],
    [max_length], [contains], [excludes], whatever the form sent.  With
    [{min_length: 10, contains: "x"}] in that order, which is what the form
    gives, a text of length 5 is rejected by [min_length]. *)
Theorem C7_filters_in_mapping_order :
  (forall text pre f post r,
      (forall g, In g pre -> apply_filters text [g] = Ok None) ->
      apply_filters text [f] = Ok (Some r) ->
      apply_filters text (pre ++ f :: post) = Ok (Some r))
  /\ (forall a b c d,
        keys (Main.build_content_filters a b c d)
        = filter (fun k => existsb (String.eqb k) (keys (Main.build_content_filters a b c d)))
                 ["min_length"; "max_length"; "contains"; "excludes"])
  /\ Main.build_content_filters "10" "" "x" "" = [("min_length", "10"); ("contains", "x")]
  /\ (forall text, len text = 5 ->
        apply_filters text [("min_length", "10"); ("contains", "x")]
        = Ok (Some "Content filtered: Too short (min: 10)")).
Proof.
  split; [|split; [|split]].
  - intros text pre f post r. apply apply_filters_first_failure.
  - intros a b c d. unfold Main.build_content_filters.
    destruct (negb (strip a =? "")%string && isdigit (strip a));
      destruct (negb (strip b =? "")%string && isdigit (strip b));
      destruct (negb (strip c =? "")%string);
      destruct (negb (strip d =? "")%string); reflexivity.
  - reflexivity.
  - intros text Hlen. cbn [apply_filters String.eqb Ascii.eqb Bool.eqb].
    change (py_int "10") with (Ok 10). cbn [bind]. rewrite Hlen. reflexivity.
Qed.

End Filters.

(** ** What one URL comes to *)

Section PerUrl.
Import Obs BatchProcessor.
Context {L : Libs}.
Variable w : World.

Lemma value_of_raise url kw e :
  process_url_try w url kw = Raise e ->
  process_url_value w url kw = ("Error: " ++ exc_msg e)%string.
Proof. intros H. unfold process_url_value. now rewrite H. Qed.



Lemma filter_text_sentinel kw : filter_text NO_CONTENT kw = Ok NO_CONTENT.
Proof.
  unfold filter_text. rewrite String.eqb_refl. cbn [negb].
  rewrite !andb_false_r. reflexivity.
Qed.

Lemma value_sentinel url kw html :
  session_get w (request url) = Response 200 (Ok html) ->
  extract_text html kw = Ok NO_CONTENT ->
  process_url_value w url kw = NO_CONTENT.
Proof.
  intros H He. unfold process_url_value, process_url_try. rewrite H.
  cbn [Z.eqb Pos.eqb bind]. rewrite He. cbn [bind].
  now rewrite filter_text_sentinel.
Qed.

Lemma select_each_nothing soup selectors :
  (forall selector, In selector selectors -> soup_select soup selector = Ok []) ->
  select_each soup selectors = Ok [].
Proof.
  induction selectors as [|s rest IH]; intros Hn; [reflexivity|].
  cbn [select_each]. rewrite (Hn s (or_introl eq_refl)). cbn [bind].
  rewrite IH by (intros; apply Hn; now right). reflexivity.
Qed.

(** Selectors that match nothing give the sentinel. *)
Lemma extract_text_nothing_selected html kw :
  selects_nothing html kw -> extract_text html kw = Ok NO_CONTENT.
Proof.
  intros (Hsel & Hcs & Hcode & Hex). unfold extract_text. rewrite Hsel.
  unfold extract_selected.
  destruct (truthy_sel (content_selector kw)).
  - rewrite select_each_nothing by (apply Hcs; reflexivity). cbn [bind].
    destruct (truthy (code_selector kw)).
    + rewrite Hcode by reflexivity. cbn [bind].
      destruct (truthy (exclude_selector kw)); [|reflexivity].
      destruct (Hex eq_refl) as [els ->]. reflexivity.
    + cbn [bind]. destruct (truthy (exclude_selector kw)); [|reflexivity].
      destruct (Hex eq_refl) as [els ->]. reflexivity.
  - cbn [bind]. destruct (truthy (code_selector kw)).
    + rewrite Hcode by reflexivity. cbn [bind].
      destruct (truthy (exclude_selector kw)); [|reflexivity].
      destruct (Hex eq_refl) as [els ->]. reflexivity.
    + cbn [bind]. destruct (truthy (exclude_selector kw)); [|reflexivity].
      destruct (Hex eq_refl) as [els ->]. reflexivity.
Qed.

(** Without selectors, a generic extractor that returns nothing gives the
    sentinel. *)
Lemma extract_text_nothing_generic html kw :
  extracts_nothing html kw -> extract_text html kw = Ok NO_CONTENT.
Proof.
  intros [Hsel [Hn|Hn]]; unfold extract_text; rewrite Hsel, Hn; reflexivity.
Qed.

Lemma suspends_response url status text :
  session_get w (request url) = Response status text -> suspends w url = true.
Proof. intros H. unfold suspends. now rewrite H. Qed.

(** An invalid content selector: the page is fetched, then the error of the
    selector becomes the value of the URL. *)
Lemma value_invalid_selector url kw html selector e :
  session_get w (request url) = Response 200 (Ok html) ->
  content_selector kw = Some (SelStr selector) -> selector <> "" ->
  soup_select (BeautifulSoup html) selector = Raise e ->
  process_url_value w url kw = ("Error: " ++ exc_msg e)%string.
Proof.
  intros H Hsel Hne He. apply value_of_raise.
  unfold process_url_try. rewrite H. cbn [Z.eqb Pos.eqb bind].
  unfold extract_text, extract_selected. rewrite Hsel. cbn [truthy_sel selectors_of].
  destruct (String.eqb_spec selector "") as [|_]; [contradiction|].
  cbn [negb orb select_each]. rewrite He. reflexivity.
Qed.

(** [max_concurrent] is stored and never read. *)
Lemma finish_set_max m st u : finish (set_max m st) u = set_max m (finish st u).
Proof.
  destruct st as [[bs mc [pr|]] tr]; reflexivity.
Qed.

Lemma start_set_max m st u : start w (set_max m st) u = set_max m (start w st u).
Proof.
  unfold start. destruct (suspends w u).
  - reflexivity.
  - unfold emit at 1. rewrite <- finish_set_max. reflexivity.
Qed.

Lemma starts_set_max m urls : forall st,
  fold_left (start w) urls (set_max m st) = set_max m (fold_left (start w) urls st).
Proof.
  induction urls as [|u urls IH]; intros st; [reflexivity|].
  cbn [fold_left]. now rewrite start_set_max, IH.
Qed.

Lemma drain_set_max m fuel : forall pending st,
  drain w fuel pending (set_max m st) = set_max m (drain w fuel pending st).
Proof.
  induction fuel as [|fuel IH]; intros pending st; [reflexivity|].
  destruct pending as [|p pending]; [reflexivity|].
  cbn [drain]. rewrite finish_set_max, IH. reflexivity.
Qed.

Lemma process_batch_set_max m st urls kw :
  process_batch w (set_max m st) urls kw
  = (fst (process_batch w st urls kw), set_max m (snd (process_batch w st urls kw))).
Proof.
  unfold process_batch. cbn [fst snd].
  rewrite starts_set_max, drain_set_max. f_equal.
  destruct (drain w _ _ _) as [[bs mc [pr|]] tr]; reflexivity.
Qed.

Lemma batch_loop_set_max m urls kw bs starts : forall results st,
  batch_loop w urls kw bs starts results (set_max m st)
  = (fst (batch_loop w urls kw bs starts results st),
     set_max m (snd (batch_loop w urls kw bs starts results st))).
Proof.
  induction starts as [|i starts IH]; intros results st; [reflexivity|].
  cbn [batch_loop]. rewrite process_batch_set_max.
  destruct (process_batch w st (slice urls i (i + bs)) kw) as [br st'].
  cbn [fst snd]. apply IH.
Qed.

Lemma process_urls_set_max m st urls kw :
  process_urls w (set_max m st) urls kw
  = (fst (process_urls w st urls kw), set_max m (snd (process_urls w st urls kw))).
Proof.
  unfold process_urls. cbn [set_max self trace batch_size max_concurrent].
  destruct (batch_size (self st) =? 0); [reflexivity|].
  match goal with
  | |- context [batch_loop w urls kw ?bs ?starts [] (mkSt (mk ?b m ?pr) ?tr)] =>
      change (mkSt (mk b m pr) tr)
        with (set_max m (mkSt (mk b (max_concurrent (self st)) pr) tr))
  end.
  rewrite batch_loop_set_max.
  destruct (batch_loop w urls kw _ _ [] _) as [results st']. reflexivity.
Qed.

End PerUrl.

(** ** scraper.py: validation, request and status *)

Section ScraperFacts.
Context {L : Libs}.
Variable w : World.





End ScraperFacts.

(** ** The scheduler: one pass *)

Section Pass.
Import Obs PassObs SyncManager.
Context {L : Libs}.
Variable tk : Tick.
Variable config : SyncConfig.

Lemma db_op_ok s :
  db_fault tk (ops s) = None ->
  db_op tk s = (Ok tt, mkSt (db s) (pipeline s) (S (ops s)) (sink_calls s)).
Proof. intros H. unfold db_op. now rewrite H. Qed.

Lemma commit_ok work s :
  db_fault tk (ops s) = None ->
  commit tk work s = (Ok tt, mkSt work (pipeline s) (S (ops s)) (sink_calls s)).
Proof. intros H. unfold commit, mbind. now rewrite db_op_ok. Qed.

Lemma changed_entries_cons tracked uc rest :
  changed_entries tracked (uc :: rest)
  = if changed_b tracked uc then uc :: changed_entries tracked rest
    else changed_entries tracked rest.
Proof. reflexivity. Qed.

Lemma check_changes_cons tracked url content rest work n :
  check_changes tk config tracked ((url, content) :: rest) work n
  = if changed_b tracked (url, content)
    then (_ <~ db_op tk ;;
          _ <~ publish tk config url content ;;
          check_changes tk config tracked rest
            (update_tracked work (_compute_content_hash content) (now tk) (cfg_id config) url)
            (n + 1))
    else check_changes tk config tracked rest work n.
Proof.
  unfold changed_b. cbn [check_changes fst snd].
  destruct (is_error content); cbn [negb andb]; [reflexivity|].
  destruct (hash_differs _ _); reflexivity.
Qed.

(** The loop, when no database operation fails. *)
Lemma check_changes_ok tracked results : forall work n s,
  no_fault_from tk (ops s) ->
  check_changes tk config tracked results work n s
  = (Ok (persist_all tk (cfg_id config) (changed_entries tracked results) work,
         n + Z.of_nat (List.length (changed_entries tracked results))),
     mkSt (db s) (pipeline s)
          (ops s + List.length (changed_entries tracked results))
          (sink_calls s ++ map (sink_call_of tk config) (changed_entries tracked results))).
Proof.
  induction results as [|[url content] rest IH]; intros work n s Hnf.
  - cbn [check_changes changed_entries filter List.length map persist_all fold_left].
    unfold ret. rewrite Z.add_0_r, Nat.add_0_r, app_nil_r. now destruct s.
  - rewrite check_changes_cons, changed_entries_cons.
    destruct (changed_b tracked (url, content)); [|now apply IH].
    unfold mbind at 1. rewrite db_op_ok by (apply Hnf; lia).
    unfold mbind at 1, publish at 1. cbn [db pipeline ops sink_calls].
    rewrite IH by (intros k Hk; apply Hnf; cbn [ops] in Hk; lia).
    cbn [db pipeline ops sink_calls List.length map persist_all fold_left fst snd].
    f_equal; [f_equal; f_equal; lia|].
    f_equal; [lia|]. rewrite <- app_assoc. reflexivity.
Qed.

(** Until it commits, a pass leaves the database as it was. *)
Lemma keeps_db_bind {A B} (m : M A) (k : A -> M B) :
  keeps_db m -> (forall a, keeps_db (k a)) -> keeps_db (mbind m k).
Proof.
  intros Hm Hk s r s'. unfold mbind. destruct (m s) as [[a|e] s1] eqn:Hms.
  - intros H. rewrite (Hk a _ _ _ H). eapply Hm; eassumption.
  - intros [= <- <-]. eapply Hm; eassumption.
Qed.

Lemma keeps_db_on_raise_bind {A B} (m : M A) (k : A -> M B) :
  keeps_db m -> (forall a, keeps_db_on_raise (k a)) -> keeps_db_on_raise (mbind m k).
Proof.
  intros Hm Hk s e s'. unfold mbind. destruct (m s) as [[a|e'] s1] eqn:Hms.
  - intros H. rewrite (Hk a _ _ _ H). eapply Hm; eassumption.
  - intros [= <- <-]. eapply Hm; eassumption.
Qed.

Lemma keeps_db_db_op : keeps_db (db_op tk).
Proof.
  intros s r s'. unfold db_op. destruct (db_fault tk (ops s)); intros [= <- <-]; reflexivity.
Qed.

Lemma keeps_db_read : keeps_db read_db.
Proof. intros s r s' [= <- <-]. reflexivity. Qed.

Lemma keeps_db_ret {A} (a : A) : keeps_db (ret a).
Proof. intros s r s' [= <- <-]. reflexivity. Qed.

Lemma keeps_db_publish url content : keeps_db (publish tk config url content).
Proof. intros s r s' [= <- <-]. reflexivity. Qed.

Lemma keeps_db_run_pipeline urls : keeps_db (run_pipeline tk config urls).
Proof.
  intros s r s'. unfold run_pipeline.
  destruct (BatchProcessor.process_urls _ _ _ _). intros [= <- <-]. reflexivity.
Qed.

Lemma keeps_db_check_changes tracked results : forall work n,
  keeps_db (check_changes tk config tracked results work n).
Proof.
  induction results as [|[url content] rest IH]; intros work n.
  - apply keeps_db_ret.
  - cbn [check_changes].
    destruct (negb (is_error content)); [|apply IH].
    destruct (hash_differs _ _); [|apply IH].
    apply keeps_db_bind; [apply keeps_db_db_op|]. intros _.
    apply keeps_db_bind; [apply keeps_db_publish|]. intros _. apply IH.
Qed.

Lemma keeps_db_on_raise_commit work : keeps_db_on_raise (commit tk work).
Proof.
  intros s e s'. unfold commit, mbind.
  destruct (db_op tk s) as [[[]|e'] s1] eqn:Hop.
  - discriminate.
  - intros [= <- <-]. eapply keeps_db_db_op; eassumption.
Qed.

Lemma try_block_keeps_db : keeps_db_on_raise (try_block tk config).
Proof.
  unfold try_block.
  apply keeps_db_on_raise_bind; [apply keeps_db_db_op|]. intros _.
  apply keeps_db_on_raise_bind; [apply keeps_db_db_op|]. intros _.
  apply keeps_db_on_raise_bind; [apply keeps_db_read|]. intros work.
  destruct (select_tracked work (cfg_id config)) as [|row rows].
  - apply keeps_db_on_raise_commit.
  - apply keeps_db_on_raise_bind; [apply keeps_db_run_pipeline|]. intros results.
    apply keeps_db_on_raise_bind; [apply keeps_db_check_changes|]. intros [work' changed].
    apply keeps_db_on_raise_bind; [apply keeps_db_db_op|]. intros _.
    apply keeps_db_on_raise_bind; [apply keeps_db_db_op|]. intros _.
    apply keeps_db_on_raise_commit.
Qed.

End Pass.

(** ** Rows and entries with unique keys *)

Section Rows.
Import Obs PassObs SyncManager.

Lemma filter_key_absent {V} (l : dict V) u :
  ~ In u (keys l) -> filter (fun x => (fst x =? u)%string) l = [].
Proof.
  induction l as [|[k v] l IH]; [reflexivity|]. simpl. intros Hn.
  destruct (String.eqb_spec k u) as [->|_]; [tauto|]. apply IH. tauto.
Qed.

Lemma filter_key_unique {V} (l : dict V) u c :
  NoDup (keys l) -> In (u, c) l -> filter (fun x => (fst x =? u)%string) l = [(u, c)].
Proof.
  induction l as [|[k v] l IH]; [intros _ []|]. simpl.
  intros Hnd [[= -> ->]|Hin]; inversion Hnd as [|? ? Hk Hnd']; subst.
  - rewrite String.eqb_refl. f_equal. now apply filter_key_absent.
  - destruct (String.eqb_spec k u) as [->|_].
    + exfalso. apply Hk. change u with (fst (u, c)). now apply in_map.
    + now apply IH.
Qed.

Lemma nodup_keys_filter {V} (p : string * V -> bool) (l : dict V) :
  NoDup (keys l) -> NoDup (keys (filter p l)).
Proof.
  induction l as [|[k v] l IH]; [intros; constructor|]. simpl.
  intros Hnd. inversion Hnd as [|? ? Hk Hnd']; subst.
  destruct (p (k, v)); [|now apply IH]. simpl. constructor; [|now apply IH].
  intros Hin. apply Hk. unfold keys in *. rewrite in_map_iff in *.
  destruct Hin as (x & Hx & Hin). exists x. split; [assumption|].
  now apply filter_In in Hin.
Qed.

Lemma hash_differs_spec text stored :
  hash_differs (_compute_content_hash text) stored = true <-> spec_changed stored text.
Proof.
  unfold hash_differs, spec_changed. destruct stored as [h|].
  - destruct (String.eqb_spec (_compute_content_hash text) h) as [->|Hne]; cbn [negb].
    + split; [discriminate | intros H; now contradiction H].
    + split; [intros _ [= ->]; now apply Hne | reflexivity].
  - split; [intros _; discriminate | reflexivity].
Qed.

(** With one row per URL, the stored hash the loop compares with is the
    row's. *)
Lemma old_hash_of_row tracked row :
  NoDup (map tu_url tracked) -> In row tracked ->
  old_hash_of tracked (tu_url row) = tu_last_content_hash row.
Proof.
  unfold old_hash_of. induction tracked as [|r tracked IH]; [intros _ []|].
  cbn [map find]. intros Hnd Hin. inversion Hnd as [|? ? Hr Hnd']; subst.
  destruct Hin as [->|Hin].
  - now rewrite String.eqb_refl.
  - destruct (String.eqb_spec (tu_url r) (tu_url row)) as [Heq|_].
    + exfalso. apply Hr. rewrite Heq. now apply in_map.
    + now apply IH.
Qed.

Variable tk : Tick.
Variable cid : Z.

Lemma persist_row_ids uc row :
  tu_config_id (persist_row tk cid uc row) = tu_config_id row
  /\ tu_url (persist_row tk cid uc row) = tu_url row.
Proof. unfold persist_row. destruct (_ && _); split; reflexivity. Qed.

Lemma persist_rows_cons uc changed row :
  persist_rows tk cid (uc :: changed) row
  = persist_rows tk cid changed (persist_row tk cid uc row).
Proof. reflexivity. Qed.

Lemma persist_row_miss u c row :
  tu_url row <> u -> persist_row tk cid (u, c) row = row.
Proof.
  intros Hne. unfold persist_row. cbn [fst].
  destruct (String.eqb_spec (tu_url row) u); [contradiction|].
  now rewrite andb_false_r.
Qed.

Lemma persist_row_hit c row :
  tu_config_id row = cid ->
  persist_row tk cid (tu_url row, c) row
  = mkTracked (tu_config_id row) (tu_url row) (Some (_compute_content_hash c)) (Some (now tk)).
Proof.
  intros Hcid. unfold persist_row. cbn [fst snd].
  rewrite Hcid, Z.eqb_refl, String.eqb_refl. reflexivity.
Qed.

Lemma persist_rows_ids changed : forall row,
  tu_config_id (persist_rows tk cid changed row) = tu_config_id row
  /\ tu_url (persist_rows tk cid changed row) = tu_url row.
Proof.
  induction changed as [|uc changed IH]; intros row; [now split|].
  rewrite persist_rows_cons.
  destruct (IH (persist_row tk cid uc row)) as [-> ->]. apply persist_row_ids.
Qed.

Lemma persist_rows_absent changed : forall row,
  ~ In (tu_url row) (keys changed) -> persist_rows tk cid changed row = row.
Proof.
  induction changed as [|[u c] changed IH]; intros row Hn; [reflexivity|].
  rewrite persist_rows_cons. simpl in Hn.
  rewrite persist_row_miss by (intros Heq; apply Hn; now left).
  apply IH. tauto.
Qed.

Lemma persist_rows_present changed : forall row c,
  NoDup (keys changed) -> In (tu_url row, c) changed -> tu_config_id row = cid ->
  persist_rows tk cid changed row
  = mkTracked (tu_config_id row) (tu_url row) (Some (_compute_content_hash c)) (Some (now tk)).
Proof.
  induction changed as [|[u c'] changed IH]; intros row c Hnd Hin Hcid; [destruct Hin|].
  rewrite persist_rows_cons.
  cbn [keys map fst] in Hnd. apply NoDup_cons_iff in Hnd as [Hu Hnd'].
  fold (keys changed) in Hu, Hnd'.
  destruct Hin as [[= -> ->]|Hin].
  - rewrite persist_row_hit by assumption.
    apply persist_rows_absent. exact Hu.
  - rewrite persist_row_miss; [now apply IH|].
    intros Heq. apply Hu. rewrite <- Heq. change (tu_url row) with (fst (tu_url row, c)).
    now apply in_map.
Qed.

Lemma persist_all_cons uc changed work :
  persist_all tk cid (uc :: changed) work
  = persist_all tk cid changed
      (update_tracked work (_compute_content_hash (snd uc)) (now tk) cid (fst uc)).
Proof. reflexivity. Qed.

Lemma tracked_persist_all changed : forall work,
  tracked_urls (persist_all tk cid changed work)
  = map (persist_rows tk cid changed) (tracked_urls work)
  /\ sync_configurations (persist_all tk cid changed work) = sync_configurations work
  /\ sync_history (persist_all tk cid changed work) = sync_history work.
Proof.
  induction changed as [|uc changed IH]; intros work.
  - cbn [persist_all fold_left]. split; [|now split].
    rewrite <- (map_id (tracked_urls work)) at 1. reflexivity.
  - rewrite persist_all_cons.
    destruct (IH (update_tracked work (_compute_content_hash (snd uc)) (now tk) cid (fst uc)))
      as (H1 & H2 & H3).
    rewrite H1, H2, H3.
    cbn [update_tracked tracked_urls sync_configurations sync_history].
    split; [|now split]. rewrite map_map. reflexivity.
Qed.

Lemma select_tracked_map (g : TrackedURL -> TrackedURL) rows :
  (forall row, tu_config_id (g row) = tu_config_id row) ->
  filter (fun row => tu_config_id row =? cid) (map g rows)
  = map g (filter (fun row => tu_config_id row =? cid) rows).
Proof.
  intros Hg. induction rows as [|r rows IH]; [reflexivity|].
  cbn [map filter]. rewrite Hg. destruct (tu_config_id r =? cid); cbn [map]; now rewrite IH.
Qed.

End Rows.

Section PassSpec.
Import Obs PassObs SyncManager.
Context {L : Libs}.
Variable tk : Tick.
Variable config : SyncConfig.

Lemma match_nonempty {A B} (l : list A) (a b : B) :
  l <> [] -> match l with [] => a | _ :: _ => b end = b.
Proof. destruct l; [contradiction | reflexivity]. Qed.

Lemma try_block_ok s :
  no_fault_from tk (ops s) ->
  0 < BatchProcessor.batch_size (BatchProcessor.self (pipeline s)) ->
  select_tracked (db s) (cfg_id config) <> [] ->
  let tracked := select_tracked (db s) (cfg_id config) in
  let urls := map tu_url tracked in
  let run := BatchProcessor.process_urls (net tk) (pipeline s) urls (kwargs_of config) in
  let results := assigned (fun u => BatchProcessor.process_url_value (net tk) u (kwargs_of config))
                          urls [] in
  let changed := changed_entries tracked results in
  let urls_failed := Z.of_nat (List.length (filter is_error (values results))) in
  fst run = Ok results
  /\ try_block tk config s
     = (Ok tt,
        mkSt (update_last_sync
                (insert_history
                   (persist_all tk (cfg_id config) changed (db s))
                   (mkHistory (cfg_id config) "completed"
                      (status_message (Z.of_nat (List.length results))
                         (Z.of_nat (List.length changed)) urls_failed)
                      (Z.of_nat (List.length results)) urls_failed (now tk)))
                (now tk) (cfg_id config))
             (snd run)
             (ops s + List.length changed + 5)
             (sink_calls s ++ map (sink_call_of tk config) changed)).
Proof.
  intros Hnf Hbs Hne tracked urls run results changed urls_failed.
  destruct (process_urls_spec (net tk) (kwargs_of config) (pipeline s) urls Hbs) as [Hres _].
  fold run in Hres. split; [exact Hres|].
  unfold try_block.
  unfold mbind at 1. rewrite db_op_ok by (apply Hnf; lia).
  unfold mbind at 1. rewrite db_op_ok by (apply Hnf; cbn [ops]; lia).
  unfold mbind at 1, read_db at 1. cbn [db].
  fold tracked. rewrite match_nonempty by exact Hne.
  unfold mbind at 1, run_pipeline at 1. cbn [pipeline db ops sink_calls].
  fold urls. change (BatchProcessor.mkKwargs _ _ _ None None) with (kwargs_of config).
  fold run. destruct run as [r p] eqn:Hrun. cbn [fst snd] in Hres |- *. subst r.
  fold results.
  unfold mbind at 1. rewrite check_changes_ok by (intros k Hk; apply Hnf; cbn [ops] in Hk; lia).
  fold changed. cbn [db pipeline ops sink_calls].
  unfold mbind at 1. rewrite db_op_ok by (apply Hnf; cbn [ops]; lia).
  unfold mbind at 1. rewrite db_op_ok by (apply Hnf; cbn [ops]; lia).
  rewrite commit_ok by (apply Hnf; cbn [ops]; lia).
  cbn [db pipeline ops sink_calls]. fold urls_failed.
  rewrite Z.add_0_l. f_equal. f_equal. lia.
Qed.


Lemma Forall2_map_in {A} (R : A -> A -> Prop) (g : A -> A) (l : list A) :
  (forall x, In x l -> R x (g x)) -> Forall2 R l (map g l).
Proof.
  induction l as [|x l IH]; intros H; [constructor|].
  cbn [map]. constructor; [apply H; now left|]. apply IH. intros; apply H; now right.
Qed.

Lemma calls_for_map url (l : list (string * string)) :
  calls_for url (map (sink_call_of tk config) l)
  = map (sink_call_of tk config) (filter (fun x => (fst x =? url)%string) l).
Proof.
  unfold calls_for. induction l as [|[u c] l IH]; [reflexivity|].
  cbn [map filter sink_call_of sink_content fst snd].
  destruct (u =? url)%string; cbn [map]; now rewrite IH.
Qed.

Lemma in_tracked_cid d cid row :
  In row (select_tracked d cid) -> tu_config_id row = cid.
Proof.
  unfold select_tracked. rewrite filter_In. intros [_ H]. now apply Z.eqb_eq.
Qed.

(** A pass in which no database operation fails. *)
Lemma pass_spec s :
  no_fault_from tk (ops s) ->
  0 < BatchProcessor.batch_size (BatchProcessor.self (pipeline s)) ->
  select_tracked (db s) (cfg_id config) <> [] ->
  NoDup (map tu_url (select_tracked (db s) (cfg_id config))) ->
  let tracked := select_tracked (db s) (cfg_id config) in
  let value := fun u => BatchProcessor.process_url_value (net tk) u (kwargs_of config) in
  exists new_calls s',
    fst (BatchProcessor.process_urls (net tk) (pipeline s) (map tu_url tracked) (kwargs_of config))
    = Ok (map (fun u => (u, value u)) (map tu_url tracked))
    /\ _process_config tk config s = (Ok tt, s')
    /\ sink_calls s' = sink_calls s ++ new_calls
    /\ Forall2 (row_outcome tk config (map (fun u => (u, value u)) (map tu_url tracked)) new_calls)
               tracked (select_tracked (db s') (cfg_id config))
    /\ map tu_url (select_tracked (db s') (cfg_id config)) = map tu_url tracked
    /\ BatchProcessor.batch_size (BatchProcessor.self (pipeline s'))
       = BatchProcessor.batch_size (BatchProcessor.self (pipeline s))
    /\ sync_configurations (db s')
       = sync_configurations (update_last_sync (db s) (now tk) (cfg_id config))
    /\ exists record,
         sync_history (db s') = sync_history (db s) ++ [record]
         /\ h_status record = "completed"
         /\ h_urls_failed record
            = Z.of_nat (List.length (filter is_error (map value (map tu_url tracked)))).
Proof.
  intros Hnf Hbs Hne Hnd tracked value.
  destruct (try_block_ok s Hnf Hbs Hne) as [Hres Htry].
  fold tracked in Hres, Htry.
  set (urls := map tu_url tracked) in *.
  assert (Hresults : assigned value urls [] = map (fun u => (u, value u)) urls).
  { rewrite (assigned_nodup value urls []); [reflexivity | exact Hnd | intros x _ []]. }
  fold value in Hres, Htry. rewrite Hresults in Hres, Htry.
  set (results := map (fun u => (u, value u)) urls) in *.
  set (changed := changed_entries tracked results) in *.
  assert (Hkeys : keys results = urls).
  { unfold results, keys. rewrite map_map. cbn [fst]. apply map_id. }
  assert (Hndc : NoDup (keys changed)).
  { apply nodup_keys_filter. now rewrite Hkeys. }
  exists (map (sink_call_of tk config) changed).
  eexists. split; [exact Hres|].
  split; [unfold _process_config; rewrite Htry; reflexivity|].
  cbn [sink_calls db pipeline].
  split; [reflexivity|].
  destruct (tracked_persist_all tk (cfg_id config) changed (db s)) as (Htr & Hcf & Hhi).
  assert (Hsel : select_tracked
                   (update_last_sync
                      (insert_history (persist_all tk (cfg_id config) changed (db s))
                         (mkHistory (cfg_id config) "completed"
                            (status_message (Z.of_nat (List.length results))
                               (Z.of_nat (List.length changed))
                               (Z.of_nat (List.length (filter is_error (values results)))))
                            (Z.of_nat (List.length results))
                            (Z.of_nat (List.length (filter is_error (values results))))
                            (now tk)))
                      (now tk) (cfg_id config))
                   (cfg_id config)
                 = map (persist_rows tk (cfg_id config) changed) tracked).
  { unfold select_tracked at 1.
    cbn [update_last_sync insert_history tracked_urls]. rewrite Htr.
    apply select_tracked_map. intros row. apply persist_rows_ids. }
  rewrite Hsel.
  split; [|split; [|split; [|split]]].
  - apply Forall2_map_in. intros row Hrow.
    pose proof (in_tracked_cid _ _ _ Hrow) as Hcid.
    assert (Hu : In (tu_url row) urls) by (now apply in_map).
    assert (Hin : In (tu_url row, value (tu_url row)) results).
    { unfold results. apply in_map_iff. now exists (tu_url row). }
    exists (value (tu_url row)). split.
    { apply in_dict_get; [now rewrite Hkeys | exact Hin]. }
    destruct (changed_b tracked (tu_url row, value (tu_url row))) eqn:Hch.
    + left. assert (Hc : In (tu_url row, value (tu_url row)) changed).
      { apply filter_In. now split. }
      unfold changed_b in Hch. cbn [fst snd] in Hch.
      apply andb_true_iff in Hch as [Herr Hdiff].
      rewrite (old_hash_of_row tracked row Hnd Hrow) in Hdiff.
      split; [now destruct (is_error _)|].
      split; [now apply hash_differs_spec|].
      split; [now apply persist_rows_present|].
      rewrite calls_for_map, (filter_key_unique changed _ _ Hndc Hc). reflexivity.
    + right. assert (Hnc : ~ In (tu_url row) (keys changed)).
      { intros Hk. apply in_keys_value in Hk as [c Hc].
        apply filter_In in Hc as [Hc Hb].
        unfold results in Hc. apply in_map_iff in Hc as (u & [= Hu1 Hu2] & _).
        rewrite <- Hu2, Hu1 in Hb. congruence. }
      unfold changed_b in Hch. cbn [fst snd] in Hch.
      rewrite (old_hash_of_row tracked row Hnd Hrow) in Hch.
      split; [|split].
      * apply andb_false_iff in Hch as [Herr|Hdiff].
        -- left. now destruct (is_error _).
        -- right. intros Hsc. apply hash_differs_spec in Hsc. congruence.
      * now apply persist_rows_absent.
      * rewrite calls_for_map, filter_key_absent by exact Hnc. reflexivity.
  - rewrite map_map. apply map_ext. intros row. apply persist_rows_ids.
  - destruct (process_urls_spec (net tk) (kwargs_of config) (pipeline s) urls Hbs)
      as [_ (Hb & _)].
    exact Hb.
  - cbn [update_last_sync insert_history sync_configurations]. now rewrite Hcf.
  - eexists. cbn [update_last_sync insert_history sync_history]. rewrite Hhi.
    split; [reflexivity|]. split; [reflexivity|].
    cbn [h_urls_failed]. unfold results, values. now rewrite map_map.
Qed.

End PassSpec.

(** ** The scheduler: change detection *)

Section ChangeDetection.
Import Obs PassObs SyncManager.
Context {L : Libs}.

Lemma Forall2_in_l {A B} (R : A -> B -> Prop) l l' x :
  Forall2 R l l' -> In x l -> exists y, In y l' /\ R x y.
Proof.
  induction 1 as [|a b l l' Hab _ IH]; [intros []|].
  intros [->|Hin].
  - exists b. split; [now left | assumption].
  - destruct (IH Hin) as (y & Hy & Hxy). exists y. split; [now right | assumption].
Qed.

Lemma Forall2_in_r {A B} (R : A -> B -> Prop) l l' y :
  Forall2 R l l' -> In y l' -> exists x, In x l /\ R x y.
Proof.
  induction 1 as [|a b l l' Hab _ IH]; [intros []|].
  intros [->|Hin].
  - exists a. split; [now left | assumption].
  - destruct (IH Hin) as (x & Hx & Hxy). exists x. split; [now right | assumption].
Qed.

Lemma nodup_map_inj {A B} (g : A -> B) (l : list A) a b :
  NoDup (map g l) -> In a l -> In b l -> g a = g b -> a = b.
Proof.
  induction l as [|x l IH]; [intros _ []|].
  cbn [map]. intros Hnd Ha Hb Hg. apply NoDup_cons_iff in Hnd as [Hx Hnd].
  destruct Ha as [->|Ha], Hb as [->|Hb].
  - reflexivity.
  - exfalso. apply Hx. rewrite Hg. now apply in_map.
  - exfalso. apply Hx. rewrite <- Hg. now apply in_map.
  - now apply IH.
Qed.

Lemma dict_get_values (value : string -> string) urls u c :
  dict_get (map (fun u => (u, value u)) urls) u = Some c -> c = value u.
Proof.
  intros H. apply dict_get_in, in_map_iff in H as (x & [= -> <-] & _). reflexivity.
Qed.

(** What a row holds after a pass in which the content of its URL was not an
    error: the fingerprint of that content. *)
Lemma row_outcome_hash tk config value urls new_calls row row' :
  row_outcome tk config (map (fun u => (u, value u)) urls) new_calls row row' ->
  tu_url row' = tu_url row
  /\ (is_error (value (tu_url row)) = false ->
      tu_last_content_hash row' = Some (_compute_content_hash (value (tu_url row)))).
Proof.
  intros (content & Hget & Hcases). apply dict_get_values in Hget. subst content.
  destruct Hcases as [(_ & _ & -> & _)|(Hno & -> & _)].
  - split; [reflexivity|]. intros _. reflexivity.
  - split; [reflexivity|]. intros Herr. destruct Hno as [Hno|Hno]; [congruence|].
    unfold spec_changed in Hno.
    destruct (tu_last_content_hash row) as [h|].
    + destruct (string_dec h (_compute_content_hash (value (tu_url row)))) as [->|Hne];
        [reflexivity|].
      exfalso. apply Hno. congruence.
    + exfalso. apply Hno. discriminate.
Qed.

(** C1.  In a sync pass that completes, for every tracked URL whose
    extraction result is not an error, the URL is treated as changed if and
    only if the SHA-256 hex digest of the new text differs from the stored
    [last_content_hash], a missing stored hash counting as changed; for
    exactly the changed URLs the row receives the new hash and the time of
    the pass, and the sink is called once, with the URL and its content; for
    the others the row is as it was and the sink is not called.  In a second
    pass in which the URL comes to the same text, the sink is not called for
    it and its row stays as the first pass left it. *)
Theorem C1_change_detection (tk : Tick) (config : SyncConfig) (s : St) :
  no_fault_from tk (ops s) ->
  0 < BatchProcessor.batch_size (BatchProcessor.self (pipeline s)) ->
  select_tracked (db s) (cfg_id config) <> [] ->
  NoDup (map tu_url (select_tracked (db s) (cfg_id config))) ->
  let tracked := select_tracked (db s) (cfg_id config) in
  let value := fun u => BatchProcessor.process_url_value (net tk) u (kwargs_of config) in
  let results := map (fun u => (u, value u)) (map tu_url tracked) in
  (forall text, spec_changed None text)
  /\ exists new_calls s',
      fst (BatchProcessor.process_urls (net tk) (pipeline s) (map tu_url tracked)
             (kwargs_of config)) = Ok results
      /\ _process_config tk config s = (Ok tt, s')
      /\ sink_calls s' = sink_calls s ++ new_calls
      /\ Forall2 (row_outcome tk config results new_calls)
                 tracked (select_tracked (db s') (cfg_id config))
      /\ forall tk2,
           no_fault_from tk2 (ops s') ->
           exists calls2 s'',
             _process_config tk2 config s' = (Ok tt, s'')
             /\ sink_calls s'' = sink_calls s' ++ calls2
             /\ forall row,
                  In row tracked ->
                  is_error (value (tu_url row)) = false ->
                  BatchProcessor.process_url_value (net tk2) (tu_url row) (kwargs_of config)
                  = value (tu_url row) ->
                  calls_for (tu_url row) calls2 = []
                  /\ forall r, In r (select_tracked (db s') (cfg_id config)) ->
                               tu_url r = tu_url row ->
                               In r (select_tracked (db s'') (cfg_id config)).
Proof.
  intros Hnf Hbs Hne Hnd tracked value results.
  split; [intros text; discriminate|].
  destruct (pass_spec tk config s Hnf Hbs Hne Hnd)
    as (new_calls & s' & Hres & Hrun & Hcalls & Hrows & Hurls & Hbs' & _).
  fold tracked value results in Hres, Hrows, Hurls.
  exists new_calls, s'. repeat (split; [assumption|]).
  intros tk2 Hnf2.
  assert (Hne' : select_tracked (db s') (cfg_id config) <> []).
  { intros Hnil. apply Hne. apply map_eq_nil with (f := tu_url).
    fold tracked. now rewrite <- Hurls, Hnil. }
  assert (Hnd' : NoDup (map tu_url (select_tracked (db s') (cfg_id config))))
    by (rewrite Hurls; exact Hnd).
  assert (Hbs2 : 0 < BatchProcessor.batch_size (BatchProcessor.self (pipeline s')))
    by (rewrite Hbs'; exact Hbs).
  destruct (pass_spec tk2 config s' Hnf2 Hbs2 Hne' Hnd')
    as (calls2 & s'' & _ & Hrun2 & Hcalls2 & Hrows2 & _).
  exists calls2, s''. repeat (split; [assumption|]).
  intros row Hrow Hok Hsame.
  assert (Hr : forall r, In r (select_tracked (db s') (cfg_id config)) ->
                         tu_url r = tu_url row ->
                         calls_for (tu_url row) calls2 = []
                         /\ In r (select_tracked (db s'') (cfg_id config))).
  { intros r Hr Hu.
    destruct (Forall2_in_r _ _ _ _ Hrows Hr) as (row0 & Hrow0 & Hout).
    destruct (row_outcome_hash _ _ _ _ _ _ _ Hout) as [Hu0 Hhash].
    assert (row0 = row).
    { apply (nodup_map_inj tu_url tracked); try assumption. congruence. }
    subst row0. specialize (Hhash Hok).
    destruct (Forall2_in_l _ _ _ _ Hrows2 Hr) as (r2 & Hr2 & content & Hget & Hcases).
    apply dict_get_values in Hget. rewrite Hu, Hsame in Hget. subst content.
    destruct Hcases as [(_ & Hch & _)|(_ & -> & Hnone)].
    - exfalso. apply Hch. exact Hhash.
    - rewrite Hu in Hnone. now split. }
  destruct (Forall2_in_l _ _ _ _ Hrows Hrow) as (r & Hr0 & Hout).
  destruct (row_outcome_hash _ _ _ _ _ _ _ Hout) as [Hu _].
  split.
  - exact (proj1 (Hr r Hr0 Hu)).
  - intros r' Hr' Hu'. exact (proj2 (Hr r' Hr' Hu')).
Qed.

End ChangeDetection.

(** ** The scheduler: due configurations and failed passes *)

Section Scheduler.
Import Obs PassObs SyncManager.
Context {L : Libs}.

Lemma is_due_spec now c : is_due now c = true <-> spec_due now c.
Proof.
  unfold is_due, spec_due. destruct (cfg_active c); cbn [andb].
  - destruct (cfg_last_sync c) as [last|].
    + destruct (Z.ltb_spec (minutes (cfg_sync_interval c)) (now - last)).
      * split; [|reflexivity]. intros _. split; [reflexivity|]. right.
        exists last. split; [reflexivity | lia].
      * split; [discriminate|]. intros [_ [Hn|(l & [= <-] & Hgt)]]; [discriminate | lia].
    + split; [|reflexivity]. intros _. split; [reflexivity | now left].
  - split; [discriminate | intros [H _]; discriminate].
Qed.

Lemma is_due_later now now' c : is_due now c = true -> now <= now' -> is_due now' c = true.
Proof.
  unfold is_due. destruct (cfg_active c); [|discriminate]. cbn [andb].
  destruct (cfg_last_sync c) as [last|]; [|reflexivity].
  rewrite !Z.ltb_lt. lia.
Qed.

(** C2.  A scheduler tick selects a configuration exactly when it is in the
    table, [active] is true and [last_sync] is null or
    [now - last_sync > sync_interval] minutes; with an interval of 30, a last
    sync 31 minutes ago makes it due and one 29 minutes ago does not; a null
    [last_sync] always makes an active configuration due; and the
    configurations a cycle processes are the selected ones. *)
Theorem C2_due_selection :
  (forall now d c,
      In c (select_due now d) <-> In c (sync_configurations d) /\ spec_due now c)
  /\ (forall now c,
        cfg_sync_interval c = 30 -> cfg_active c = true ->
        (cfg_last_sync c = Some (now - minutes 31) -> is_due now c = true)
        /\ (cfg_last_sync c = Some (now - minutes 29) -> is_due now c = false))
  /\ (forall now c, cfg_active c = true -> cfg_last_sync c = None -> is_due now c = true)
  /\ (forall tk s,
        db_fault tk (ops s) = None -> db_fault tk (S (ops s)) = None ->
        run_sync_cycle tk s
        = gather tk (select_due (now tk) (db s))
                 (mkSt (db s) (pipeline s) (S (S (ops s))) (sink_calls s))).
Proof.
  split; [|split; [|split]].
  - intros now d c. unfold select_due. rewrite filter_In, is_due_spec. reflexivity.
  - intros now c Hi Ha. unfold is_due. rewrite Ha, Hi. cbn [andb]. split; intros ->.
    + apply Z.ltb_lt. unfold minutes. lia.
    + apply Z.ltb_ge. unfold minutes. lia.
  - intros now c Ha Hl. unfold is_due. now rewrite Ha, Hl.
  - intros tk s H0 H1. unfold run_sync_cycle.
    unfold mbind at 1. rewrite db_op_ok by assumption.
    unfold mbind at 1. rewrite db_op_ok by assumption.
    reflexivity.
Qed.

Lemma except_block_ok tk config e s :
  db_fault tk (ops s) = None -> db_fault tk (S (ops s)) = None ->
  db_fault tk (S (S (ops s))) = None ->
  except_block tk config e s
  = (Ok tt, mkSt (insert_history (db s)
                    (mkHistory (cfg_id config) "error" (exc_msg e) 0 0 (now tk)))
                 (pipeline s) (S (S (S (ops s)))) (sink_calls s)).
Proof.
  intros H0 H1 H2. unfold except_block.
  unfold mbind at 1. rewrite db_op_ok by assumption.
  unfold mbind at 1. rewrite db_op_ok by assumption.
  unfold mbind at 1, read_db at 1. rewrite commit_ok by assumption. reflexivity.
Qed.

Lemma except_block_configs tk config e s r s' :
  except_block tk config e s = (r, s') ->
  sync_configurations (db s') = sync_configurations (db s).
Proof.
  destruct (db_fault tk (ops s)) eqn:F0.
  { unfold except_block. unfold mbind at 1, db_op at 1. rewrite F0.
    intros [= <- <-]. reflexivity. }
  destruct (db_fault tk (S (ops s))) eqn:F1.
  { unfold except_block. unfold mbind at 1. rewrite db_op_ok by assumption.
    unfold mbind at 1, db_op at 1. cbn [ops]. rewrite F1.
    intros [= <- <-]. reflexivity. }
  destruct (db_fault tk (S (S (ops s)))) eqn:F2.
  { unfold except_block. unfold mbind at 1. rewrite db_op_ok by assumption.
    unfold mbind at 1. rewrite db_op_ok by assumption.
    unfold mbind at 1, read_db at 1. unfold commit, mbind, db_op. cbn [ops]. rewrite F2.
    intros [= <- <-]. reflexivity. }
  rewrite except_block_ok by assumption. intros [= <- <-]. reflexivity.
Qed.

(** C9.  When the [try] block of a pass raises, the configurations (and so
    every [last_sync]) are as before the pass, whatever else happens; when the
    three operations of the [except] block succeed, the pass ends normally,
    the history has exactly one more record, with status [error], the message
    of the exception and both counts zero, nothing else in the database has
    changed, and a configuration that was due is still due at any later
    tick. *)
Theorem C9_failed_pass_leaves_last_sync
  (tk : Tick) (config : SyncConfig) (s s1 : St) (e : Exc) :
  try_block tk config s = (Raise e, s1) ->
  sync_configurations (db (snd (_process_config tk config s))) = sync_configurations (db s)
  /\ (db_fault tk (ops s1) = None -> db_fault tk (S (ops s1)) = None ->
      db_fault tk (S (S (ops s1))) = None ->
      exists s2,
        _process_config tk config s = (Ok tt, s2)
        /\ sync_history (db s2)
           = sync_history (db s)
             ++ [mkHistory (cfg_id config) "error" (exc_msg e) 0 0 (now tk)]
        /\ tracked_urls (db s2) = tracked_urls (db s)
        /\ sync_configurations (db s2) = sync_configurations (db s)
        /\ forall now',
             In config (sync_configurations (db s)) ->
             is_due (now tk) config = true -> now tk <= now' ->
             In config (select_due now' (db s2))).
Proof.
  intros Htry. pose proof (try_block_keeps_db tk config _ _ _ Htry) as Hdb.
  unfold _process_config. rewrite Htry. split.
  - destruct (except_block tk config e s1) as [r s'] eqn:Hex. cbn [snd].
    rewrite (except_block_configs _ _ _ _ _ _ Hex). now rewrite Hdb.
  - intros H0 H1 H2. rewrite except_block_ok by assumption.
    eexists. split; [reflexivity|]. cbn [db]. rewrite Hdb.
    cbn [insert_history sync_history tracked_urls sync_configurations].
    repeat (split; [reflexivity|]).
    intros now' Hin Hdue Hle. unfold select_due. cbn [sync_configurations].
    apply filter_In. split; [assumption|]. now apply (is_due_later (now tk)).
Qed.

End Scheduler.

(** ** The claims on the per-URL steps, the dispatch and the failures *)

Section PipelineClaims.
Import Obs BatchProcessor.
Context {L : Libs}.


(** coda_pack.py: when the validation that opens each [try] block raises,
    nothing is downloaded and every URL is given the error as its value. *)
Lemma extract_loop_invalid w cs code ex e urls : forall results fetched,
  CodaPack.validate cs code ex = Raise e ->
  CodaPack.extract_loop w cs code ex urls results fetched
  = (assigned (fun _ => ("Error: " ++ exc_msg e)%string) urls results, fetched).
Proof.
  induction urls as [|u urls IH]; intros results fetched Hv; [reflexivity|].
  cbn [CodaPack.extract_loop]. unfold CodaPack.extract_one_try. rewrite Hv.
  rewrite IH by assumption. reflexivity.
Qed.

(** C6 (as the code has it).  Every exception raised while a URL is
    processed is caught and becomes the value [Error: <message>] of that URL;
    [process_urls] returns the mapping with a value for every input URL and
    raises in one case only, a batch size of zero, before any task is
    started.  An invalid selector is such an exception and no more: the page
    is requested first, and the selector's error is then the value of the
    URL.  Selectors are checked before the download only in
    [extract_content] of coda_pack.py, and there too the outcome is a value:
    when [CSSSelector] rejects a selector, every URL is given the error and
    nothing is downloaded. *)
Theorem C6_errors_are_values (w : World) (st : St) (urls : list string) (kw : Kwargs) :
  (forall u e,
      process_url_try w u kw = Raise e ->
      process_url_value w u kw = ("Error: " ++ exc_msg e)%string)
  /\ match fst (process_urls w st urls kw) with
     | Ok results =>
         batch_size (self st) <> 0
         /\ (0 < batch_size (self st) ->
             forall u, In u urls -> dict_get results u = Some (process_url_value w u kw))
     | Raise e =>
         batch_size (self st) = 0 /\ e = ZeroDivisionError
         /\ snd (process_urls w st urls kw) = st
     end
  /\ (forall u html selector e,
        0 < batch_size (self st) -> In u urls ->
        session_get w (BatchProcessor.request u) = Response 200 (Ok html) ->
        content_selector kw = Some (SelStr selector) -> selector <> "" ->
        soup_select (BeautifulSoup html) selector = Raise e ->
        process_url_value w u kw = ("Error: " ++ exc_msg e)%string
        /\ exists tr, trace (snd (process_urls w st urls kw)) = trace st ++ tr
                      /\ In (BatchProcessor.request u) (requests tr))
  /\ (forall cs code ex e,
        CodaPack.validate (CodaPack.as_list cs) code ex = Raise e ->
        snd (CodaPack.extract_content w urls cs code ex) = []
        /\ forall u, In u urls ->
                     dict_get (fst (CodaPack.extract_content w urls cs code ex)) u
                     = Some ("Error: " ++ exc_msg e)%string).
Proof.
  split; [intros u e; apply value_of_raise|]. split; [|split].
  - destruct (Z.eq_dec (batch_size (self st)) 0) as [H0|Hne].
    + rewrite (process_urls_zero w st urls kw H0). cbn [fst snd]. now repeat split.
    + destruct (fst (process_urls w st urls kw)) as [results|e] eqn:Hrun.
      * split; [assumption|]. intros Hbs u Hu.
        destruct (process_urls_spec w kw st urls Hbs) as [Hres _].
        rewrite Hrun in Hres. injection Hres as ->.
        apply dict_get_assigned; [apply consistent_nil | constructor | now right].
      * apply process_urls_raises in Hrun as [H0 _]. contradiction.
  - intros u html selector e Hbs Hu Hget Hsel Hne Hraise.
    split; [now apply (value_invalid_selector w u kw html selector e)|].
    destruct (process_urls_spec w kw st urls Hbs) as [_ (_ & _ & _ & tr & Htr & _ & Hreq)].
    cbn [trace] in Htr. exists tr. split; [exact Htr|].
    rewrite Hreq. apply in_map. apply filter_In. split; [assumption|].
    now apply (suspends_response w u 200 (Ok html)).
  - intros cs code ex e Hv. unfold CodaPack.extract_content.
    rewrite (extract_loop_invalid w _ code ex e urls [] [] Hv). cbn [fst snd].
    split; [reflexivity|]. intros u Hu.
    apply (dict_get_assigned (fun _ => ("Error: " ++ exc_msg e)%string));
      [apply consistent_nil | constructor | now right].
Qed.

End PipelineClaims.

(** ** Fetches in flight *)

Section InFlight.
Import Obs BatchProcessor.
Context {L : Libs}.
Variable w : World.

Lemma flight_step_mono s e : (snd s <= snd (flight_step s e))%nat.
Proof. destruct e; cbn [flight_step snd]; lia. Qed.

Lemma flight_mono tr : forall s, (snd s <= snd (fold_left flight_step tr s))%nat.
Proof.
  induction tr as [|e tr IH]; intros s; [reflexivity|].
  cbn [fold_left]. etransitivity; [apply flight_step_mono | apply IH].
Qed.

(** The events of the first runs of tasks that all suspend. *)
Lemma starts_trace urls : forall st,
  (forall u, In u urls -> suspends w u = true) ->
  trace (fold_left (start w) urls st)
  = trace st ++ flat_map (fun u => [EvStart u; EvRequest (BatchProcessor.request u)]) urls.
Proof.
  induction urls as [|u urls IH]; intros st Hs.
  - simpl. now rewrite app_nil_r.
  - cbn [fold_left flat_map]. rewrite IH by (intros; apply Hs; now right).
    unfold start. rewrite (Hs u (or_introl eq_refl)). cbn [emit trace].
    rewrite <- !app_assoc. reflexivity.
Qed.

(** After them, every one of the fetches is in flight. *)
Lemma starts_in_flight urls : forall s,
  (List.length (fst s) <= snd s)%nat ->
  let s' := fold_left flight_step
              (flat_map (fun u => [EvStart u; EvRequest (BatchProcessor.request u)]) urls) s in
  List.length (fst s') = (List.length (fst s) + List.length urls)%nat
  /\ (List.length (fst s') <= snd s')%nat.
Proof.
  induction urls as [|u urls IH]; intros s Hinv.
  - simpl. split; [lia | exact Hinv].
  - cbn [flat_map app fold_left flight_step].
    match goal with
    | |- context [fold_left flight_step _ ?s1] =>
        destruct (IH s1) as [Hlen Hle]; [cbn [fst snd List.length]; lia|]
    end.
    cbv zeta. split; [rewrite Hlen; cbn [fst List.length]; lia | exact Hle].
Qed.

Lemma drain_trace fuel : forall pending st,
  exists tr, trace (drain w fuel pending st) = trace st ++ tr.
Proof.
  induction fuel as [|fuel IH]; intros pending st.
  - exists []. now rewrite app_nil_r.
  - destruct pending as [|p pending]; [exists []; now rewrite app_nil_r|].
    cbn [drain]. match goal with |- context [drain w fuel ?l ?s] => destruct (IH l s) as [tr Htr] end.
    eexists. rewrite Htr. cbn [finish trace]. rewrite <- app_assoc. reflexivity.
Qed.

(** Within one chunk, whatever [max_concurrent] is, the fetches of all the
    tasks that suspend are in flight together. *)
Lemma process_batch_in_flight st urls kw :
  (forall u, In u urls -> suspends w u = true) ->
  exists tr,
    trace (snd (process_batch w st urls kw)) = trace st ++ tr
    /\ (List.length urls <= in_flight_peak tr)%nat.
Proof.
  intros Hs. unfold process_batch. cbn [snd trace].
  match goal with
  | |- context [drain w ?n ?l ?s] => destruct (drain_trace n l s) as [tr2 Htr2]
  end.
  rewrite starts_trace in Htr2 by assumption.
  eexists. split; [rewrite Htr2, <- app_assoc; reflexivity|].
  unfold in_flight_peak. rewrite fold_left_app.
  destruct (starts_in_flight urls ([], O)) as [Hlen Hle]; [cbn; lia|].
  cbv zeta in Hlen, Hle. cbn [fst List.length Nat.add] in Hlen.
  etransitivity; [|apply flight_mono]. lia.
Qed.

End InFlight.

(** ** Runs on concrete inputs *)

Section Concrete.
Import Obs PassObs BatchProcessor.
#[local] Existing Instance Fixture.libs.


(** C5, at the failing input.  [max_concurrent] has no effect on a run;
    within a chunk the fetches of all the tasks are in flight together, so
    their number is the size of the chunk, not [max_concurrent]; with the
    default processor (batch size 10, [max_concurrent] 5) ten URLs are all in
    flight at once. *)
Theorem C5_max_concurrent_is_not_enforced :
  (forall (L : Libs) w st urls kw m,
      process_urls w (set_max m st) urls kw
      = (fst (process_urls w st urls kw), set_max m (snd (process_urls w st urls kw))))
  /\ (forall (L : Libs) w st urls kw,
        (forall u, In u urls -> suspends w u = true) ->
        exists tr,
          trace (snd (process_batch w st urls kw)) = trace st ++ tr
          /\ (List.length urls <= in_flight_peak tr)%nat)
  /\ max_concurrent default = 5
  /\ List.length Fixture.ten_urls = 10%nat
  /\ in_flight_peak
       (trace (snd (process_urls_sync (L := Fixture.libs) (Fixture.site Fixture.ten_pages)
                      Fixture.ten_urls no_kwargs)))
     = 10%nat.
Proof.
  split; [intros L0 w st urls kw m; apply process_urls_set_max|].
  split; [intros L0 w st urls kw; apply process_batch_in_flight|].
  repeat split; vm_compute; reflexivity.
Qed.

(** C6, refuted as stated: with an invalid selector the pipeline does not
    fail, and it does not stop before the network: the page is requested and
    the URL is mapped to the selector's error.  (In [extract_content] a
    selector that [CSSSelector] rejects stops the download, and the outcome is
    again a value of the mapping.) *)
Lemma C6_counterexample :
  fst (process_urls_sync (Fixture.site Fixture.pages2) ["https://short.example"]
         (mkKwargs (Some (SelStr "div[")) None None None None))
  = Ok [("https://short.example", "Error: Malformed attribute selector at position 3")]
  /\ requests (trace (snd (process_urls_sync (Fixture.site Fixture.pages2)
                             ["https://short.example"]
                             (mkKwargs (Some (SelStr "div[")) None None None None))))
     = [BatchProcessor.request "https://short.example"]
  /\ CodaPack.valid_css_selector "h1, h2" = false
  /\ CodaPack.extract_content (Fixture.site Fixture.pages2) ["https://short.example"]
       (Some (SelStr "h1, h2")) None None
     = ([("https://short.example",
          "Error: 1 validation error: Invalid CSS selector: h1, h2")], []).
Proof. repeat split; vm_compute; reflexivity. Qed.


End Concrete.

(** ** The sentinel for pages without content *)

Section Sentinel.
Import Obs PassObs BatchProcessor SyncManager.
Context {L : Libs}.

(** C10.  When the selectors match nothing, or when no selector is given and
    the generic extractor returns nothing, [process_url] maps the URL to the
    string [No content found], whatever the search query and the content
    filters are; that string is not an error for the sync pass, which does not
    count it as failed; the pass fingerprints it like any content, and when
    the stored hash is not its fingerprint (a first sync, for one) the row
    receives that fingerprint and the sink is called once with the URL and
    the sentinel. *)
Theorem C10_no_content_sentinel :
  (forall w url kw html,
      session_get w (BatchProcessor.request url) = Response 200 (Ok html) ->
      selects_nothing html kw \/ extracts_nothing html kw ->
      process_url_value w url kw = NO_CONTENT)
  /\ (forall kw, filter_text NO_CONTENT kw = Ok NO_CONTENT)
  /\ is_error NO_CONTENT = false
  /\ (forall tk config s row,
        no_fault_from tk (ops s) ->
        0 < batch_size (self (pipeline s)) ->
        NoDup (map tu_url (select_tracked (db s) (cfg_id config))) ->
        In row (select_tracked (db s) (cfg_id config)) ->
        process_url_value (net tk) (tu_url row) (kwargs_of config) = NO_CONTENT ->
        exists new_calls s' record,
          _process_config tk config s = (Ok tt, s')
          /\ sink_calls s' = sink_calls s ++ new_calls
          /\ sync_history (db s') = sync_history (db s) ++ [record]
          /\ h_urls_failed record
             = Z.of_nat (List.length
                           (filter is_error
                              (map (fun u => process_url_value (net tk) u (kwargs_of config))
                                   (map tu_url (select_tracked (db s) (cfg_id config))))))
          /\ (tu_last_content_hash row <> Some (_compute_content_hash NO_CONTENT) ->
              calls_for (tu_url row) new_calls
              = [sink_call_of tk config (tu_url row, NO_CONTENT)]
              /\ In (mkTracked (tu_config_id row) (tu_url row)
                               (Some (_compute_content_hash NO_CONTENT)) (Some (now tk)))
                    (select_tracked (db s') (cfg_id config)))).
Proof.
  split; [|split; [|split]].
  - intros w url kw html Hget [Hnone|Hnone].
    + apply (value_sentinel w url kw html Hget).
      now apply extract_text_nothing_selected.
    + apply (value_sentinel w url kw html Hget).
      now apply extract_text_nothing_generic.
  - apply filter_text_sentinel.
  - reflexivity.
  - intros tk config s row Hnf Hbs Hnd Hrow Hval.
    assert (Hne : select_tracked (db s) (cfg_id config) <> [])
      by (intros Hnil; rewrite Hnil in Hrow; destruct Hrow).
    destruct (pass_spec tk config s Hnf Hbs Hne Hnd)
      as (new_calls & s' & _ & Hrun & Hcalls & Hrows & _ & _ & _ & record & Hhist & _ & Hfailed).
    exists new_calls, s', record. repeat (split; [assumption|]).
    intros Hstored.
    destruct (Forall2_in_l _ _ _ _ Hrows Hrow) as (row' & Hrow' & content & Hget & Hcases).
    apply dict_get_values in Hget. rewrite Hval in Hget. subst content.
    destruct Hcases as [(_ & _ & -> & Hc)|([Herr|Hno] & _)].
    + split; assumption.
    + discriminate.
    + exfalso. apply Hno. exact Hstored.
Qed.

End Sentinel.

Section ConcretePasses.
Import Obs PassObs BatchProcessor SyncManager.
#[local] Existing Instance Fixture.libs.

Lemma C1_witness :
  exists new_calls s',
    _process_config Fixture.tick1 Fixture.config1 (init Fixture.db1) = (Ok tt, s')
    /\ sink_calls s' = [] ++ new_calls
    /\ Forall2 (row_outcome Fixture.tick1 Fixture.config1
                  (map (fun u => (u, process_url_value (net Fixture.tick1) u
                                       (kwargs_of Fixture.config1)))
                       (map tu_url (select_tracked Fixture.db1 1)))
                  new_calls)
               (select_tracked Fixture.db1 1) (select_tracked (db s') 1).
Proof.
  destruct (C1_change_detection Fixture.tick1 Fixture.config1 (init Fixture.db1))
    as [_ (new_calls & s' & _ & Hrun & Hcalls & Hrows & _)].
  - intros k _. reflexivity.
  - reflexivity.
  - vm_compute. discriminate.
  - vm_compute. repeat constructor; simpl; intuition discriminate.
  - exists new_calls, s'. repeat split; assumption.
Defined.

(** The first pass of the fixture: one sink call, for the URL never synced;
    a second pass over the same pages: none. *)
Example first_and_second_pass :
  let s1 := snd (_process_config Fixture.tick1 Fixture.config1 (init Fixture.db1)) in
  let s2 := snd (_process_config Fixture.tick1 Fixture.config1 s1) in
  sink_calls s1 = [mkSink "doc-1" "Pages - 1000" [("https://a.example", "text of a")]]
  /\ sink_calls s2 = sink_calls s1
  /\ tracked_urls (db s2) = tracked_urls (db s1).
Proof. vm_compute. repeat split. Qed.

Lemma C9_witness :
  exists s2,
    _process_config (mkTick (Fixture.site Fixture.pages1) 2000 (Fixture.fault_at 3 "deadlock"))
      Fixture.config1 (init Fixture.db1) = (Ok tt, s2)
    /\ sync_history (db s2) = [mkHistory 1 "error" "deadlock" 0 0 2000]
    /\ sync_configurations (db s2) = [Fixture.config1]
    /\ In Fixture.config1 (select_due 2060 (db s2)).
Proof.
  destruct (C9_failed_pass_leaves_last_sync
              (mkTick (Fixture.site Fixture.pages1) 2000 (Fixture.fault_at 3 "deadlock"))
              Fixture.config1 (init Fixture.db1)
              (snd (try_block (mkTick (Fixture.site Fixture.pages1) 2000
                                 (Fixture.fault_at 3 "deadlock"))
                      Fixture.config1 (init Fixture.db1)))
              (mkExc false "deadlock"))
    as [_ H].
  - vm_compute. reflexivity.
  - destruct H as (s2 & Hrun & Hhist & _ & Hcfg & Hdue); try reflexivity.
    exists s2. split; [exact Hrun|]. split; [exact Hhist|]. split; [exact Hcfg|].
    apply Hdue; [now left | reflexivity | vm_compute; discriminate].
Defined.

Lemma C10_witness :
  process_url_value (Fixture.site Fixture.pages2) "https://blank.example"
    (kwargs_of Fixture.config2) = "No content found"
  /\ exists new_calls s' record,
      _process_config Fixture.tick2 Fixture.config2 (init Fixture.db2) = (Ok tt, s')
      /\ sink_calls s' = [] ++ new_calls
      /\ sync_history (db s') = [] ++ [record]
      /\ h_urls_failed record = 0
      /\ calls_for "https://blank.example" new_calls
         = [mkSink "doc-2" "Blank - 1000" [("https://blank.example", "No content found")]].
Proof.
  destruct C10_no_content_sentinel as (Hvalue & _ & _ & Hpass).
  split.
  - apply (Hvalue (Fixture.site Fixture.pages2) "https://blank.example"
             (kwargs_of Fixture.config2) "   "); [reflexivity|].
    right. split; [reflexivity | left; reflexivity].
  - destruct (Hpass Fixture.tick2 Fixture.config2 (init Fixture.db2)
                (mkTracked 2 "https://blank.example" None None))
      as (new_calls & s' & record & Hrun & Hcalls & Hhist & Hfailed & Hsink).
    + intros k _. reflexivity.
    + reflexivity.
    + vm_compute. repeat constructor; simpl; intuition.
    + now left.
    + vm_compute. reflexivity.
    + exists new_calls, s', record.
      split; [exact Hrun|]. split; [exact Hcalls|]. split; [exact Hhist|].
      split; [rewrite Hfailed; vm_compute; reflexivity|].
      apply Hsink. discriminate.
Defined.

(** C7, refuted as stated: the page holds a text of length 5; with the
    filters [contains] and [min_length] supplied in that order the rejection
    reported is the one of [contains]; supplied in the other order, the one of
    [min_length]. *)
Lemma C7_counterexample :
  len "hello" = 5
  /\ apply_filters "hello" [("contains", "x"); ("min_length", "10")]
     = Ok (Some "Content filtered: Does not contain 'x'")
  /\ fst (process_urls_sync (Fixture.site Fixture.pages2) ["https://short.example"]
            (mkKwargs None None None None (Some [("contains", "x"); ("min_length", "10")])))
     = Ok [("https://short.example", "Content filtered: Does not contain 'x'")]
  /\ fst (process_urls_sync (Fixture.site Fixture.pages2) ["https://short.example"]
            (mkKwargs None None None None (Some [("min_length", "10"); ("contains", "x")])))
     = Ok [("https://short.example", "Content filtered: Too short (min: 10)")].
Proof. repeat split; vm_compute; reflexivity. Qed.

End ConcretePasses.

(* ================================================================= *)
(** * Properties of the other functions *)

(** ** template_manager.py *)

Section Headings.
Import TemplateManager StrObs.

Lemma all_chars_app p a b : all_chars p (a ++ b) = all_chars p a && all_chars p b.
Proof. induction a as [|c a IH]; cbn; [reflexivity|]. now rewrite IH, andb_assoc. Qed.

Lemma no_newline_cons c rest :
  no_newline (String c rest) = negb (Ascii.eqb c Str.newline) && no_newline rest.
Proof. reflexivity. Qed.

Lemma dot_plus_plain s : no_newline s = true -> s <> "" -> dot_plus s = Some s.
Proof.
  induction s as [|c rest IH]; intros Hnl Hne; [contradiction|].
  rewrite no_newline_cons in Hnl. apply andb_prop in Hnl as [Hc Hrest].
  cbn [dot_plus]. destruct (Ascii.eqb c Str.newline); [discriminate|].
  destruct rest as [|d rest']; [reflexivity|].
  assert (Hd : Ascii.eqb d Str.newline = false).
  { rewrite no_newline_cons in Hrest. apply andb_prop in Hrest as [Hd _].
    now destruct (Ascii.eqb d Str.newline). }
  rewrite Hd. cbn [andb]. rewrite IH; [reflexivity|exact Hrest|discriminate].
Qed.

Lemma spaces_then_sound s : forall text,
  no_newline s = true -> spaces_then s = Some text ->
  exists ws, s = (ws ++ text)%string /\ ws <> "" /\ all_chars isspace ws = true /\ text <> "".
Proof.
  induction s as [|c rest IH]; intros text Hnl H; [discriminate|].
  rewrite no_newline_cons in Hnl. apply andb_prop in Hnl as [_ Hrest].
  cbn [spaces_then] in H. destruct (isspace c) eqn:Hc; [|discriminate].
  destruct (spaces_then rest) as [t|] eqn:Hs.
  - injection H as ->. destruct (IH _ Hrest eq_refl) as (ws & -> & _ & Hws & Ht).
    exists (String c ws). split; [reflexivity|]. split; [discriminate|].
    split; [|exact Ht]. cbn [all_chars]. now rewrite Hc.
  - destruct rest as [|d rest']; [discriminate|].
    rewrite dot_plus_plain in H by (assumption || discriminate). injection H as <-.
    exists (String c ""). split; [reflexivity|]. split; [discriminate|].
    split; [|discriminate]. cbn [all_chars]. now rewrite Hc.
Qed.

Lemma spaces_then_complete ws : forall rest,
  no_newline rest = true -> ws <> "" -> all_chars isspace ws = true -> rest <> "" ->
  spaces_then (ws ++ rest) <> None.
Proof.
  induction ws as [|c ws IH]; intros rest Hnl Hne Hws Hrest; [contradiction|].
  cbn in Hws. apply andb_prop in Hws as [Hc Hws].
  cbn [append spaces_then]. rewrite Hc.
  destruct (spaces_then (ws ++ rest)) eqn:Hs; [discriminate|].
  destruct ws as [|d ws'].
  - cbn [append] in *. rewrite dot_plus_plain by assumption. discriminate.
  - exfalso. apply (IH rest); auto. discriminate.
Qed.

Lemma append_nil_r (a : string) : (a ++ "")%string = a.
Proof. induction a; cbn; congruence. Qed.

Lemma append_assoc' (a b c : string) : ((a ++ b) ++ c = a ++ b ++ c)%string.
Proof. induction a; cbn; congruence. Qed.

Lemma heading_from_sound more : forall group1 s g1 g2,
  heading_from more group1 s = Some (g1, g2) ->
  exists b rest, (b <= more)%nat /\ g1 = (group1 ++ Str.times "#" b)%string
                 /\ s = (Str.times "#" b ++ rest)%string
                 /\ g1 <> "" /\ spaces_then rest = Some g2.
Proof.
  assert (Hstop : forall group1 s g1 g2,
             match group1 with
             | EmptyString => None
             | _ => option_map (pair group1) (spaces_then s)
             end = Some (g1, g2) ->
             exists b rest, (b <= 0)%nat /\ g1 = (group1 ++ Str.times "#" b)%string
                            /\ s = (Str.times "#" b ++ rest)%string
                            /\ g1 <> "" /\ spaces_then rest = Some g2).
  { intros group1 s g1 g2 H. destruct group1 as [|c g]; [discriminate|].
    destruct (spaces_then s) as [t|] eqn:Hs; [|discriminate]. cbn in H. injection H as <- <-.
    exists O, s. cbn [Str.times append]. rewrite append_nil_r.
    split; [lia|]. split; [reflexivity|]. split; [reflexivity|].
    split; [discriminate|exact Hs]. }
  induction more as [|more IH]; intros group1 s g1 g2 H.
  - cbn [heading_from] in H. destruct (Hstop _ _ _ _ H) as (b & rest & Hb & ?). exists b, rest. auto.
  - cbn [heading_from] in H. destruct s as [|c s'].
    + destruct (Hstop _ _ _ _ H) as (b & rest & Hb & ?). exists b, rest. split; [lia|auto].
    + destruct (Ascii.eqb_spec c "#") as [->|Hc].
      * destruct (heading_from more (group1 ++ "#") s') as [[h1 h2]|] eqn:Hrec.
        -- injection H as <- <-. destruct (IH _ _ _ _ Hrec) as (b & rest & Hb & -> & -> & Hne & Hsp).
           exists (S b), rest. split; [lia|]. split; [now rewrite append_assoc'|].
           split; [reflexivity|]. split; [exact Hne|exact Hsp].
        -- destruct (Hstop _ _ _ _ H) as (b & rest & Hb & ?). exists b, rest. split; [lia|auto].
      * destruct (Hstop _ _ _ _ H) as (b & rest & Hb & ?). exists b, rest. split; [lia|auto].
Qed.

Lemma space_not_hash c : isspace c = true -> Ascii.eqb c "#" = false.
Proof.
  intros H. destruct (Ascii.eqb_spec c "#") as [->|]; [|reflexivity].
  vm_compute in H. discriminate.
Qed.

Lemma heading_from_complete b : forall more group1 rest,
  (b <= more)%nat -> (group1 ++ Str.times "#" b)%string <> "" ->
  (forall c r, rest = String c r -> isspace c = true) ->
  spaces_then rest <> None ->
  heading_from more group1 (Str.times "#" b ++ rest) <> None.
Proof.
  induction b as [|b IH]; intros more group1 rest Hb Hne Hsp Hrest.
  - cbn [Str.times append] in *. rewrite append_nil_r in Hne.
    assert (Hstop : match group1 with
                    | EmptyString => None
                    | _ => option_map (pair group1) (spaces_then rest)
                    end <> None).
    { destruct group1; [contradiction|]. destruct (spaces_then rest); [discriminate|contradiction]. }
    destruct more as [|more]; cbn [heading_from].
    + destruct rest; exact Hstop.
    + destruct rest as [|c r]; [exact Hstop|].
      rewrite (space_not_hash c (Hsp c r eq_refl)). exact Hstop.
  - destruct more as [|more]; [lia|].
    cbn [Str.times append heading_from]. cbn [Ascii.eqb Bool.eqb].
    destruct (heading_from more (group1 ++ "#") (Str.times "#" b ++ rest)) eqn:Hrec; [discriminate|].
    exfalso. apply (IH more (group1 ++ "#")%string rest); auto; [lia|].
    rewrite append_assoc'. exact Hne.
Qed.
End Headings.

Section Toc.
Import TemplateManager TocObs.

Lemma split_char_cons sep s : exists piece pieces, Str.split_char sep s = piece :: pieces.
Proof.
  destruct s as [|c rest]; cbn [Str.split_char]; [eauto|].
  destruct (Ascii.eqb c sep); [eauto|].
  destruct (Str.split_char sep rest); eauto.
Qed.

Lemma join_cons_cons sep p q rest :
  join sep (p :: q :: rest) = (p ++ sep ++ join sep (q :: rest))%string.
Proof. reflexivity. Qed.

Lemma join_split_char s : join nl (Str.split_char Str.newline s) = s.
Proof.
  induction s as [|c rest IH]; [reflexivity|].
  cbn [Str.split_char].
  destruct (split_char_cons Str.newline rest) as (piece & pieces & Hs).
  rewrite Hs in IH |- *.
  destruct (Ascii.eqb_spec c Str.newline) as [->|Hc].
  - rewrite join_cons_cons, IH. reflexivity.
  - destruct pieces as [|q pieces].
    + cbn [join] in IH |- *. now rewrite IH.
    + rewrite join_cons_cons in IH |- *. cbn [append]. now rewrite IH.
Qed.

Lemma toc_loop_plain lines : forall toc_lines processed k,
  (forall line, In line lines -> heading_pattern_match line = None) ->
  toc_loop lines toc_lines processed k = (toc_lines, processed ++ lines).
Proof.
  induction lines as [|line rest IH]; intros toc_lines processed k Hnone.
  - cbn [toc_loop]. now rewrite app_nil_r.
  - cbn [toc_loop]. rewrite (Hnone line (or_introl eq_refl)).
    rewrite IH by (intros l Hl; apply Hnone; now right).
    now rewrite <- app_assoc.
Qed.

(** X1.  [_generate_toc] returns a content none of whose lines is a heading
    as it is, with an empty table of contents: splitting the content at the
    newlines and joining the lines again loses nothing. *)
Theorem X1_toc_of_plain_content content :
  (forall line, In line (Str.split_char Str.newline content) ->
                heading_pattern_match line = None) ->
  _generate_toc content = ("", content).
Proof.
  intros Hnone. unfold _generate_toc.
  rewrite (toc_loop_plain _ [] [] 0 Hnone). cbn [app].
  now rewrite join_split_char.
Qed.

End Toc.

Section Toc2.
Import TemplateManager TocObs TocObs.

Lemma str_of_int_inj j k : str_of_int j = str_of_int k -> j = k.
Proof.
  unfold str_of_int. intros H.
  assert (Hn : forall n, NilZero.int_of_string (NilZero.string_of_int (Z.to_int n))
                         = Some (Z.to_int n)).
  { intros n. apply NilZero.isi.
    - intros Hd. pose proof (DecimalZ.to_of (Z.to_int n)) as Hnorm.
      rewrite DecimalZ.of_to, Hd in Hnorm. discriminate.
    - intros Hd. pose proof (DecimalZ.to_of (Z.to_int n)) as Hnorm.
      rewrite DecimalZ.of_to, Hd in Hnorm. discriminate. }
  apply DecimalZ.to_int_inj.
  pose proof (Hn j) as Hj. rewrite H, Hn in Hj. congruence.
Qed.

Lemma toc_loop_closed lines : forall toc_lines processed k,
  toc_loop lines toc_lines processed k
  = (toc_lines ++ entries k (headings lines), processed ++ rewritten k lines).
Proof.
  induction lines as [|line rest IH]; intros toc_lines processed k.
  - cbn. now rewrite !app_nil_r.
  - cbn [toc_loop headings flat_map rewritten].
    destruct (heading_pattern_match line) as [[g1 g2]|].
    + rewrite IH. cbn [app entries]. now rewrite <- !app_assoc.
    + rewrite IH. cbn [app]. now rewrite <- !app_assoc.
Qed.

Lemma rewritten_length lines : forall k, List.length (rewritten k lines) = List.length lines.
Proof.
  induction lines as [|line rest IH]; intros k; [reflexivity|].
  cbn [rewritten]. destruct (heading_pattern_match line); cbn [List.length]; now rewrite IH.
Qed.

Lemma headings_cons line rest :
  headings (line :: rest)
  = (match heading_pattern_match line with Some m => [m] | None => [] end ++ headings rest)%list.
Proof. reflexivity. Qed.

Lemma rewritten_nth lines : forall k i line,
  nth_error lines i = Some line ->
  nth_error (rewritten k lines) i
  = Some match heading_pattern_match line with
         | Some m => anchored (k + Z.of_nat (List.length (headings (firstn i lines)))) m
         | None => line
         end.
Proof.
  induction lines as [|l rest IH]; intros k i line Hi.
  - destruct i; discriminate.
  - destruct i as [|i].
    + cbn in Hi. injection Hi as ->. cbn [rewritten firstn headings flat_map List.length].
      destruct (heading_pattern_match line); cbn [nth_error]; [|reflexivity].
      now rewrite Z.add_0_r.
    + cbn [nth_error] in Hi. cbn [rewritten firstn]. rewrite headings_cons.
      destruct (heading_pattern_match l) as [m|]; cbn [nth_error app].
      * rewrite (IH _ _ _ Hi). destruct (heading_pattern_match line); [|reflexivity].
        cbn [List.length]. do 2 f_equal. lia.
      * now rewrite (IH _ _ _ Hi).
Qed.

Lemma entries_nth hs : forall k j m,
  nth_error hs j = Some m ->
  nth_error (entries k hs) j = Some (toc_entry (k + Z.of_nat j) m).
Proof.
  induction hs as [|h rest IH]; intros k j m Hj.
  - destruct j; discriminate.
  - destruct j as [|j]; cbn [entries nth_error] in *.
    + injection Hj as ->. now rewrite Z.add_0_r.
    + rewrite (IH _ _ _ Hj). do 2 f_equal. lia.
Qed.

Lemma entries_length hs : forall k, List.length (entries k hs) = List.length hs.
Proof. induction hs as [|h rest IH]; intros k; cbn; [reflexivity|now rewrite IH]. Qed.

Lemma headings_app l1 l2 : headings (l1 ++ l2) = (headings l1 ++ headings l2)%list.
Proof. unfold headings. now rewrite flat_map_app. Qed.

(** The heading at line [i] is the heading number [length (headings (firstn i lines))]. *)
Lemma heading_position lines : forall i line m,
  nth_error lines i = Some line -> heading_pattern_match line = Some m ->
  nth_error (headings lines) (List.length (headings (firstn i lines))) = Some m.
Proof.
  intros i line m Hi Hm.
  destruct (nth_error_split lines i Hi) as (l1 & l2 & -> & Hlen).
  rewrite firstn_app, <- Hlen, Nat.sub_diag, firstn_all. cbn [firstn]. rewrite app_nil_r.
  rewrite headings_app, nth_error_app2 by lia. rewrite Nat.sub_diag.
  rewrite headings_cons, Hm. reflexivity.
Qed.

(** X2.  [_generate_toc] keeps the number of lines.  A line that is not a
    heading stays as it is, at its place.  The heading at line [i] is written
    with the anchor whose number is the count of headings before it, and the
    entry of that number in the table of contents links to the same anchor.
    The table has one entry per heading, and two numbers never give the same
    anchor id. *)
Theorem X2_toc_numbers_the_headings content :
  let lines := Str.split_char Str.newline content in
  let toc_lines := entries 0 (headings lines) in
  let processed := rewritten 0 lines in
  _generate_toc content
  = (match toc_lines with
     | [] => ""
     | _ => "## Table of Contents" ++ nl ++ join nl toc_lines
     end, join nl processed)%string
  /\ List.length processed = List.length lines
  /\ List.length toc_lines = List.length (headings lines)
  /\ (forall i line,
        nth_error lines i = Some line ->
        match heading_pattern_match line with
        | None => nth_error processed i = Some line
        | Some m =>
            let k := List.length (headings (firstn i lines)) in
            nth_error processed i = Some (anchored (Z.of_nat k) m)
            /\ nth_error toc_lines k = Some (toc_entry (Z.of_nat k) m)
        end)
  /\ (forall j k, heading_id j = heading_id k -> j = k).
Proof.
  intros lines toc_lines processed. split; [|split; [|split; [|split]]].
  - unfold _generate_toc. fold lines. rewrite toc_loop_closed. reflexivity.
  - apply rewritten_length.
  - apply entries_length.
  - intros i line Hi. pose proof (rewritten_nth lines 0 i line Hi) as Hr.
    destruct (heading_pattern_match line) as [m|] eqn:Hm; [|exact Hr].
    split; [exact Hr|].
    apply (entries_nth _ 0). now apply (heading_position lines i line).
  - intros j k H. unfold heading_id in H. cbn in H.
    apply str_of_int_inj. congruence.
Qed.
End Toc2.

Section Headings2.
Import TemplateManager StrObs.

Lemma split_char_no_newline s : forall line,
  In line (Str.split_char Str.newline s) -> no_newline line = true.
Proof.
  induction s as [|c rest IH]; intros line Hin.
  - destruct Hin as [<-|[]]. reflexivity.
  - cbn [Str.split_char] in Hin.
    destruct (Ascii.eqb c Str.newline) eqn:Hc.
    + destruct Hin as [<-|Hin]; [reflexivity|now apply IH].
    + destruct (Str.split_char Str.newline rest) as [|piece pieces].
      * destruct Hin as [<-|[]]. rewrite no_newline_cons, Hc. reflexivity.
      * destruct Hin as [<-|Hin].
        -- rewrite no_newline_cons, Hc. cbn [negb andb]. apply IH. now left.
        -- apply IH. now right.
Qed.

Lemma times_not_empty n : (1 <= n)%nat -> Str.times "#" n <> "".
Proof. destruct n; [lia|discriminate]. Qed.

(** X3.  Which lines of a content the heading pattern matches.  A line
    that matches is one to six characters U+0023, then whitespace, then at
    least one more character: the two groups and the whitespace between them
    make up the line.  Every line of that form matches, also one whose text
    after the whitespace is blank, as when the marker is followed by two
    blanks and nothing else; its heading text is then empty. *)
Theorem X3_heading_lines content line :
  In line (Str.split_char Str.newline content) ->
  (forall g1 g2,
      heading_pattern_match line = Some (g1, g2) ->
      exists n ws, (1 <= n <= 6)%nat /\ g1 = Str.times "#" n
                   /\ line = (g1 ++ ws ++ g2)%string
                   /\ ws <> "" /\ all_chars isspace ws = true /\ g2 <> "")
  /\ (forall n ws rest,
         (1 <= n <= 6)%nat -> line = (Str.times "#" n ++ ws ++ rest)%string ->
         ws <> "" -> all_chars isspace ws = true -> rest <> "" ->
         heading_pattern_match line <> None).
Proof.
  intros Hin. pose proof (split_char_no_newline _ _ Hin) as Hnl. split.
  - intros g1 g2 Hm. unfold heading_pattern_match in Hm.
    destruct (heading_from_sound _ _ _ _ _ Hm) as (b & rest & Hb & Hg1 & Hline & Hne & Hsp).
    cbn [append] in Hg1. subst g1 line.
    unfold no_newline in Hnl. rewrite all_chars_app in Hnl. apply andb_prop in Hnl as [_ Hrest].
    destruct (spaces_then_sound _ _ Hrest Hsp) as (ws & -> & Hws & Hall & Hg2).
    exists b, ws. split; [|auto].
    split; [|exact Hb]. destruct b; [contradiction|lia].
  - intros n ws rest Hn Hline Hws Hall Hrest. subst line.
    unfold no_newline in Hnl. rewrite !all_chars_app in Hnl.
    apply andb_prop in Hnl as [_ Hnl]. apply andb_prop in Hnl as [_ Hnl].
    unfold heading_pattern_match. apply heading_from_complete.
    + lia.
    + cbn [append]. apply times_not_empty. lia.
    + intros c r Hc. destruct ws as [|d ws']; [contradiction|].
      cbn [append] in Hc. injection Hc as <- _. cbn [all_chars] in Hall.
      now apply andb_prop in Hall as [Hd _].
    + now apply spaces_then_complete.
Qed.

Lemma X3_witness :
  (exists n ws, (1 <= n <= 6)%nat /\ "##" = Str.times "#" n
                /\ "##  Setup" = ("##" ++ ws ++ "Setup")%string
                /\ ws <> "" /\ all_chars isspace ws = true /\ "Setup" <> "")
  /\ heading_pattern_match "#  " <> None.
Proof.
  split.
  - apply (proj1 (X3_heading_lines "##  Setup" "##  Setup" (or_introl eq_refl)) "##" "Setup").
    reflexivity.
  - apply (proj2 (X3_heading_lines "#  " "#  " (or_introl eq_refl)) 1%nat " " " ");
      [lia|reflexivity|discriminate|reflexivity|discriminate].
Defined.
End Headings2.

Section Detect.
Import TemplateManager.

Lemma count_nonneg sub s : forall k, 0 <= Str.count sub k s.
Proof.
  induction s as [|c rest IH]; intros k; cbn [Str.count]; [lia|].
  destruct k; [|apply IH].
  destruct (String.prefix sub (String c rest)); [|apply IH].
  specialize (IH (String.length sub - 1)%nat). lia.
Qed.

Lemma count_zero sub s :
  sub <> "" -> (Str.count sub O s = 0 <-> is_substring sub s = false).
Proof.
  intros Hsub. induction s as [|c rest IH].
  - cbn. destruct sub; [contradiction|]. split; reflexivity.
  - rewrite is_substring_unfold. cbn [Str.count].
    destruct (String.prefix sub (String c rest)).
    + pose proof (count_nonneg sub rest (String.length sub - 1)). split; [lia|discriminate].
    + exact IH.
Qed.

Lemma score_zero indicators content :
  (forall ind, In ind indicators -> ind <> "") ->
  0 <= score indicators content
  /\ (score indicators content = 0
      <-> forall ind, In ind indicators -> is_substring ind content = false).
Proof.
  unfold score.
  assert (Hgen : forall l acc,
             (forall ind, In ind l -> ind <> "") -> 0 <= acc ->
             acc <= fold_left Z.add (map (fun ind => Str.count ind O content) l) acc
             /\ (fold_left Z.add (map (fun ind => Str.count ind O content) l) acc = acc
                 <-> forall ind, In ind l -> is_substring ind content = false)).
  { induction l as [|i l IH]; intros acc Hne Hacc.
    - cbn. split; [lia|]. split; [intros _ ind []|reflexivity].
    - cbn [map fold_left].
      pose proof (count_nonneg i content O) as Hi.
      destruct (IH (acc + Str.count i O content)) as [Hle Hiff];
        [intros ind Hind; apply Hne; now right|lia|].
      split; [lia|]. split.
      + intros Heq. assert (Hz : Str.count i O content = 0) by lia.
        rewrite Hz, Z.add_0_r in Hiff, Heq.
        intros ind [<-|Hind].
        * apply count_zero; [apply Hne; now left|exact Hz].
        * now apply (proj1 Hiff Heq).
      + intros Hall.
        assert (Hz : Str.count i O content = 0)
          by (apply count_zero; [apply Hne; now left|apply Hall; now left]).
        rewrite Hz, Z.add_0_r in Hiff |- *. apply Hiff. intros ind Hind. apply Hall. now right. }
  intros Hne. destruct (Hgen indicators 0 Hne (Z.le_refl 0)) as [Hle Hiff]. split; assumption.
Qed.

Lemma indicators_not_empty ind :
  In ind (code_block_indicators ++ doc_indicators ++ blog_indicators) -> ind <> "".
Proof.
  cbn. intros H.
  repeat (destruct H as [<-|H]; [discriminate|]). destruct H.
Qed.

Lemma detect_content_type_returns content : exists t, detect_content_type content = Ok t.
Proof.
  unfold detect_content_type. cbn [tl max_item fst snd].
  destruct (score code_block_indicators content <? score doc_indicators content); cbn [snd];
    match goal with
    | |- context [if ?a <? ?b then _ else _] => destruct (a <? b)
    end; cbn [fst dict_get String.eqb Ascii.eqb Bool.eqb]; eauto.
Qed.

(** X4.  [detect_content_type] never raises.  It answers [article] exactly
    when none of the indicators of the three kinds occurs in the content.
    Otherwise it answers the kind with the largest score; when scores are
    equal the earlier of [code], [documentation], [blog] wins: [blog] needs a
    score above both others, [documentation] a score above that of [code]. *)
Theorem X4_detect_content_type content :
  let code := score code_block_indicators content in
  let doc := score doc_indicators content in
  let blog := score blog_indicators content in
  exists t,
    detect_content_type content = Ok t
    /\ (t = "article"
        <-> forall ind, In ind (code_block_indicators ++ doc_indicators ++ blog_indicators) ->
                        is_substring ind content = false)
    /\ (t = "code" <-> 0 < code /\ doc <= code /\ blog <= code)
    /\ (t = "documentation" <-> code < doc /\ blog <= doc)
    /\ (t = "blog" <-> code < blog /\ doc < blog).
Proof.
  intros code doc blog.
  destruct (score_zero code_block_indicators content) as [Hc Hc0];
    [intros i Hi; apply indicators_not_empty, in_or_app; now left|].
  destruct (score_zero doc_indicators content) as [Hd Hd0];
    [intros i Hi; apply indicators_not_empty, in_or_app; right; apply in_or_app; now left|].
  destruct (score_zero blog_indicators content) as [Hb Hb0];
    [intros i Hi; apply indicators_not_empty, in_or_app; right; apply in_or_app; now right|].
  fold code in Hc, Hc0. fold doc in Hd, Hd0. fold blog in Hb, Hb0.
  assert (Hnone : (forall ind, In ind (code_block_indicators ++ doc_indicators ++ blog_indicators) ->
                               is_substring ind content = false)
                  <-> code = 0 /\ doc = 0 /\ blog = 0).
  { rewrite Hc0, Hd0, Hb0. split.
    - intros H. repeat split; intros i Hi; apply H; rewrite !in_app_iff; auto.
    - intros (H1 & H2 & H3) i Hi. rewrite !in_app_iff in Hi. destruct Hi as [?|[?|?]]; auto. }
  unfold detect_content_type. fold code doc blog. cbn [tl max_item fst snd].
  destruct (Z.ltb_spec code doc) as [Hcd|Hcd]; cbn [snd].
  - destruct (Z.ltb_spec doc blog) as [Hdb|Hdb]; cbn [fst dict_get String.eqb Ascii.eqb Bool.eqb].
    + destruct (Z.ltb_spec 0 blog); [|lia]. exists "blog".
      split; [reflexivity|]. rewrite Hnone.
      repeat split; try discriminate; try lia; intros; try reflexivity; lia.
    + destruct (Z.ltb_spec 0 doc); [|lia]. exists "documentation".
      split; [reflexivity|]. rewrite Hnone.
      repeat split; try discriminate; try lia; intros; try reflexivity; lia.
  - destruct (Z.ltb_spec code blog) as [Hcb|Hcb]; cbn [fst dict_get String.eqb Ascii.eqb Bool.eqb].
    + destruct (Z.ltb_spec 0 blog); [|lia]. exists "blog".
      split; [reflexivity|]. rewrite Hnone.
      repeat split; try discriminate; try lia; intros; try reflexivity; lia.
    + destruct (Z.ltb_spec 0 code).
      * exists "code". split; [reflexivity|]. rewrite Hnone.
        repeat split; try discriminate; try lia; intros; try reflexivity; lia.
      * exists "article". split; [reflexivity|]. rewrite Hnone.
        repeat split; try discriminate; try lia; intros; try reflexivity; lia.
Qed.
End Detect.

Section Format.
Import TemplateManager TocObs.

Lemma format_article title pc url ts toc rt :
  format template_article None (fields title pc url ts toc rt)
  = Ok ("# " ++ title ++ nl ++ nl ++ toc ++ nl ++ nl ++ pc ++ nl ++ nl ++ "---" ++ nl
        ++ "Source: " ++ url ++ nl ++ "Extracted: " ++ ts ++ nl)%string.
Proof. reflexivity. Qed.

Lemma format_code title pc url ts toc rt :
  format template_code None (fields title pc url ts toc rt)
  = Ok ("# " ++ title ++ nl ++ nl ++ toc ++ nl ++ nl ++ "## Code Blocks" ++ nl ++ nl
        ++ pc ++ nl ++ nl ++ "---" ++ nl
        ++ "Source: " ++ url ++ nl ++ "Extracted: " ++ ts ++ nl)%string.
Proof. reflexivity. Qed.

Lemma format_documentation title pc url ts toc rt :
  format template_documentation None (fields title pc url ts toc rt)
  = Ok ("# " ++ title ++ nl ++ nl ++ "## Table of Contents" ++ nl ++ toc ++ nl ++ nl
        ++ "## Content" ++ nl ++ pc ++ nl ++ nl ++ "---" ++ nl
        ++ "Source: " ++ url ++ nl ++ "Last Updated: " ++ ts ++ nl)%string.
Proof. reflexivity. Qed.

Lemma format_blog title pc url ts toc rt :
  format template_blog None (fields title pc url ts toc rt)
  = Ok ("# " ++ title ++ nl ++ nl ++ toc ++ nl ++ nl ++ pc ++ nl ++ nl ++ "## Metadata" ++ nl
        ++ "- Source: " ++ url ++ nl ++ "- Published: " ++ ts ++ nl
        ++ "- Reading Time: " ++ rt ++ " min" ++ nl)%string.
Proof. reflexivity. Qed.
End Format.

Section Format2.
Import TemplateManager TocObs.

Lemma get_template_cases tt :
  (get_template tt = template_article \/ get_template tt = template_code
   \/ get_template tt = template_documentation \/ get_template tt = template_blog)
  /\ (dict_get DEFAULT_TEMPLATE tt = None -> get_template tt = get_template "article").
Proof.
  unfold get_template, DEFAULT_TEMPLATE. cbn [dict_get].
  destruct ("article" =? tt)%string; [split; [auto|discriminate]|].
  destruct ("code" =? tt)%string; [split; [auto|discriminate]|].
  destruct ("documentation" =? tt)%string; [split; [auto|discriminate]|].
  destruct ("blog" =? tt)%string; [split; [auto|discriminate]|].
  split; [auto|reflexivity].
Qed.

Lemma format_template_returns timestamp template_type content url title :
  exists out, format_template timestamp template_type content url title = Ok out.
Proof.
  unfold format_template. destruct (get_template_cases template_type) as [Hcases _].
  destruct (_generate_toc content) as [toc pc].
  match goal with
  | |- context [format _ None ?args] =>
      change args with (fields (if truthy title then BatchProcessor.opt_str title else url)
                               pc url timestamp toc
                               (str_of_int (Z.max 1 (Z.of_nat (List.length (Str.split_ws content))
                                                     / 200))))
  end.
  destruct Hcases as [H|[H|[H|H]]]; rewrite H;
    [rewrite format_article|rewrite format_code|rewrite format_documentation
    |rewrite format_blog]; eauto.
Qed.

Lemma occurs_here x rest : Obs.occurs x (x ++ rest).
Proof. exists "", rest. reflexivity. Qed.

Lemma occurs_end x : Obs.occurs x x.
Proof. exists "", "". cbn [append]. now rewrite append_nil_r. Qed.

Lemma occurs_after a x y : Obs.occurs x y -> Obs.occurs x (a ++ y).
Proof.
  intros (p & q & ->). exists (a ++ p)%string, q. now rewrite append_assoc'.
Qed.

Lemma occurs_after_char c x y : Obs.occurs x y -> Obs.occurs x (String c y).
Proof. intros (p & q & ->). exists (String c p), q. reflexivity. Qed.

Ltac find_occurrence :=
  repeat first [apply occurs_here | apply occurs_end
               | apply occurs_after_char | apply occurs_after].

(** X5.  [format_template] never raises, whatever the template type and
    whatever the content, braces included.  The result begins with the title
    line, the title being the URL when none is given or when it is empty; the
    processed content, the URL and the timestamp are in it as they are; a
    template type that is not one of the four is formatted as [article]. *)
Theorem X5_format_template_never_raises timestamp template_type content url title :
  let heading := if truthy title then BatchProcessor.opt_str title else url in
  exists out,
    format_template timestamp template_type content url title = Ok out
    /\ startswith out ("# " ++ heading ++ nl) = true
    /\ Obs.occurs (snd (_generate_toc content)) out
    /\ Obs.occurs url out
    /\ Obs.occurs timestamp out
    /\ (dict_get DEFAULT_TEMPLATE template_type = None ->
        format_template timestamp template_type content url title
        = format_template timestamp "article" content url title).
Proof.
  intros heading. unfold format_template. fold heading.
  destruct (get_template_cases template_type) as [Hcases Hdefault].
  destruct (_generate_toc content) as [toc pc]. cbn [snd].
  set (rt := str_of_int _).
  assert (Hprefix : forall more,
             startswith ("# " ++ heading ++ nl ++ more) ("# " ++ heading ++ nl) = true).
  { intros more. unfold startswith. apply prefix_split. exists more.
    cbn [append]. now rewrite append_assoc'. }
  fold (fields heading pc url timestamp toc rt).
  enough (Hmain : exists out,
             format (get_template template_type) None (fields heading pc url timestamp toc rt)
             = Ok out
             /\ startswith out ("# " ++ heading ++ nl) = true
             /\ Obs.occurs pc out /\ Obs.occurs url out /\ Obs.occurs timestamp out).
  { destruct Hmain as (out & Hout & Hstart & Hpc & Hurl & Hts). exists out.
    repeat (split; [assumption|]). intros Hnone. now rewrite (Hdefault Hnone). }
  destruct Hcases as [H|[H|[H|H]]]; rewrite H.
  - rewrite format_article. eexists. split; [reflexivity|]. split; [apply Hprefix|].
    split; [find_occurrence|].
    split; [find_occurrence|].
    find_occurrence.
  - rewrite format_code. eexists. split; [reflexivity|]. split; [apply Hprefix|].
    split; [find_occurrence|].
    split; [find_occurrence|].
    find_occurrence.
  - rewrite format_documentation. eexists. split; [reflexivity|]. split; [apply Hprefix|].
    split; [find_occurrence|].
    split; [find_occurrence|].
    find_occurrence.
  - rewrite format_blog. eexists. split; [reflexivity|]. split; [apply Hprefix|].
    split; [find_occurrence|].
    split; [find_occurrence|].
    find_occurrence.
Qed.
End Format2.

(** ** coda_pack.py: the selector validator *)

Section Selectors.
Import CodaPack StrObs CodaObs.

Lemma all_chars_weaken (p q : ascii -> bool) s :
  (forall c, p c = true -> q c = true) -> all_chars p s = true -> all_chars q s = true.
Proof.
  intros Hpq. induction s as [|c s IH]; [reflexivity|]. cbn [all_chars].
  intros H. apply andb_prop in H as [Hc Hs]. now rewrite (Hpq c Hc), IH.
Qed.

Lemma nl_isspace c : is_nl c = true -> isspace c = true.
Proof.
  unfold is_nl, code. intros H. apply Nat.eqb_eq in H.
  unfold isspace. rewrite H. reflexivity.
Qed.

Lemma basic_selector_chars v : forall seen,
  basic_selector seen v = true -> all_chars (fun c => basic_char c || is_nl c) v = true.
Proof.
  induction v as [|c rest IH]; intros seen H; [reflexivity|].
  cbn [basic_selector all_chars] in *. destruct (basic_char c); cbn [orb andb].
  - now apply (IH true).
  - apply andb_prop in H as [_ H]. unfold last_newline in H. apply andb_prop in H as [Hc Hr].
    rewrite Hc. apply String.eqb_eq in Hr. subst rest. reflexivity.
Qed.

Lemma descendant_selector_chars v : forall q,
  descendant_selector q v = true -> all_chars (fun c => name_char c || isspace c) v = true.
Proof.
  induction v as [|c rest IH]; intros q H; [reflexivity|].
  cbn [descendant_selector all_chars] in *. destruct q.
  - apply andb_prop in H as [Hc H]. rewrite Hc. cbn [orb andb]. now apply (IH Name).
  - destruct (name_char c); cbn [orb andb]; [now apply (IH Name)|].
    destruct (isspace c); [|discriminate]. cbn [andb].
    apply orb_prop in H as [H|H]; [|now apply (IH Sep)].
    unfold last_newline in H. apply andb_prop in H as [_ Hr].
    apply String.eqb_eq in Hr. subst rest. reflexivity.
  - destruct (name_char c); cbn [orb andb]; [now apply (IH Name)|].
    destruct (isspace c); [|discriminate]. now apply (IH Sep).
Qed.

Lemma child_selector_chars v : forall q,
  child_selector q v = true
  -> all_chars (fun c => name_char c || isspace c || is_gt c) v = true.
Proof.
  induction v as [|c rest IH]; intros q H; [reflexivity|].
  cbn [child_selector all_chars] in *. destruct q.
  - apply andb_prop in H as [Hc H]. rewrite Hc. cbn [orb andb]. now apply (IH Name).
  - destruct (name_char c); cbn [orb andb]; [now apply (IH Name)|].
    destruct (is_gt c); [rewrite orb_true_r; now apply (IH Need)|].
    destruct (isspace c); [|discriminate]. cbn [orb andb].
    apply orb_prop in H as [H|H]; [|now apply (IH Sep)].
    unfold last_newline in H. apply andb_prop in H as [_ Hr].
    apply String.eqb_eq in Hr. subst rest. reflexivity.
  - destruct (is_gt c); [rewrite orb_true_r; now apply (IH Need)|].
    destruct (isspace c); [|discriminate]. rewrite orb_true_r. now apply (IH Sep).
Qed.

Lemma name_is_basic c : name_char c = true -> basic_char c = true.
Proof. unfold basic_char. intros ->. reflexivity. Qed.

Lemma all_chars_no_occurrence p s c :
  all_chars p s = true -> p c = false -> is_substring (String c "") s = false.
Proof.
  intros Hall Hc. induction s as [|d s IH]; [reflexivity|].
  cbn [all_chars] in Hall. apply andb_prop in Hall as [Hd Hs].
  rewrite is_substring_unfold. cbn [String.prefix].
  destruct (ascii_dec c d) as [->|_]; [congruence|]. now apply IH.
Qed.

Lemma valid_selector_chars v :
  valid_css_selector v = true -> all_chars selector_char v = true.
Proof.
  intros Hv. unfold valid_css_selector in Hv.
  apply orb_prop in Hv as [Hv|Hv]; [apply orb_prop in Hv as [Hv|Hv];
                                  [apply orb_prop in Hv as [Hv|Hv]|]|].
  - apply String.eqb_eq in Hv. now subst v.
  - apply basic_selector_chars in Hv. revert Hv. apply all_chars_weaken.
    intros c Hc. unfold selector_char. apply orb_prop in Hc as [Hc|Hc].
    + now rewrite Hc.
    + now rewrite (nl_isspace c Hc), orb_true_r.
  - apply descendant_selector_chars in Hv. revert Hv. apply all_chars_weaken.
    intros c Hc. unfold selector_char. apply orb_prop in Hc as [Hc|Hc].
    + now rewrite (name_is_basic c Hc).
    + now rewrite Hc, orb_true_r.
  - apply child_selector_chars in Hv. revert Hv. apply all_chars_weaken.
    intros c Hc. unfold selector_char. apply orb_prop in Hc as [Hc|Hc];
      [apply orb_prop in Hc as [Hc|Hc]|].
    + now rewrite (name_is_basic c Hc).
    + now rewrite Hc, orb_true_r.
    + now rewrite Hc, orb_true_r.
Qed.

(** X6.  A selector that [CSSSelector] accepts holds only characters of the
    class of the first pattern, whitespace and U+003E: no comma, no colon, no
    parenthesis, no plus sign.  Selector groups and pseudo-classes are
    therefore rejected. *)
Theorem X6_accepted_selector_characters v :
  valid_css_selector v = true ->
  all_chars selector_char v = true
  /\ is_substring "," v = false /\ is_substring ":" v = false
  /\ is_substring "(" v = false /\ is_substring "+" v = false.
Proof.
  intros Hv. pose proof (valid_selector_chars v Hv) as Hall.
  split; [exact Hall|].
  repeat split; apply (all_chars_no_occurrence selector_char); auto.
Qed.

Lemma X6_witness :
  all_chars selector_char "div.content p" = true
  /\ is_substring "," "div.content p" = false /\ is_substring ":" "div.content p" = false
  /\ is_substring "(" "div.content p" = false /\ is_substring "+" "div.content p" = false.
Proof. apply (X6_accepted_selector_characters "div.content p"). reflexivity. Defined.

(** *** Combinators *)

Lemma child_names a : forall rest,
  all_chars name_char a = true ->
  child_selector Name (a ++ rest) = child_selector Name rest.
Proof.
  induction a as [|c a IH]; intros rest Ha; [reflexivity|].
  cbn [all_chars] in Ha. apply andb_prop in Ha as [Hc Ha].
  cbn [append child_selector]. rewrite Hc. now apply IH.
Qed.

Lemma child_need a rest :
  all_chars name_char a = true -> a <> "" ->
  child_selector Need (a ++ rest) = child_selector Name rest.
Proof.
  intros Ha Hne. destruct a as [|c a]; [contradiction|].
  cbn [all_chars] in Ha. apply andb_prop in Ha as [Hc Ha].
  cbn [append child_selector]. rewrite Hc. cbn [andb]. now apply child_names.
Qed.

Lemma descendant_names a : forall rest,
  all_chars name_char a = true ->
  descendant_selector Name (a ++ rest) = descendant_selector Name rest.
Proof.
  induction a as [|c a IH]; intros rest Ha; [reflexivity|].
  cbn [all_chars] in Ha. apply andb_prop in Ha as [Hc Ha].
  cbn [append descendant_selector]. rewrite Hc. now apply IH.
Qed.

Lemma descendant_need a rest :
  all_chars name_char a = true -> a <> "" ->
  descendant_selector Need (a ++ rest) = descendant_selector Name rest.
Proof.
  intros Ha Hne. destruct a as [|c a]; [contradiction|].
  cbn [all_chars] in Ha. apply andb_prop in Ha as [Hc Ha].
  cbn [append descendant_selector]. rewrite Hc. cbn [andb]. now apply descendant_names.
Qed.

Lemma descendant_sep a rest :
  all_chars name_char a = true -> a <> "" ->
  descendant_selector Sep (a ++ rest) = descendant_selector Name rest.
Proof.
  intros Ha Hne. destruct a as [|c a]; [contradiction|].
  cbn [all_chars] in Ha. apply andb_prop in Ha as [Hc Ha].
  cbn [append descendant_selector]. rewrite Hc. now apply descendant_names.
Qed.

Lemma rejected_by_character v c :
  selector_char c = false -> is_substring (String c "") v = true ->
  valid_css_selector v = false.
Proof.
  intros Hc Hin. destruct (valid_css_selector v) eqn:Hv; [|reflexivity].
  rewrite (all_chars_no_occurrence selector_char v c (valid_selector_chars v Hv) Hc) in Hin.
  discriminate.
Qed.

(** X7.  For two names [a] and [b] the validator accepts [a b], [a>b] and
    [a >b], and rejects [a > b] (the usual spelling of the child combinator),
    [a> b] and [a, b]. *)
Theorem X7_combinator_spelling a b :
  all_chars name_char a = true -> a <> "" ->
  all_chars name_char b = true -> b <> "" ->
  valid_css_selector (a ++ " " ++ b) = true
  /\ valid_css_selector (a ++ ">" ++ b) = true
  /\ valid_css_selector (a ++ " >" ++ b) = true
  /\ valid_css_selector (a ++ " > " ++ b) = false
  /\ valid_css_selector (a ++ "> " ++ b) = false
  /\ valid_css_selector (a ++ ", " ++ b) = false.
Proof.
  intros Ha Hane Hb Hbne.
  assert (Hbend : child_selector Need b = true /\ descendant_selector Sep b = true).
  { rewrite <- (append_nil_r b). rewrite child_need, descendant_sep by assumption.
    split; reflexivity. }
  destruct Hbend as [Hbc Hbd].
  assert (Hfirst : forall rest, ((a ++ rest) =? "")%string = false).
  { intros rest. destruct a; [contradiction|reflexivity]. }
  split; [|split; [|split; [|split; [|split]]]].
  - unfold valid_css_selector. rewrite descendant_need by assumption.
    cbn [append descendant_selector]. cbn. rewrite Hbd.
    now rewrite !orb_true_r.
  - unfold valid_css_selector. rewrite child_need by assumption.
    cbn [append child_selector]. cbn. rewrite Hbc. now rewrite !orb_true_r.
  - unfold valid_css_selector. rewrite child_need by assumption.
    cbn [append child_selector]. cbn. rewrite Hbc. now rewrite !orb_true_r.
  - unfold valid_css_selector. rewrite Hfirst, child_need by assumption. cbn [orb].
    assert (Hbasic : basic_selector false (a ++ " > " ++ b) = false).
    { destruct (basic_selector false (a ++ " > " ++ b)) eqn:H; [|reflexivity].
      apply basic_selector_chars in H. rewrite all_chars_app in H.
      apply andb_prop in H as [_ H]. destruct b; [contradiction|]. discriminate. }
    assert (Hdesc : descendant_selector Need (a ++ " > " ++ b) = false).
    { destruct (descendant_selector Need (a ++ " > " ++ b)) eqn:H; [|reflexivity].
      apply descendant_selector_chars in H. rewrite all_chars_app in H.
      apply andb_prop in H as [_ H]. discriminate. }
    rewrite Hbasic, Hdesc. cbn [orb append child_selector]. cbn.
    destruct b; [contradiction|reflexivity].
  - unfold valid_css_selector. rewrite Hfirst, child_need by assumption. cbn [orb].
    assert (Hbasic : basic_selector false (a ++ "> " ++ b) = false).
    { destruct (basic_selector false (a ++ "> " ++ b)) eqn:H; [|reflexivity].
      apply basic_selector_chars in H. rewrite all_chars_app in H.
      apply andb_prop in H as [_ H]. discriminate. }
    assert (Hdesc : descendant_selector Need (a ++ "> " ++ b) = false).
    { destruct (descendant_selector Need (a ++ "> " ++ b)) eqn:H; [|reflexivity].
      apply descendant_selector_chars in H. rewrite all_chars_app in H.
      apply andb_prop in H as [_ H]. discriminate. }
    rewrite Hbasic, Hdesc. cbn [orb append child_selector]. cbn.
    destruct b; [contradiction|reflexivity].
  - apply (rejected_by_character _ ","); [reflexivity|].
    apply is_substring_occurs. exists a, (" " ++ b)%string. reflexivity.
Qed.

Lemma X7_witness :
  valid_css_selector "ul li" = true
  /\ valid_css_selector "ul>li" = true
  /\ valid_css_selector "ul >li" = true
  /\ valid_css_selector "ul > li" = false
  /\ valid_css_selector "ul> li" = false
  /\ valid_css_selector "ul, li" = false.
Proof.
  apply (X7_combinator_spelling "ul" "li"); (reflexivity || discriminate).
Defined.
End Selectors.

(** ** scraper.py *)

Section StripFacts.

Lemma lstrip_head s :
  lstrip s = "" \/ exists c rest, lstrip s = String c rest /\ isspace c = false.
Proof.
  induction s as [|c s IH]; [now left|]. cbn [lstrip].
  destruct (isspace c) eqn:Hc; [exact IH|]. right. eauto.
Qed.

Lemma rstrip_idem s : rstrip (rstrip s) = rstrip s.
Proof.
  induction s as [|c s IH]; [reflexivity|]. cbn [rstrip].
  destruct (rstrip s) as [|d r] eqn:Hr.
  - destruct (isspace c) eqn:Hc; [reflexivity|]. cbn [rstrip]. now rewrite Hc.
  - cbn [rstrip]. cbn [rstrip] in IH. rewrite IH. reflexivity.
Qed.

Lemma rstrip_head c rest :
  isspace c = false -> exists rest', rstrip (String c rest) = String c rest'.
Proof.
  intros Hc. cbn [rstrip]. destruct (rstrip rest); [rewrite Hc|]; eauto.
Qed.

Lemma strip_idem s : strip (strip s) = strip s.
Proof.
  unfold strip. destruct (lstrip_head s) as [->|(c & rest & -> & Hc)]; [reflexivity|].
  destruct (rstrip_head c rest Hc) as [rest' Hr]. rewrite Hr.
  cbn [lstrip]. rewrite Hc. rewrite <- Hr. apply rstrip_idem.
Qed.

End StripFacts.

Section ScraperMore.
Context {L : Libs}.
Import Scraper.

Lemma extract_result content cs code ex v :
  extract content cs code ex = Ok v ->
  startswith v "Error:" = true \/ (strip v = v /\ MIN_CONTENT_LENGTH <= len v).
Proof.
  unfold extract.
  destruct (if truthy ex then _ else _) as [soup|e]; cbn [bind]; [|discriminate].
  destruct (if truthy cs then _ else _) as [text_content|e]; cbn [bind]; [|discriminate].
  destruct (if truthy code then _ else _) as [code_elements|e]; cbn [bind]; [|discriminate].
  match goal with
  | |- (let '(a, b) := ?m in _) = _ -> _ => destruct m as [tc cb]
  end.
  destruct (Z.ltb_spec (len (strip (join (nl ++ nl) (tc ++ cb)))) MIN_CONTENT_LENGTH).
  - intros [= <-]. now left.
  - intros [= <-]. right. split; [apply strip_idem|assumption].
Qed.

Lemma fetch_with_session_result w url cs code ex v :
  fetch_with_session w url cs code ex = Ok v ->
  startswith v "Error:" = true \/ (strip v = v /\ MIN_CONTENT_LENGTH <= len v).
Proof.
  unfold fetch_with_session.
  destruct (session_get w (request url)) as [status text|sent e]; [|discriminate].
  destruct ((status =? 403) || (status =? 401)); [intros [= <-]; now left|].
  destruct (negb (status =? 200)); [intros [= <-]; now left|].
  destruct text as [content|e]; cbn [bind]; [|discriminate].
  apply extract_result.
Qed.

Lemma try_trafilatura_stripped w url v :
  try_trafilatura w url = Ok (Some v) -> strip v = v.
Proof.
  unfold try_trafilatura.
  destruct (trafilatura_fetch_url w url) as [[d|]|e]; cbn [bind]; try discriminate.
  destruct (trafilatura_extract d) as [[t|]|e]; cbn [bind]; try discriminate.
  destruct (t =? "")%string; [discriminate|]. intros [= <-]. apply strip_idem.
Qed.

(** X8.  What [fetch_url_content] returns is an error string, every
    exception having been turned into one, or a text without surrounding
    whitespace.  Such a text has at least [MIN_CONTENT_LENGTH] characters,
    unless no selector was given and the text is the one trafilatura
    extracted: that text is returned stripped whatever its length, the check
    of the length being made on the other path only. *)
Theorem X8_fetch_url_content_result w url cs code ex :
  let v := fetch_url_content w url cs code ex in
  startswith v "Error:" = true
  \/ (strip v = v
      /\ (MIN_CONTENT_LENGTH <= len v
          \/ (truthy cs || truthy code || truthy ex = false
              /\ try_trafilatura w url = Ok (Some v)))).
Proof.
  cbn zeta. unfold fetch_url_content.
  destruct (fetch_url_content_try w url cs code ex) as [v|e] eqn:Htry.
  - unfold fetch_url_content_try in Htry.
    destruct (urlparse url) as [[scheme netloc]|e]; cbn [bind] in Htry; [|discriminate].
    destruct ((scheme =? "")%string || (netloc =? "")%string);
      [injection Htry as <-; now left|].
    destruct (truthy cs || truthy code || truthy ex) eqn:Hsel; cbn [negb bind] in Htry.
    + destruct (fetch_with_session_result _ _ _ _ _ _ Htry) as [H|[H1 H2]]; [now left|].
      right. split; [exact H1|now left].
    + destruct (try_trafilatura w url) as [[t|]|e] eqn:Ht; cbn [bind] in Htry; [| |discriminate].
      * injection Htry as <-. right. split; [now apply (try_trafilatura_stripped w url)|].
        right. split; reflexivity.
      * destruct (fetch_with_session_result _ _ _ _ _ _ Htry) as [H|[H1 H2]]; [now left|].
        right. split; [exact H1|now left].
  - left. destruct (exc_client e); reflexivity.
Qed.

(** *** Scraping several URLs *)

Lemma zip_results {A} (f : string -> A) urls :
  combine urls (map f urls) = map (fun u => (u, f u)) urls.
Proof. induction urls as [|u urls IH]; [reflexivity|]. cbn. now rewrite IH. Qed.

Lemma scrape_urls_assigned w urls cs code ex :
  scrape_urls w urls cs code ex
  = Obs.assigned (fun url => fetch_url_content w url cs code ex) urls [].
Proof.
  unfold scrape_urls, scrape_urls_async, Obs.assigned. rewrite zip_results.
  generalize (@nil (string * string)).
  induction urls as [|u urls IH]; intros d; [reflexivity|].
  cbn [map fold_left fst snd]. apply IH.
Qed.

(** X9.  [scrape_urls] returns one entry for each URL given, a URL given
    twice having one entry, and no other entry; the value of a URL is what
    [fetch_url_content] returns for it.  [test_scraper] returns the single
    entry of its URL, fetched without selectors. *)
Theorem X9_scrape_urls_entries w urls cs code ex :
  let results := scrape_urls w urls cs code ex in
  NoDup (keys results)
  /\ (forall url, In url (keys results) <-> In url urls)
  /\ (forall url, In url urls ->
                  dict_get results url = Some (fetch_url_content w url cs code ex))
  /\ (forall url, test_scraper w url = [(url, fetch_url_content w url None None None)]).
Proof.
  cbn zeta. rewrite scrape_urls_assigned. split; [|split; [|split]].
  - apply nodup_keys_assigned. constructor.
  - intros url. rewrite in_keys_assigned. cbn. tauto.
  - intros url Hin. apply dict_get_assigned; [apply consistent_nil|constructor|now right].
  - reflexivity.
Qed.
End ScraperMore.

(** ** coda_pack.py: the formulas *)

Section Formulas.
Import CodaPack CodaObs Obs.
Context {L : Libs}.

Lemma extract_loop_assigned w cs code ex urls : forall results fetched,
  fst (extract_loop w cs code ex urls results fetched)
  = assigned (url_value w cs code ex) urls results.
Proof.
  induction urls as [|u urls IH]; intros results fetched; [reflexivity|].
  cbn [extract_loop]. rewrite assigned_cons. unfold url_value at 2.
  destruct (extract_one_try w u cs code ex) as [r called]. cbn [fst].
  now rewrite IH.
Qed.

Lemma extract_content_keys w urls cs code ex :
  NoDup (keys (fst (extract_content w urls cs code ex)))
  /\ forall u, In u (keys (fst (extract_content w urls cs code ex))) <-> In u urls.
Proof.
  unfold extract_content. rewrite extract_loop_assigned. split.
  - apply nodup_keys_assigned. constructor.
  - intros u. rewrite in_keys_assigned. cbn. tauto.
Qed.

(** *** Previews *)

Lemma take_all n s : (String.length s <= n)%nat -> Str.take n s = s.
Proof.
  revert n. induction s as [|c s IH]; intros n Hn; destruct n; cbn in *; try reflexivity; try lia.
  f_equal. apply IH. lia.
Qed.

Lemma take_length n s : String.length (Str.take n s) = Nat.min n (String.length s).
Proof.
  revert n. induction s as [|c s IH]; intros n; destruct n; cbn; try reflexivity.
  now rewrite IH.
Qed.

Lemma length_append (a b : string) :
  String.length (a ++ b) = (String.length a + String.length b)%nat.
Proof. induction a; cbn; congruence. Qed.

Lemma previews_map {A B} (f : A -> B) (d : dict A) : forall acc,
  NoDup (keys acc ++ keys d) ->
  fold_left (fun previews uc => dict_set previews (fst uc) (f (snd uc))) d acc
  = (acc ++ map (fun uc => (fst uc, f (snd uc))) d)%list.
Proof.
  induction d as [|[k v] d IH]; intros acc Hnd.
  - cbn. now rewrite app_nil_r.
  - cbn [fold_left map fst snd]. rewrite dict_set_notin.
    + rewrite IH.
      * now rewrite <- app_assoc.
      * unfold keys in *. rewrite map_app. cbn [map fst]. rewrite <- app_assoc. exact Hnd.
    + cbn [keys map fst] in Hnd. apply NoDup_remove_2 in Hnd.
      intros Hin. apply Hnd. apply in_or_app. now left.
Qed.

Lemma dict_get_map {A B} (f : A -> B) (d : dict A) k :
  dict_get (map (fun uc => (fst uc, f (snd uc))) d) k = option_map f (dict_get d k).
Proof.
  induction d as [|[k' v] d IH]; [reflexivity|].
  cbn [map dict_get fst snd]. destruct (k' =? k)%string; [reflexivity|exact IH].
Qed.

(** X10.  [Formula_PreviewContent], for a preview length that is not
    negative.  The previews have the keys of the extraction, in the same
    order.  An error is reported with status [error], an empty preview and
    length 0.  Any other content is reported with status [success], its
    length, [has_more] set exactly when it is longer than the preview length,
    and a preview that is the content itself when it fits and else its first
    characters followed by three dots: never more than the preview length
    plus 3 characters. *)
Theorem X10_preview_content w urls cs code ex max_preview_length :
  0 <= max_preview_length ->
  let results := Formula_ExtractContent w urls cs code ex in
  let previews := Formula_PreviewContent w urls cs code ex max_preview_length in
  keys previews = keys results
  /\ forall url content,
       dict_get results url = Some content ->
       exists data,
         dict_get previews url = Some data
         /\ if startswith content "Error:"
            then data = [("status", PStr "error"); ("error_message", PStr content);
                         ("preview", PStr ""); ("content_length", PInt 0)]
            else exists preview,
                data = [("status", PStr "success"); ("preview", PStr preview);
                        ("content_length", PInt (len content));
                        ("has_more", PBool (max_preview_length <? len content))]
                /\ len preview <= max_preview_length + 3
                /\ (len content <= max_preview_length -> preview = content)
                /\ (max_preview_length < len content ->
                    preview = (Str.take (Z.to_nat max_preview_length) content ++ "...")%string).
Proof.
  intros Hmax results previews.
  assert (Hprev : previews = map (fun uc => (fst uc, preview_data max_preview_length (snd uc)))
                                 results).
  { unfold previews, Formula_PreviewContent. fold (Formula_ExtractContent w urls cs code ex).
    fold results. rewrite previews_map; [reflexivity|].
    cbn [keys map app]. apply (extract_content_keys w urls cs code ex). }
  split.
  - rewrite Hprev. unfold keys. rewrite map_map. reflexivity.
  - intros url content Hget. exists (preview_data max_preview_length content). split.
    + rewrite Hprev, dict_get_map, Hget. reflexivity.
    + unfold preview_data. destruct (startswith content "Error:"); [reflexivity|].
      eexists. split; [reflexivity|].
      unfold Str.upto. destruct (Z.ltb_spec max_preview_length 0) as [|_]; [lia|].
      unfold len in *. destruct (Z.ltb_spec max_preview_length (Z.of_nat (String.length content))).
      * split; [|split; [lia|reflexivity]].
        rewrite length_append, take_length. cbn [String.length]. lia.
      * split; [|split; [|lia]].
        -- rewrite append_nil_r, take_all by lia. lia.
        -- intros _. rewrite append_nil_r. apply take_all. lia.
Qed.
End Formulas.

Section Pages.
Import CodaPack CodaObs Obs.
Context {L : Libs}.

(** *** The body of a page *)

Lemma page_body_ok c tt content : forall acc st,
  exists body st',
    page_body c tt content acc st = (Ok body, st')
    /\ posts st' = posts st
    /\ ((forall url text, In (url, text) content -> startswith text "Error:" = true) ->
        body = acc).
Proof.
  induction content as [|[url text] rest IH]; intros acc st.
  - exists acc, st. cbn. auto.
  - cbn [page_body]. destruct (startswith text "Error:") eqn:Herr; cbn [negb].
    + destruct (IH acc st) as (body & st' & Hrun & Hposts & Hall).
      exists body, st'. split; [exact Hrun|]. split; [exact Hposts|].
      intros H. apply Hall. intros u t Hin. apply (H u t). now right.
    + assert (Htype : exists detected_type,
                 (if truthy tt then Ok (BatchProcessor.opt_str tt)
                  else TemplateManager.detect_content_type text) = Ok detected_type).
      { destruct (truthy tt); [eauto|].
        destruct (detect_content_type_returns text) as (t & Ht). eauto. }
      destruct Htype as (detected_type & ->).
      destruct (format_template_returns (clock c (clock_reads st)) detected_type text url None)
        as (out & ->).
      destruct (IH (acc ++ out ++ nl ++ nl ++ "---" ++ nl ++ nl)%string
                   (mkCodaSt (posts st) (S (clock_reads st))))
        as (body & st' & Hrun & Hposts & _).
      exists body, st'. split; [exact Hrun|]. split; [exact Hposts|].
      intros H. specialize (H url text (or_introl eq_refl)). congruence.
Qed.

(** X11.  [Formula_GenerateSubPage] always builds the body of the page: the
    template manager does not raise, so the outer handler is never taken.
    The body is empty when every entry is an error.  Whenever [coda.get_doc]
    and the API key are obtained exactly one post is made, with that body, an
    empty one included; otherwise none is made.  The result is the address of
    the page for status 200, [Error: Failed to create page (Status: n)] for
    another status, and [Error creating page: ...] when a call or the reading
    of the answer raises. *)
Theorem X11_generate_sub_page_posts c doc_id page_name content template_type st :
  exists body,
    fst (page_body c template_type content "" st) = Ok body
    /\ ((forall url text, In (url, text) content -> startswith text "Error:" = true) ->
        body = "")
    /\ let r := Formula_GenerateSubPage c doc_id page_name content template_type st in
       match get_doc c (List.length (posts st)) doc_id, api_key c with
       | Ok _, Ok key =>
           posts (snd r) = (posts st ++ [page_post doc_id key page_name body])%list
           /\ match requests_post c (List.length (posts st))
                      (page_post doc_id key page_name body) with
              | Ok (status_code, Ok id) =>
                  fst r = (if (status_code =? 200)%Z
                           then "https://coda.io/d/" ++ doc_id ++ "/p/" ++ id
                           else "Error: Failed to create page (Status: "
                                ++ str_of_int status_code ++ ")")%string
              | Ok (status_code, Raise e) =>
                  fst r = (if (status_code =? 200)%Z
                           then "Error creating page: " ++ exc_msg e
                           else "Error: Failed to create page (Status: "
                                ++ str_of_int status_code ++ ")")%string
              | Raise e => fst r = ("Error creating page: " ++ exc_msg e)%string
              end
       | Raise e, _ | Ok _, Raise e =>
           posts (snd r) = posts st
           /\ fst r = ("Error creating page: " ++ exc_msg e)%string
       end.
Proof.
  destruct (page_body_ok c template_type content "" st) as (body & st1 & Hrun & Hposts & Hall).
  exists body. rewrite Hrun. cbn [fst]. split; [reflexivity|]. split; [exact Hall|].
  cbn zeta. unfold Formula_GenerateSubPage. rewrite Hrun. unfold create_page. rewrite Hposts.
  fold (page_post doc_id).
  destruct (get_doc c (List.length (posts st)) doc_id) as [[]|e]; cbn [fst snd].
  - destruct (api_key c) as [key|e]; cbn [fst snd].
    + fold (page_post doc_id key page_name body).
      destruct (requests_post c (List.length (posts st)) (page_post doc_id key page_name body))
        as [[status_code [id|e]]|e]; cbn [fst snd posts].
      * destruct (status_code =? 200); cbn [fst snd posts]; split; reflexivity.
      * destruct (status_code =? 200); cbn [fst snd posts]; split; reflexivity.
      * split; reflexivity.
    + split; [exact Hposts|reflexivity].
  - split; [exact Hposts|reflexivity].
Qed.

(** *** Pages of a batch *)

Lemma dict_set_not_nil {V} (d : dict V) k v : dict_set d k v <> [].
Proof. destruct d as [|[k' v'] d]; cbn; [discriminate|]. destruct (k' =? k)%string; discriminate. Qed.

Lemma batch_content_not_nil (all_content : dict string) batch_urls : forall acc : dict string,
  acc <> [] ->
  fold_left (fun d url => match dict_get all_content url with
                          | Some v => dict_set d url v
                          | None => d
                          end) batch_urls acc <> [].
Proof.
  induction batch_urls as [|u rest IH]; intros acc Hacc; [exact Hacc|].
  cbn [fold_left]. apply IH. destruct (dict_get all_content u); [apply dict_set_not_nil|exact Hacc].
Qed.

Lemma batch_content_of_not_nil all_content u rest :
  In u (keys all_content) -> batch_content_of all_content (u :: rest) <> [].
Proof.
  intros Hu. unfold batch_content_of. cbn [fold_left].
  apply batch_content_not_nil.
  destruct (dict_get all_content u) eqn:Hget; [apply dict_set_not_nil|].
  exfalso. apply in_keys_value in Hu as [v Hv].
  clear -Hget Hv. induction all_content as [|[k' v'] d IH]; [destruct Hv|].
  cbn [dict_get] in Hget. destruct (String.eqb_spec k' u) as [->|Hne]; [discriminate|].
  destruct Hv as [[= -> _]|Hv]; [contradiction|]. now apply IH.
Qed.

Lemma pages_loop_length c doc_id base tt urls all_content starts : forall page_urls st,
  (forall i, In i starts -> batch_content_of all_content (slice urls i (i + 5)) <> []) ->
  List.length (fst (pages_loop c doc_id base tt urls all_content starts page_urls st))
  = (List.length page_urls + List.length starts)%nat.
Proof.
  induction starts as [|i rest IH]; intros page_urls st Hne.
  - cbn. lia.
  - cbn [pages_loop]. pose proof (Hne i (or_introl eq_refl)) as Hi.
    destruct (batch_content_of all_content (slice urls i (i + 5))) as [|kv more] eqn:Hb;
      [contradiction|].
    destruct (Formula_GenerateSubPage c doc_id _ (kv :: more) tt st) as [page_url st'].
    rewrite IH by (intros j Hj; apply Hne; now right).
    rewrite length_app. cbn [List.length]. lia.
Qed.

(** X12.  [Formula_BatchExtractAndGenerate] returns one result for each
    group of five URLs, that is the number of URLs divided by 5 and rounded
    up, whatever the network and the Coda service answer. *)
Theorem X12_batch_pages_count w c doc_id urls base_page_name cs code ex template_type st :
  List.length (fst (Formula_BatchExtractAndGenerate w c doc_id urls base_page_name
                      cs code ex template_type st))
  = Z.to_nat ((Z.of_nat (List.length urls) + 4) / 5).
Proof.
  unfold Formula_BatchExtractAndGenerate.
  rewrite pages_loop_length.
  - cbn [List.length Nat.add]. unfold range0. cbn [Z.ltb Z.compare].
    rewrite length_map, length_seq. f_equal. f_equal. lia.
  - intros i Hi. unfold range0 in Hi. cbn [Z.ltb Z.compare] in Hi.
    apply in_map_iff in Hi as (k & <- & Hk). apply in_seq in Hk.
    set (n := List.length urls) in *.
    assert (Hlt : (k * 5 < n)%nat).
    { assert (Z.of_nat k < (Z.of_nat n + 5 - 1) / 5) by lia.
      assert (5 * ((Z.of_nat n + 5 - 1) / 5) <= Z.of_nat n + 5 - 1)
        by (apply Z.mul_div_le; lia).
      lia. }
    unfold slice.
    replace (Z.to_nat (Z.of_nat k * 5 + 5 - Z.of_nat k * 5)) with 5%nat by lia.
    replace (Z.to_nat (Z.of_nat k * 5)) with (k * 5)%nat by lia.
    destruct (skipn (k * 5) urls) as [|u rest] eqn:Hskip.
    + exfalso. pose proof (length_skipn (k * 5) urls) as Hlen. rewrite Hskip in Hlen.
      cbn [List.length] in Hlen. fold n in Hlen. lia.
    + cbn [firstn]. apply batch_content_of_not_nil.
      apply (extract_content_keys w urls cs code ex).
      rewrite <- (firstn_skipn (k * 5) urls), Hskip. apply in_or_app. right. now left.
Qed.
End Pages.

(** ** batch_processor.py: the progress counters and the exclude selector *)

Section Progress.
Import BatchProcessor Obs BatchObs.
Context {L : Libs}.
Variable w : World.









(** *** The exclude selector *)

Lemma extract_selected_exclude html kw :
  (truthy (exclude_selector kw) = true ->
   exists excluded,
     soup_select (BeautifulSoup html) (opt_str (exclude_selector kw)) = Ok excluded) ->
  extract_selected html kw = extract_selected html (without_exclude kw).
Proof.
  intros Hex. unfold extract_selected, without_exclude.
  cbn [content_selector code_selector exclude_selector truthy].
  destruct (if truthy_sel (content_selector kw) then _ else _) as [c1|e]; cbn [bind];
    [|reflexivity].
  destruct (if truthy (code_selector kw) then _ else _) as [c2|e]; cbn [bind];
    [|reflexivity].
  destruct (truthy (exclude_selector kw)); [|reflexivity].
  destruct (Hex eq_refl) as [excluded ->]. reflexivity.
Qed.

(** X14.  In the batch pipeline the exclude selector does not change what
    is extracted, the elements being removed after the texts were collected.
    When the parser accepts the exclude selector: with a content or code
    selector the value of a URL is the same with and without the exclude
    selector; with the exclude selector alone every page answered with
    status 200 gives [No content found]. *)
Theorem X14_exclude_selector_is_ignored url kw :
  (forall html,
      session_get w (request url) = Response 200 (Ok html) ->
      truthy (exclude_selector kw) = true ->
      exists excluded,
        soup_select (BeautifulSoup html) (opt_str (exclude_selector kw)) = Ok excluded) ->
  (truthy_sel (content_selector kw) || truthy (code_selector kw) = true ->
   process_url_value w url kw = process_url_value w url (without_exclude kw))
  /\ (truthy_sel (content_selector kw) || truthy (code_selector kw) = false ->
      truthy (exclude_selector kw) = true ->
      forall html, session_get w (request url) = Response 200 (Ok html) ->
                   process_url_value w url kw = NO_CONTENT).
Proof.
  intros Hex. split.
  - intros Hsel. unfold process_url_value, process_url_try.
    destruct (session_get w (request url)) as [status text|sent e] eqn:Hget; [|reflexivity].
    destruct (Z.eqb_spec status 200) as [->|_]; [|reflexivity].
    destruct text as [html|e]; cbn [bind]; [|reflexivity].
    assert (Htext : extract_text html kw = extract_text html (without_exclude kw)).
    { unfold extract_text. cbn [without_exclude content_selector code_selector exclude_selector].
      rewrite Hsel. cbn [orb truthy].
      apply extract_selected_exclude. now apply Hex. }
    rewrite Htext. destruct (extract_text html (without_exclude kw)); reflexivity.
  - intros Hsel Htruthy html Hget. unfold process_url_value, process_url_try.
    rewrite Hget. cbn [Z.eqb Pos.eqb bind].
    unfold extract_text. rewrite Hsel, Htruthy. cbn [orb].
    apply orb_false_elim in Hsel as [Hcs Hcode].
    unfold extract_selected. rewrite Hcs, Hcode, Htruthy. cbn [bind].
    destruct (Hex html Hget Htruthy) as [excluded ->]. cbn [bind app].
    unfold filter_text. rewrite String.eqb_refl. cbn [negb andb].
    rewrite !andb_false_r. reflexivity.
Qed.
End Progress.

(** ** main.py *)

Section FormFilters.
Import Main StrObs StrObs Obs BatchProcessor.











End FormFilters.

Section Edges.
Import Main StrObs StrObs BatchProcessor.
Context {L : Libs}.




(** *** A selector the validator accepts and the parser refuses *)

(** X17.  In [extract_content] of coda_pack.py a content selector that the
    validator accepts and the parser refuses does not make the URL an error:
    the message [Error with selector '...': ...] becomes the content of the
    URL, and it does not begin with [Error:]. *)
Theorem X17_refused_selector_becomes_content w url selector downloaded e :
  CodaPack.valid_css_selector selector = true -> selector <> "" ->
  trafilatura_fetch_url w url = Ok (Some downloaded) -> downloaded <> "" ->
  soup_select (BeautifulSoup downloaded) selector = Raise e ->
  let value := ("Error with selector '" ++ selector ++ "': " ++ exc_msg e)%string in
  dict_get (CodaPack.Formula_ExtractContent w [url] (Some (SelStr selector)) None None) url
  = Some value
  /\ startswith value "Error:" = false.
Proof.
  intros Hvalid Hne Hfetch Hd Hsel value. split; [|reflexivity].
  unfold CodaPack.Formula_ExtractContent, CodaPack.extract_content, CodaPack.as_list.
  destruct (String.eqb_spec selector "") as [|_]; [contradiction|].
  cbn [CodaPack.extract_loop]. unfold CodaPack.extract_one_try, CodaPack.validate.
  cbn [CodaPack.validate_each]. unfold CodaPack.CSSSelector. rewrite Hvalid.
  cbn [bind truthy]. rewrite Hfetch. cbn [bind truthy].
  destruct (String.eqb_spec downloaded "") as [|_]; [contradiction|]. cbn [negb orb opt_str].
  unfold CodaPack.selected. cbn [flat_map truthy app]. rewrite Hsel.
  cbn [app fst dict_set dict_get join]. now rewrite String.eqb_refl.
Qed.
End Edges.

Section Index.
Import Main MainObs StrObs Obs.
Context {L : Libs}.

Lemma valid_urls_spec lines : forall urls,
  valid_urls lines = Ok urls ->
  forall url, In url urls ->
    exists line scheme netloc,
      In line lines /\ url = strip line /\ url <> ""
      /\ urlparse url = Ok (scheme, netloc) /\ scheme <> "" /\ netloc <> "".
Proof.
  induction lines as [|line rest IH]; intros urls Hv url Hin.
  - injection Hv as <-. destruct Hin.
  - cbn [valid_urls] in Hv.
    destruct (String.eqb_spec (strip line) "") as [Hempty|Hne]; cbn [negb] in Hv.
    + destruct (IH _ Hv url Hin) as (l & s & n & Hl & H). exists l, s, n. split; [now right|exact H].
    + destruct (urlparse (strip line)) as [[scheme netloc]|e] eqn:Hp; cbn [bind] in Hv;
        [|discriminate].
      destruct (valid_urls rest) as [more|e]; cbn [bind] in Hv; [|discriminate].
      injection Hv as <-. cbn [fst snd] in Hin.
      assert (Hmore : In url more ->
                      exists line0 scheme0 netloc0,
                        In line0 (line :: rest) /\ url = strip line0 /\ url <> ""
                        /\ urlparse url = Ok (scheme0, netloc0) /\ scheme0 <> "" /\ netloc0 <> "").
      { intros H. destruct (IH _ eq_refl url H) as (l & s & n & Hl & H').
        exists l, s, n. split; [now right|exact H']. }
      destruct (String.eqb_spec scheme "") as [|Hs]; cbn [negb andb] in Hin; [auto|].
      destruct (String.eqb_spec netloc "") as [|Hn]; cbn [negb] in Hin; [auto|].
      destruct Hin as [<-|Hin]; [|auto].
      exists line, scheme, netloc. split; [now left|]. repeat split; auto.
Qed.

Lemma process_urls_sync_requests w urls kw :
  forall r, In r (requests (BatchProcessor.trace (snd (BatchProcessor.process_urls_sync w urls kw)))) ->
            exists url, In url urls /\ r = BatchProcessor.request url.
Proof.
  intros r Hin. unfold BatchProcessor.process_urls_sync in Hin.
  destruct (process_urls_spec w kw (BatchProcessor.mkSt BatchProcessor.default []) urls)
    as [_ Hran]; [reflexivity|].
  destruct Hran as (_ & _ & _ & tr & Htr & _ & Hreq).
  cbn [BatchProcessor.trace app] in Htr. rewrite Htr, Hreq in Hin.
  apply in_map_iff in Hin as (url & <- & Hurl). apply filter_In in Hurl as [Hurl _].
  now exists url.
Qed.

(** X18.  Every request the view [index] causes is for a line of the
    [urls] field, stripped, not empty, for which [urlparse] gives a scheme
    and a host, and it is made with the defaults of the client.  When no line
    is such a URL the view answers 400 [No valid URLs provided] and nothing
    is requested. *)
Theorem X18_index_requests_only_valid_urls w io form :
  let urls_input := Str.split_char Str.newline (BatchProcessor.opt_str (f_urls form)) in
  (forall r, In r (requests (snd (index_post w io form))) ->
             exists line scheme netloc,
               In line urls_input
               /\ r = BatchProcessor.request (strip line) /\ strip line <> ""
               /\ urlparse (strip line) = Ok (scheme, netloc)
               /\ scheme <> "" /\ netloc <> "")
  /\ (valid_urls urls_input = Ok [] ->
      index_post w io form = (Ok (Text "No valid URLs provided" 400), [])).
Proof.
  intros urls_input. unfold index_post. fold urls_input.
  destruct (valid_urls urls_input) as [urls|e] eqn:Hv.
  - split.
    + destruct urls as [|u urls]; [intros r []|].
      set (kw := BatchProcessor.mkKwargs _ _ _ _ _).
      intros r Hin.
      assert (Hr : In r (requests (BatchProcessor.trace
                                     (snd (BatchProcessor.process_urls_sync w (u :: urls) kw))))).
      { destruct (BatchProcessor.process_urls_sync w (u :: urls) kw) as [[scraped|e] st];
          cbn [snd] in *; [|exact Hin].
        destruct (valid_results scraped); exact Hin. }
      destruct (process_urls_sync_requests w _ kw r Hr) as (url & Hurl & ->).
      destruct (valid_urls_spec _ _ Hv url Hurl) as (line & s & n & Hl & -> & Hne & Hp & Hs & Hn).
      exists line, s, n. repeat split; auto.
    + intros [= ->]. reflexivity.
  - split; [intros r []|discriminate].
Qed.

(** *** The JSONL file *)

Lemma escape_printable c : all_chars printable (Json.escape c) = true.
Proof. destruct c as [[] [] [] [] [] [] [] []]; reflexivity. Qed.

Lemma escape_all_printable s : all_chars printable (Json.escape_all s) = true.
Proof.
  induction s as [|c s IH]; [reflexivity|]. cbn [Json.escape_all].
  now rewrite all_chars_app, escape_printable, IH.
Qed.

Lemma str_printable s : all_chars printable (Json.str s) = true.
Proof.
  unfold Json.str. rewrite !all_chars_app, escape_all_printable. reflexivity.
Qed.

Lemma join_printable sep l :
  all_chars printable sep = true -> Forall (fun s => all_chars printable s = true) l ->
  all_chars printable (join sep l) = true.
Proof.
  intros Hsep Hl. induction Hl as [|s l Hs Hl IH]; [reflexivity|].
  destruct l as [|t l]; [exact Hs|].
  change (join sep (s :: t :: l)) with (s ++ sep ++ join sep (t :: l))%string.
  now rewrite !all_chars_app, Hs, Hsep, IH.
Qed.

Lemma str_list_printable l : all_chars printable (Json.str_list l) = true.
Proof.
  unfold Json.str_list. cbn [append all_chars]. rewrite all_chars_app.
  rewrite join_printable; [reflexivity|reflexivity|].
  apply Forall_forall. intros s Hs. apply in_map_iff in Hs as (t & <- & _). apply str_printable.
Qed.

Lemma uint_printable d : all_chars printable (NilEmpty.string_of_uint d) = true.
Proof. induction d; cbn [NilEmpty.string_of_uint all_chars]; try rewrite IHd; reflexivity. Qed.

Lemma str_of_int_printable n : all_chars printable (str_of_int n) = true.
Proof.
  unfold str_of_int, NilZero.string_of_int, NilZero.string_of_uint.
  destruct (Z.to_int n) as [d|d]; destruct d; cbn [all_chars];
    try reflexivity; try apply uint_printable;
    try (change (all_chars printable (NilEmpty.string_of_uint ?x))
           with (all_chars printable (NilEmpty.string_of_uint x)); apply uint_printable).
Qed.

Lemma jsonl_record_printable uc : all_chars printable (jsonl_record uc) = true.
Proof.
  unfold jsonl_record. cbn zeta.
  repeat (rewrite all_chars_app || rewrite str_printable || rewrite str_list_printable
          || rewrite str_of_int_printable).
  reflexivity.
Qed.

Lemma printable_no_newline s : all_chars printable s = true -> no_newline s = true.
Proof.
  apply all_chars_weaken. intros c Hc.
  destruct (Ascii.eqb_spec c Str.newline) as [->|]; [discriminate|reflexivity].
Qed.

Lemma split_char_line a rest :
  no_newline a = true ->
  Str.split_char Str.newline (a ++ nl ++ rest) = a :: Str.split_char Str.newline rest.
Proof.
  induction a as [|c a IH]; intros Ha.
  - reflexivity.
  - rewrite no_newline_cons in Ha. apply andb_prop in Ha as [Hc Ha].
    cbn [append Str.split_char]. destruct (Ascii.eqb c Str.newline); [discriminate|].
    cbn [append] in IH. now rewrite (IH Ha).
Qed.

(** X19.  The JSONL file holds one record per line: splitting the file at
    the newlines gives the records of the results, in order, and an empty
    last piece.  A record is printable ASCII only, whatever the URL and the
    content hold, newlines and quotes included. *)
Theorem X19_jsonl_one_record_per_line valid_results :
  Str.split_char Str.newline (render_jsonl valid_results)
  = (map jsonl_record valid_results ++ [""])%list
  /\ forall uc, all_chars printable (jsonl_record uc) = true.
Proof.
  split; [|apply jsonl_record_printable].
  unfold render_jsonl. induction valid_results as [|uc rest IH]; [reflexivity|].
  cbn [map String.concat app].
  assert (Hline : jsonl_line uc = (jsonl_record uc ++ nl)%string).
  { unfold jsonl_line, jsonl_record. cbn zeta.
    repeat first [rewrite append_assoc' | progress cbn [append]]. reflexivity. }
  assert (Hrec : Str.split_char Str.newline (jsonl_line uc ++ String.concat "" (map jsonl_line rest))
                 = jsonl_record uc :: Str.split_char Str.newline (String.concat "" (map jsonl_line rest))).
  { rewrite Hline, append_assoc'. apply split_char_line.
    apply printable_no_newline, jsonl_record_printable. }
  destruct (map jsonl_line rest) as [|l ls] eqn:Hrest.
  - destruct rest; [|discriminate]. cbn [map app]. rewrite Hline.
    rewrite <- (append_nil_r (jsonl_record uc ++ nl)), append_assoc'.
    rewrite split_char_line; [reflexivity|].
    apply printable_no_newline, jsonl_record_printable.
  - cbn [append]. rewrite Hrec, IH. reflexivity.
Qed.
End Index.

(** ** sync_manager.py: the store and the passes *)

Section Store.
Import SyncManager PassObs StoreObs.
Variable tk : Tick.

Lemma keeps_db_add_urls_loop config_id urls : forall work,
  keeps_db (add_urls_loop tk config_id urls work).
Proof.
  induction urls as [|url rest IH]; intros work.
  - apply keeps_db_ret.
  - cbn [add_urls_loop]. apply keeps_db_bind; [apply keeps_db_db_op|]. intros _. apply IH.
Qed.

Lemma add_urls_loop_ok config_id urls : forall work s,
  no_fault_from tk (ops s) ->
  add_urls_loop tk config_id urls work s
  = (Ok (add_all work config_id urls),
     mkSt (db s) (pipeline s) (ops s + List.length urls) (sink_calls s)).
Proof.
  induction urls as [|url rest IH]; intros work s Hnf.
  - cbn. unfold ret. rewrite Nat.add_0_r. now destruct s.
  - cbn [add_urls_loop add_all fold_left]. unfold mbind at 1.
    rewrite db_op_ok by (apply Hnf; lia).
    rewrite IH by (intros k Hk; apply Hnf; cbn [ops] in Hk; lia).
    cbn [db pipeline ops sink_calls List.length]. do 2 f_equal. lia.
Qed.

Lemma insert_tracked_shape d config_id url :
  sync_configurations (insert_tracked d config_id url) = sync_configurations d
  /\ sync_history (insert_tracked d config_id url) = sync_history d
  /\ tracked_urls (insert_tracked d config_id url)
     = (tracked_urls d
        ++ if is_tracked d config_id url then [] else [mkTracked config_id url None None])%list
  /\ is_tracked (insert_tracked d config_id url) config_id url = true.
Proof.
  unfold insert_tracked, is_tracked.
  destruct (existsb _ (tracked_urls d)) eqn:Hex.
  - rewrite app_nil_r. auto.
  - cbn [sync_configurations sync_history tracked_urls]. repeat split.
    rewrite existsb_app. cbn [existsb]. rewrite Z.eqb_refl, String.eqb_refl.
    now rewrite orb_true_r.
Qed.

Lemma is_tracked_insert d config_id url cid u :
  is_tracked (insert_tracked d config_id url) cid u
  = is_tracked d cid u || ((config_id =? cid) && (url =? u)%string).
Proof.
  destruct (insert_tracked_shape d config_id url) as (_ & _ & Ht & _).
  unfold is_tracked at 1. rewrite Ht, existsb_app. fold (is_tracked d cid u).
  destruct (is_tracked d config_id url) eqn:Hin; cbn [existsb tu_config_id tu_url].
  - rewrite orb_false_r.
    destruct (Z.eqb_spec config_id cid) as [->|]; [|now rewrite orb_false_r].
    destruct (String.eqb_spec url u) as [->|]; [|now rewrite orb_false_r].
    now rewrite Hin.
  - now rewrite orb_false_r.
Qed.

Lemma add_all_shape urls : forall d config_id,
  sync_configurations (add_all d config_id urls) = sync_configurations d
  /\ sync_history (add_all d config_id urls) = sync_history d
  /\ (exists added,
         tracked_urls (add_all d config_id urls) = (tracked_urls d ++ added)%list
         /\ forall row, In row added ->
                        row = mkTracked config_id (tu_url row) None None
                        /\ In (tu_url row) urls
                        /\ is_tracked d config_id (tu_url row) = false)
  /\ (forall cid u, is_tracked (add_all d config_id urls) cid u
                    = is_tracked d cid u
                      || ((config_id =? cid) && existsb (String.eqb u) urls)).
Proof.
  induction urls as [|url rest IH]; intros d config_id.
  - cbn [add_all fold_left]. repeat split.
    + exists []. rewrite app_nil_r. split; [reflexivity|intros row []].
    + intros cid u. cbn [existsb]. now rewrite andb_false_r, orb_false_r.
  - cbn [add_all fold_left]. fold (add_all (insert_tracked d config_id url) config_id rest).
    destruct (IH (insert_tracked d config_id url) config_id) as (Hc & Hh & (added & Ht & Hadded) & Hk).
    destruct (insert_tracked_shape d config_id url) as (Hc1 & Hh1 & Ht1 & _).
    split; [congruence|]. split; [congruence|]. split.
    + exists ((if is_tracked d config_id url then [] else [mkTracked config_id url None None])
              ++ added)%list.
      split; [rewrite Ht, Ht1; now rewrite app_assoc|].
      intros row Hin. apply in_app_or in Hin as [Hin|Hin].
      * destruct (is_tracked d config_id url) eqn:Hd; [destruct Hin|].
        destruct Hin as [<-|[]]. cbn [tu_url]. split; [reflexivity|]. split; [now left|exact Hd].
      * destruct (Hadded row Hin) as (Hrow & Hu & Hnew). split; [exact Hrow|]. split; [now right|].
        rewrite is_tracked_insert in Hnew. now apply orb_false_elim in Hnew as [Hnew _].
    + intros cid u. rewrite Hk, is_tracked_insert. cbn [existsb].
      rewrite (String.eqb_sym u url).
      destruct (is_tracked d cid u), (config_id =? cid), (url =? u)%string,
        (existsb (String.eqb u) rest); reflexivity.
Qed.

(** X20.  [add_urls_to_config] adds all the URLs or none: when it raises,
    the database is as it was.  When no database operation fails, the
    configurations and the history are as they were, the rows that were there
    are unchanged and in place (the stored hashes are not reset), the rows
    added are new pairs of the configuration and a URL given, without hash or
    time, and every URL given is tracked afterwards. *)
Theorem X20_add_urls_to_config_is_atomic config_id urls s :
  (forall e s', add_urls_to_config tk config_id urls s = (Raise e, s') -> db s' = db s)
  /\ (no_fault_from tk (ops s) ->
      exists s',
        add_urls_to_config tk config_id urls s = (Ok tt, s')
        /\ sync_configurations (db s') = sync_configurations (db s)
        /\ sync_history (db s') = sync_history (db s)
        /\ (exists added,
               tracked_urls (db s') = (tracked_urls (db s) ++ added)%list
               /\ forall row, In row added ->
                              row = mkTracked config_id (tu_url row) None None
                              /\ In (tu_url row) urls
                              /\ is_tracked (db s) config_id (tu_url row) = false)
        /\ (forall url, In url urls -> is_tracked (db s') config_id url = true)).
Proof.
  split.
  - intros e s'. revert s e s'. change (keeps_db_on_raise (add_urls_to_config tk config_id urls)).
    unfold add_urls_to_config.
    apply keeps_db_on_raise_bind; [apply keeps_db_db_op|]. intros _.
    apply keeps_db_on_raise_bind; [apply keeps_db_read|]. intros work.
    apply keeps_db_on_raise_bind; [apply keeps_db_add_urls_loop|]. intros work'.
    apply keeps_db_on_raise_commit.
  - intros Hnf. unfold add_urls_to_config.
    unfold mbind at 1. rewrite db_op_ok by (apply Hnf; lia).
    unfold mbind at 1, read_db at 1. cbn [db].
    unfold mbind at 1. rewrite add_urls_loop_ok by (intros k Hk; apply Hnf; cbn [ops] in Hk; lia).
    rewrite commit_ok by (apply Hnf; cbn [ops]; lia).
    eexists. split; [reflexivity|]. cbn [db].
    destruct (add_all_shape urls (db s) config_id) as (Hc & Hh & Hadded & Hk).
    split; [exact Hc|]. split; [exact Hh|]. split; [exact Hadded|].
    intros url Hin. rewrite Hk, Z.eqb_refl. cbn [andb].
    assert (Hex : existsb (String.eqb url) urls = true).
    { apply existsb_exists. exists url. split; [exact Hin|apply String.eqb_refl]. }
    now rewrite Hex, orb_true_r.
Qed.
End Store.

Section Store2.
Import SyncManager PassObs StoreObs.
Variable tk : Tick.

Lemma insert_tracked_present d config_id url :
  is_tracked d config_id url = true -> insert_tracked d config_id url = d.
Proof. unfold is_tracked, insert_tracked. now intros ->. Qed.

Lemma add_all_present urls : forall d config_id,
  (forall url, In url urls -> is_tracked d config_id url = true) ->
  add_all d config_id urls = d.
Proof.
  induction urls as [|url rest IH]; intros d config_id Hall; [reflexivity|].
  cbn [add_all fold_left]. rewrite insert_tracked_present by (apply Hall; now left).
  apply IH. intros u Hu. apply Hall. now right.
Qed.

Lemma is_tracked_key d config_id url :
  is_tracked d config_id url = true <-> In (config_id, url) (map tracked_key (tracked_urls d)).
Proof.
  unfold is_tracked. rewrite existsb_exists, in_map_iff. split.
  - intros (row & Hin & Hk). apply andb_prop in Hk as [Hc Hu].
    apply Z.eqb_eq in Hc. apply String.eqb_eq in Hu. exists row. split; [|exact Hin].
    unfold tracked_key. congruence.
  - intros (row & Hk & Hin). exists row. split; [exact Hin|].
    unfold tracked_key in Hk. injection Hk as -> ->.
    now rewrite Z.eqb_refl, String.eqb_refl.
Qed.

Lemma insert_tracked_unique d config_id url :
  NoDup (map tracked_key (tracked_urls d)) ->
  NoDup (map tracked_key (tracked_urls (insert_tracked d config_id url))).
Proof.
  intros Hnd. destruct (insert_tracked_shape d config_id url) as (_ & _ & -> & _).
  destruct (is_tracked d config_id url) eqn:Hin; [now rewrite app_nil_r|].
  rewrite map_app. cbn [map].
  apply NoDup_app; [exact Hnd|repeat constructor; intros []|].
  intros k Hk [<-|[]].
  change (tracked_key (mkTracked config_id url None None)) with (config_id, url) in Hk.
  apply is_tracked_key in Hk. congruence.
Qed.

Lemma add_all_unique urls : forall d config_id,
  NoDup (map tracked_key (tracked_urls d)) ->
  NoDup (map tracked_key (tracked_urls (add_all d config_id urls))).
Proof.
  induction urls as [|url rest IH]; intros d config_id Hnd; [exact Hnd|].
  cbn [add_all fold_left]. apply IH. now apply insert_tracked_unique.
Qed.

Lemma add_urls_run config_id urls s :
  no_fault_from tk (ops s) ->
  add_urls_to_config tk config_id urls s
  = (Ok tt, mkSt (add_all (db s) config_id urls) (pipeline s)
                 (ops s + List.length urls + 2) (sink_calls s)).
Proof.
  intros Hnf. unfold add_urls_to_config.
  unfold mbind at 1. rewrite db_op_ok by (apply Hnf; lia).
  unfold mbind at 1, read_db at 1. cbn [db].
  unfold mbind at 1. rewrite add_urls_loop_ok by (intros k Hk; apply Hnf; cbn [ops] in Hk; lia).
  rewrite commit_ok by (apply Hnf; cbn [ops]; lia).
  cbn [db pipeline ops sink_calls]. do 2 f_equal. lia.
Qed.

(** X21.  Adding the same URLs to a configuration a second time changes
    nothing; adding URLs that are all tracked already changes nothing; and
    when the pairs (configuration, URL) were unique before they are unique
    after. *)
Theorem X21_add_urls_to_config_is_idempotent config_id urls s :
  no_fault_from tk (ops s) ->
  exists s1 s2,
    add_urls_to_config tk config_id urls s = (Ok tt, s1)
    /\ add_urls_to_config tk config_id urls s1 = (Ok tt, s2)
    /\ db s2 = db s1
    /\ (NoDup (map tracked_key (tracked_urls (db s))) ->
        NoDup (map tracked_key (tracked_urls (db s1))))
    /\ ((forall url, In url urls -> is_tracked (db s) config_id url = true) ->
        db s1 = db s).
Proof.
  intros Hnf. rewrite (add_urls_run config_id urls s Hnf).
  eexists. eexists. split; [reflexivity|].
  rewrite add_urls_run by (intros k Hk; apply Hnf; cbn [ops] in Hk; lia).
  split; [reflexivity|]. cbn [db]. split; [|split].
  - apply add_all_present. intros url Hin.
    destruct (add_all_shape urls (db s) config_id) as (_ & _ & _ & Hk).
    rewrite Hk, Z.eqb_refl. cbn [andb].
    assert (Hex : existsb (String.eqb url) urls = true).
    { apply existsb_exists. exists url. split; [exact Hin|apply String.eqb_refl]. }
    now rewrite Hex, orb_true_r.
  - apply add_all_unique.
  - apply add_all_present.
Qed.
End Store2.

Section PassMore.
Import Obs PassObs SyncManager.
Context {L : Libs}.
Variable tk : Tick.
Variable config : SyncConfig.

(** X22.  The pass of a configuration without tracked URLs does nothing:
    the database is as it was, no history record is written and [last_sync]
    is not set, nothing is fetched and the sink is not called.  A
    configuration that was due is therefore due again at every later tick. *)
Theorem X22_pass_without_tracked_urls s :
  select_tracked (db s) (cfg_id config) = [] ->
  no_fault_from tk (ops s) ->
  exists s',
    _process_config tk config s = (Ok tt, s')
    /\ db s' = db s
    /\ sink_calls s' = sink_calls s
    /\ pipeline s' = pipeline s
    /\ (In config (select_due (now tk) (db s)) ->
        forall later, now tk <= later -> In config (select_due later (db s'))).
Proof.
  intros Hnone Hnf. unfold _process_config, try_block.
  unfold mbind at 1. rewrite db_op_ok by (apply Hnf; lia).
  unfold mbind at 1. rewrite db_op_ok by (apply Hnf; cbn [ops]; lia).
  unfold mbind at 1, read_db at 1. cbn [db]. rewrite Hnone.
  rewrite commit_ok by (apply Hnf; cbn [ops]; lia).
  eexists. split; [reflexivity|]. cbn [db sink_calls pipeline].
  repeat split. intros Hdue later Hlater.
  unfold select_due in *. apply filter_In in Hdue as [Hin Hdue].
  apply filter_In. split; [exact Hin|]. now apply (is_due_later (now tk)).
Qed.

Lemma filter_split_length {A} (p : A -> bool) (l : list A) :
  (List.length (filter p l) + List.length (filter (fun x => negb (p x)) l))%nat
  = List.length l.
Proof.
  induction l as [|x l IH]; [reflexivity|]. cbn [filter].
  destruct (p x); cbn [negb List.length]; lia.
Qed.

Lemma changed_not_more_than_ok tracked (results : dict string) :
  (List.length (changed_entries tracked results)
   <= List.length (filter (fun uc => negb (is_error (snd uc))) results))%nat.
Proof.
  induction results as [|uc rest IH]; [reflexivity|].
  rewrite changed_entries_cons. cbn [filter]. unfold changed_b.
  destruct (is_error (snd uc)); cbn [negb andb]; [exact IH|].
  destruct (hash_differs _ _); cbn [List.length]; lia.
Qed.

Lemma history_persist_all changed : forall work,
  sync_history (persist_all tk (cfg_id config) changed work) = sync_history work.
Proof.
  induction changed as [|uc rest IH]; intros work; [reflexivity|].
  rewrite persist_all_cons, IH. reflexivity.
Qed.

(** X23.  A pass that completes appends one [completed] record to the
    history: [urls_processed] is the number of tracked URLs, the number of
    changed URLs in its message is the number of sink calls of the pass,
    [urls_failed] and the number of changed URLs are not negative, and
    together they do not exceed [urls_processed]. *)
Theorem X23_completed_pass_is_recorded s :
  no_fault_from tk (ops s) ->
  0 < BatchProcessor.batch_size (BatchProcessor.self (pipeline s)) ->
  select_tracked (db s) (cfg_id config) <> [] ->
  NoDup (map tu_url (select_tracked (db s) (cfg_id config))) ->
  exists s' urls_changed urls_failed,
    let urls_processed := Z.of_nat (List.length (select_tracked (db s) (cfg_id config))) in
    _process_config tk config s = (Ok tt, s')
    /\ sync_history (db s')
       = (sync_history (db s)
          ++ [mkHistory (cfg_id config) "completed"
                (status_message urls_processed urls_changed urls_failed)
                urls_processed urls_failed (now tk)])%list
    /\ Z.of_nat (List.length (sink_calls s'))
       = Z.of_nat (List.length (sink_calls s)) + urls_changed
    /\ 0 <= urls_changed /\ 0 <= urls_failed
    /\ urls_changed + urls_failed <= urls_processed.
Proof.
  intros Hnf Hbs Hne Hnd.
  destruct (try_block_ok tk config s Hnf Hbs Hne) as [_ Htry]. cbv zeta in Htry.
  set (tracked := select_tracked (db s) (cfg_id config)) in *.
  set (value := fun u => BatchProcessor.process_url_value (net tk) u (kwargs_of config)) in *.
  assert (Hresults : assigned value (map tu_url tracked) []
                     = map (fun u => (u, value u)) (map tu_url tracked)).
  { rewrite (assigned_nodup value (map tu_url tracked) []);
      [reflexivity | exact Hnd | intros x _ []]. }
  rewrite Hresults in Htry.
  set (results := map (fun u => (u, value u)) (map tu_url tracked)) in *.
  assert (Hlen : List.length results = List.length tracked).
  { unfold results. now rewrite !length_map. }
  rewrite Hlen in Htry.
  eexists. exists (Z.of_nat (List.length (changed_entries tracked results))).
  exists (Z.of_nat (List.length (filter is_error (values results)))).
  cbv zeta. split; [unfold _process_config; rewrite Htry; reflexivity|].
  cbn [db sink_calls]. unfold update_last_sync, insert_history. cbn [sync_history].
  rewrite history_persist_all. split; [reflexivity|].
  split; [rewrite length_app, length_map; lia|].
  split; [lia|]. split; [lia|].
  pose proof (changed_not_more_than_ok tracked results) as Hc.
  pose proof (filter_split_length (fun uc : string * string => is_error (snd uc)) results) as Hs.
  assert (Hv : List.length (filter is_error (values results))
               = List.length (filter (fun uc : string * string => is_error (snd uc)) results)).
  { unfold values. clear. induction results as [|uc rest IH]; [reflexivity|].
    cbn [map filter]. destruct (is_error (snd uc)); cbn [List.length]; now rewrite IH. }
  lia.
Qed.
End PassMore.

Section Frame.
Import SyncManager PassObs StoreObs.
Context {L : Libs}.
Variable tk : Tick.

Lemma Forall2_same {A} (R : A -> A -> Prop) (l : list A) :
  (forall x, R x x) -> Forall2 R l l.
Proof. intros H. induction l; constructor; auto. Qed.

Lemma Forall2_map_r {A} (R : A -> A -> Prop) (g : A -> A) (l : list A) :
  (forall x, R x (g x)) -> Forall2 R l (map g l).
Proof. intros H. induction l; constructor; auto. Qed.

Lemma Forall2_compose {A} (R S T : A -> A -> Prop) :
  (forall x y z, R x y -> S y z -> T x z) ->
  forall l1 l2 l3, Forall2 R l1 l2 -> Forall2 S l2 l3 -> Forall2 T l1 l3.
Proof.
  intros H l1 l2 l3 H12. revert l3. induction H12; intros l3 H23; inversion H23; subst.
  - constructor.
  - constructor; [eapply H; eassumption|auto].
Qed.

Lemma row_frame_trans cid x y z : row_frame cid x y -> row_frame cid y z -> row_frame cid x z.
Proof.
  intros (H1 & H2 & H3) (H4 & H5 & H6). split; [congruence|]. split; [congruence|].
  intros Hne. rewrite <- (H3 Hne). apply H6. congruence.
Qed.

Lemma set_last_sync_twice c t t' : set_last_sync (set_last_sync c t) t' = set_last_sync c t'.
Proof. reflexivity. Qed.

Lemma config_frame_trans cid x y z :
  config_frame cid x y -> config_frame cid y z -> config_frame cid x z.
Proof.
  intros [->|(Hx & t & ->)] [->|(Hy & t' & ->)].
  - now left.
  - right. eauto.
  - right. eauto.
  - right. split; [exact Hx|]. exists t'. apply set_last_sync_twice.
Qed.

Lemma pass_frame_refl cid d : pass_frame cid d d.
Proof.
  split; [|split].
  - apply Forall2_same. intros x. repeat split.
  - apply Forall2_same. intros x. now left.
  - exists []. split; [now rewrite app_nil_r|constructor].
Qed.

Lemma pass_frame_trans cid d1 d2 d3 :
  pass_frame cid d1 d2 -> pass_frame cid d2 d3 -> pass_frame cid d1 d3.
Proof.
  intros (R1 & C1 & a1 & H1 & F1) (R2 & C2 & a2 & H2 & F2). split; [|split].
  - eapply Forall2_compose; [apply row_frame_trans|eassumption|eassumption].
  - eapply Forall2_compose; [apply config_frame_trans|eassumption|eassumption].
  - exists (a1 ++ a2)%list. split; [rewrite H2, H1; now rewrite app_assoc|].
    apply Forall_app. now split.
Qed.

Lemma frame_update_tracked cid d new_hash t url :
  pass_frame cid d (update_tracked d new_hash t cid url).
Proof.
  unfold update_tracked. split; [|split]; cbn [tracked_urls sync_configurations sync_history].
  - apply Forall2_map_r. intros row.
    destruct (Z.eqb_spec (tu_config_id row) cid) as [Hc|Hc]; cbn [andb].
    + destruct (tu_url row =? url)%string; repeat split; intros; congruence.
    + repeat split.
  - apply Forall2_same. intros x. now left.
  - exists []. split; [now rewrite app_nil_r|constructor].
Qed.

Lemma frame_insert_history cid d r :
  h_config_id r = cid -> pass_frame cid d (insert_history d r).
Proof.
  intros Hr. unfold insert_history. split; [|split];
    cbn [tracked_urls sync_configurations sync_history].
  - apply Forall2_same. intros x. repeat split.
  - apply Forall2_same. intros x. now left.
  - exists [r]. split; [reflexivity|]. now constructor.
Qed.

Lemma frame_update_last_sync cid d t : pass_frame cid d (update_last_sync d t cid).
Proof.
  unfold update_last_sync. split; [|split];
    cbn [tracked_urls sync_configurations sync_history].
  - apply Forall2_same. intros x. repeat split.
  - apply Forall2_map_r. intros c.
    destruct (Z.eqb_spec (cfg_id c) cid) as [Hc|Hc]; [|now left].
    right. split; [exact Hc|]. now exists t.
  - exists []. split; [now rewrite app_nil_r|constructor].
Qed.

Lemma check_changes_frame config tracked results : forall work n s work' n' s',
  check_changes tk config tracked results work n s = (Ok (work', n'), s') ->
  pass_frame (cfg_id config) work work'.
Proof.
  induction results as [|[url content] rest IH]; intros work n s work' n' s' H.
  - cbn in H. injection H as <- _ _. apply pass_frame_refl.
  - rewrite check_changes_cons in H.
    destruct (changed_b tracked (url, content)); [|now apply (IH _ _ _ _ _ _ H)].
    unfold mbind at 1 in H. destruct (db_op tk s) as [[[]|e] s1]; [|discriminate].
    unfold mbind at 1, publish at 1 in H.
    eapply pass_frame_trans; [apply frame_update_tracked|]. exact (IH _ _ _ _ _ _ H).
Qed.

Lemma commit_db work s r s' :
  commit tk work s = (r, s') -> (r = Ok tt /\ db s' = work) \/ (exists e, r = Raise e) /\ db s' = db s.
Proof.
  unfold commit, mbind. destruct (db_op tk s) as [[[]|e] s1] eqn:Hop.
  - intros [= <- <-]. now left.
  - intros [= <- <-]. right. split; [eauto|]. now apply (keeps_db_db_op tk s _ _ Hop).
Qed.

Lemma try_block_frame config s s' :
  try_block tk config s = (Ok tt, s') -> pass_frame (cfg_id config) (db s) (db s').
Proof.
  unfold try_block. unfold mbind at 1.
  destruct (db_op tk s) as [[[]|e] s1] eqn:H1; [|discriminate].
  unfold mbind at 1. destruct (db_op tk s1) as [[[]|e] s2] eqn:H2; [|discriminate].
  unfold mbind at 1, read_db at 1.
  assert (Hdb : db s2 = db s).
  { rewrite (keeps_db_db_op tk s1 _ _ H2). apply (keeps_db_db_op tk s _ _ H1). }
  destruct (select_tracked (db s2) (cfg_id config)) as [|row rows] eqn:Hsel.
  - intros H. destruct (commit_db _ _ _ _ H) as [[_ ->]|[[e He] _]]; [|discriminate].
    rewrite Hdb. apply pass_frame_refl.
  - unfold mbind at 1.
    destruct (run_pipeline tk config _ s2) as [[results|e] s3] eqn:H3; [|discriminate].
    unfold mbind at 1.
    destruct (check_changes tk config _ results (db s2) 0 s3) as [[[work changed]|e] s4] eqn:H4;
      [|discriminate].
    unfold mbind at 1. destruct (db_op tk s4) as [[[]|e] s5] eqn:H5; [|discriminate].
    unfold mbind at 1. destruct (db_op tk s5) as [[[]|e] s6] eqn:H6; [|discriminate].
    intros H. destruct (commit_db _ _ _ _ H) as [[_ ->]|[[e He] _]]; [|discriminate].
    rewrite <- Hdb.
    apply (pass_frame_trans _ _ work); [exact (check_changes_frame _ _ _ _ _ _ _ _ _ H4)|].
    match goal with
    | |- pass_frame _ work (update_last_sync (insert_history work ?r) _ _) =>
        apply (pass_frame_trans _ _ (insert_history work r));
          [apply frame_insert_history; reflexivity|apply frame_update_last_sync]
    end.
Qed.

Lemma except_block_frame config e s r s' :
  except_block tk config e s = (r, s') -> pass_frame (cfg_id config) (db s) (db s').
Proof.
  unfold except_block. unfold mbind at 1.
  destruct (db_op tk s) as [[[]|e1] s1] eqn:H1.
  - unfold mbind at 1. destruct (db_op tk s1) as [[[]|e2] s2] eqn:H2.
    + unfold mbind at 1, read_db at 1.
      assert (Hdb : db s2 = db s).
      { rewrite (keeps_db_db_op tk s1 _ _ H2). apply (keeps_db_db_op tk s _ _ H1). }
      intros H. destruct (commit_db _ _ _ _ H) as [[_ ->]|[_ ->]].
      * rewrite Hdb. apply frame_insert_history. reflexivity.
      * rewrite Hdb. apply pass_frame_refl.
    + intros [= <- <-]. rewrite (keeps_db_db_op tk s1 _ _ H2), (keeps_db_db_op tk s _ _ H1).
      apply pass_frame_refl.
  - intros [= <- <-]. rewrite (keeps_db_db_op tk s _ _ H1). apply pass_frame_refl.
Qed.

Lemma process_config_frame config s :
  pass_frame (cfg_id config) (db s) (db (snd (_process_config tk config s))).
Proof.
  unfold _process_config.
  destruct (try_block tk config s) as [[[]|e] s1] eqn:Htry; cbn [snd].
  - now apply try_block_frame.
  - destruct (except_block tk config e s1) as [r s2] eqn:Hex. cbn [snd].
    rewrite <- (try_block_keeps_db tk config s e s1 Htry).
    now apply (except_block_frame config e s1 r s2).
Qed.

Lemma Forall2_in_both {A} (R : A -> A -> Prop) (P : A -> Prop) l l' :
  Forall2 R l l' -> (forall x y, R x y -> P x -> y = x) -> (forall x y, R x y -> P y -> y = x) ->
  forall x, P x -> (In x l <-> In x l').
Proof.
  intros HF H1 H2. induction HF as [|a b l l' Hab HF IH]; intros x Hx; [tauto|].
  cbn [In]. rewrite (IH x Hx). split; intros [Heq|Hin]; auto; left.
  - subst a. symmetry. symmetry. rewrite (H1 _ _ Hab Hx). reflexivity.
  - subst b. symmetry. apply (H2 _ _ Hab Hx).
Qed.

(** X24.  Whatever fails, a pass adds no row to [tracked_urls] and removes
    none, changes no key (configuration, URL), adds and removes no
    configuration, and changes of a configuration at most [last_sync], and
    only for its own; the rows and the configurations of the others are as
    they were; the history records it appends are its own. *)
Theorem X24_pass_touches_only_its_configuration config s :
  let d := db s in
  let d' := db (snd (_process_config tk config s)) in
  pass_frame (cfg_id config) d d'
  /\ map (fun row => (tu_config_id row, tu_url row)) (tracked_urls d')
     = map (fun row => (tu_config_id row, tu_url row)) (tracked_urls d)
  /\ map cfg_id (sync_configurations d') = map cfg_id (sync_configurations d)
  /\ (forall row, tu_config_id row <> cfg_id config ->
                  (In row (tracked_urls d) <-> In row (tracked_urls d')))
  /\ (forall c, cfg_id c <> cfg_id config ->
                (In c (sync_configurations d) <-> In c (sync_configurations d'))).
Proof.
  cbn zeta. pose proof (process_config_frame config s) as Hf.
  split; [exact Hf|]. destruct Hf as (Hrows & Hconfigs & _).
  split; [|split; [|split]].
  - induction Hrows as [|a b l l' (H1 & H2 & _) _ IH]; [reflexivity|].
    cbn [map]. now rewrite IH, H1, H2.
  - induction Hconfigs as [|a b l l' Hab _ IH]; [reflexivity|].
    cbn [map]. rewrite IH. destruct Hab as [->|(_ & t & ->)]; reflexivity.
  - intros row Hrow.
    apply (Forall2_in_both (row_frame (cfg_id config))
             (fun r => tu_config_id r <> cfg_id config) _ _ Hrows).
    + intros x y (_ & _ & H) Hx. now apply H.
    + intros x y (H1 & _ & H) Hy. apply H. congruence.
    + exact Hrow.
  - intros c Hc.
    apply (Forall2_in_both (config_frame (cfg_id config))
             (fun c0 => cfg_id c0 <> cfg_id config) _ _ Hconfigs).
    + intros x y [->|(Hx & _)] Hne; [reflexivity|contradiction].
    + intros x y [->|(Hx & t & ->)] Hne; [reflexivity|]. cbn [set_last_sync cfg_id] in Hne.
      contradiction.
    + exact Hc.
Qed.

(** *** A whole cycle *)

Lemma untouched_refl cid d : untouched cid d d.
Proof.
  split; [|split].
  - apply Forall2_same. intros x. now split.
  - apply Forall2_same. intros x. now split.
  - exists []. split; [now rewrite app_nil_r|constructor].
Qed.

Lemma untouched_trans cid d1 d2 d3 :
  untouched cid d1 d2 -> untouched cid d2 d3 -> untouched cid d1 d3.
Proof.
  intros (R1 & C1 & a1 & H1 & F1) (R2 & C2 & a2 & H2 & F2). split; [|split].
  - eapply Forall2_compose; [|eassumption|eassumption]. cbv beta.
    intros x y z (Hk & Hx) (Hk' & Hy). split; [congruence|].
    intros Hc. rewrite <- (Hx Hc). apply Hy. congruence.
  - eapply Forall2_compose; [|eassumption|eassumption]. cbv beta.
    intros x y z (Hk & Hx) (Hk' & Hy). split; [congruence|].
    intros Hc. rewrite <- (Hx Hc). apply Hy. congruence.
  - exists (a1 ++ a2)%list. split; [rewrite H2, H1; now rewrite app_assoc|].
    apply Forall_app. now split.
Qed.

Lemma frame_untouched cid other d d' :
  other <> cid -> pass_frame other d d' -> untouched cid d d'.
Proof.
  intros Hne (Hrows & Hconfigs & added & Hh & Hadded). split; [|split].
  - eapply Forall2_impl; [|exact Hrows]. intros x y (H1 & _ & H3). split; [exact H1|].
    intros Hc. apply H3. congruence.
  - eapply Forall2_impl; [|exact Hconfigs]. intros x y [->|(Hx & t & ->)].
    + now split.
    + split; [reflexivity|]. intros Hc. congruence.
  - exists added. split; [exact Hh|]. eapply Forall_impl; [|exact Hadded].
    cbv beta. intros r Hr. congruence.
Qed.

Lemma gather_untouched cid configs : forall s,
  (forall c, In c configs -> cfg_id c <> cid) ->
  untouched cid (db s) (db (gather tk configs s)).
Proof.
  induction configs as [|config rest IH]; intros s Hall; [apply untouched_refl|].
  cbn [gather]. eapply untouched_trans; [|apply IH; intros c Hc; apply Hall; now right].
  apply (frame_untouched cid (cfg_id config)); [apply Hall; now left|].
  apply process_config_frame.
Qed.

Lemma cycle_untouched cid s :
  (forall c, In c (select_due (now tk) (db s)) -> cfg_id c <> cid) ->
  untouched cid (db s) (db (run_sync_cycle tk s)).
Proof.
  intros Hdue. unfold run_sync_cycle. unfold mbind at 1.
  destruct (db_op tk s) as [[[]|e] s1] eqn:H1;
    [|rewrite (keeps_db_db_op tk s _ _ H1); apply untouched_refl].
  unfold mbind at 1.
  destruct (db_op tk s1) as [[[]|e] s2] eqn:H2;
    [|rewrite (keeps_db_db_op tk s1 _ _ H2), (keeps_db_db_op tk s _ _ H1);
      apply untouched_refl].
  unfold read_db.
  assert (Hdb : db s2 = db s).
  { rewrite (keeps_db_db_op tk s1 _ _ H2). apply (keeps_db_db_op tk s _ _ H1). }
  rewrite <- Hdb at 1. apply gather_untouched. rewrite Hdb. exact Hdue.
Qed.

(** X25.  A scheduler cycle leaves alone the configurations it did not
    select: their rows of [tracked_urls] and the configurations themselves
    are as they were, and no history record is written for them, whatever
    fails during the cycle. *)
Theorem X25_cycle_leaves_other_configurations cid s :
  (forall c, In c (select_due (now tk) (db s)) -> cfg_id c <> cid) ->
  let d := db s in
  let d' := db (run_sync_cycle tk s) in
  untouched cid d d'
  /\ (forall row, tu_config_id row = cid ->
                  (In row (tracked_urls d) <-> In row (tracked_urls d')))
  /\ (forall c, cfg_id c = cid ->
                (In c (sync_configurations d) <-> In c (sync_configurations d'))).
Proof.
  intros Hdue. cbn zeta. pose proof (cycle_untouched cid s Hdue) as Hu.
  split; [exact Hu|]. destruct Hu as (Hrows & Hconfigs & _). split.
  - intros row Hrow.
    apply (Forall2_in_both _ (fun r => tu_config_id r = cid) _ _ Hrows).
    + intros x y (_ & H) Hx. now apply H.
    + intros x y (H1 & H) Hy. apply H. congruence.
    + exact Hrow.
  - intros c Hc.
    apply (Forall2_in_both _ (fun c0 => cfg_id c0 = cid) _ _ Hconfigs).
    + intros x y (_ & H) Hx. now apply H.
    + intros x y (H1 & H) Hy. apply H. congruence.
    + exact Hc.
Qed.
End Frame.

Section Service.
Import SyncManager PassObs StoreObs.
Context {L : Libs}.

Lemma untouched_inactive cid d d' :
  untouched cid d d' ->
  (forall c, In c (sync_configurations d) -> cfg_id c = cid -> cfg_active c = false) ->
  forall c, In c (sync_configurations d') -> cfg_id c = cid -> cfg_active c = false.
Proof.
  intros (_ & Hconfigs & _).
  induction Hconfigs as [|a b l l' (Hid & Hsame) _ IH]; intros Hin c Hc Hcid; [destruct Hc|].
  destruct Hc as [<-|Hc].
  - rewrite Hid in Hcid. rewrite (Hsame Hcid). apply Hin; [now left|exact Hcid].
  - apply IH; [intros c0 Hc0; apply Hin; now right|exact Hc|exact Hcid].
Qed.

(** X27.  The sync service never touches a configuration that is not
    active: after any number of cycles, and whatever fails in them, the rows
    of [tracked_urls] of such a configuration and the configuration itself
    are as they were, and no history record was written for it. *)
Theorem X27_service_leaves_inactive_configurations ticks : forall cid s,
  (forall c, In c (sync_configurations (db s)) -> cfg_id c = cid -> cfg_active c = false) ->
  untouched cid (db s) (db (start_sync_service ticks s)).
Proof.
  induction ticks as [|tk rest IH]; intros cid s Hinactive; [apply untouched_refl|].
  unfold start_sync_service. cbn [fold_left].
  fold (start_sync_service rest (run_sync_cycle tk s)).
  assert (Hcycle : untouched cid (db s) (db (run_sync_cycle tk s))).
  { apply cycle_untouched. intros c Hc Hcid. unfold select_due in Hc.
    apply filter_In in Hc as [Hin Hdue]. unfold is_due in Hdue.
    rewrite (Hinactive c Hin Hcid) in Hdue. discriminate. }
  eapply untouched_trans; [exact Hcycle|].
  apply IH. now apply (untouched_inactive cid (db s)).
Qed.

End Service.

(** ** The fingerprint *)

Section Hash.
Import Sha256 StrObs StrObs.

Lemma round_length s kw : List.length s = 8%nat -> List.length (round s kw) = 8%nat.
Proof.
  intros H. do 9 (destruct s as [|? s]; try discriminate). reflexivity.
Qed.

Lemma rounds_length l : forall s,
  List.length s = 8%nat -> List.length (fold_left round l s) = 8%nat.
Proof.
  induction l as [|kw l IH]; intros s H; [exact H|].
  cbn [fold_left]. apply IH. now apply round_length.
Qed.

Lemma compress_length s block :
  List.length s = 8%nat -> List.length (compress s block) = 8%nat.
Proof.
  intros H. unfold compress. rewrite length_map, length_combine, rounds_length by exact H.
  rewrite H. reflexivity.
Qed.

Lemma blocks_length n : forall s bytes,
  List.length s = 8%nat -> List.length (blocks n s bytes) = 8%nat.
Proof.
  induction n as [|n IH]; intros s bytes H; [exact H|].
  cbn [blocks]. destruct bytes; [exact H|]. apply IH. now apply compress_length.
Qed.

Lemma be_bytes_spec n x :
  List.length (be_bytes n x) = n /\ Forall (fun b => 0 <= b < 256) (be_bytes n x).
Proof.
  induction n as [|n [IH1 IH2]]; [split; [reflexivity|constructor]|].
  cbn [be_bytes List.length]. split; [now rewrite IH1|].
  constructor; [|exact IH2]. apply Z.mod_pos_bound. lia.
Qed.

Lemma digest_spec msg :
  List.length (digest msg) = 32%nat /\ Forall (fun b => 0 <= b < 256) (digest msg).
Proof.
  unfold digest.
  assert (Hs : List.length (blocks (List.length (pad msg)) H0 (pad msg)) = 8%nat)
    by (apply blocks_length; reflexivity).
  revert Hs. generalize (blocks (List.length (pad msg)) H0 (pad msg)). intros s Hs.
  assert (Hgen : forall l, List.length (flat_map (be_bytes 4) l) = (4 * List.length l)%nat
                           /\ Forall (fun b => 0 <= b < 256) (flat_map (be_bytes 4) l)).
  { induction l as [|x l [IH1 IH2]]; [split; [reflexivity|constructor]|].
    cbn [flat_map]. destruct (be_bytes_spec 4 x) as [H1 H2]. split.
    - rewrite length_app, H1, IH1. cbn [List.length]. lia.
    - apply Forall_app. now split. }
  destruct (Hgen s) as [H1 H2]. split; [rewrite H1, Hs; reflexivity|exact H2].
Qed.

Lemma hex_digit_lower n : 0 <= n < 16 -> lower_hex (hex_digit n) = true.
Proof.
  intros H. rewrite <- (Z2Nat.id n) by lia.
  assert (Hk : (Z.to_nat n < 16)%nat) by lia.
  revert Hk. generalize (Z.to_nat n). intros k Hk.
  do 16 (destruct k as [|k]; [reflexivity|]). lia.
Qed.

Lemma hex_spec bytes :
  Forall (fun b => 0 <= b < 256) bytes ->
  String.length (hex bytes) = (2 * List.length bytes)%nat
  /\ all_chars lower_hex (hex bytes) = true.
Proof.
  induction 1 as [|b bytes Hb _ [IH1 IH2]]; [split; reflexivity|].
  cbn [hex String.length List.length all_chars]. split; [rewrite IH1; lia|].
  rewrite IH2, !hex_digit_lower; [reflexivity| |].
  - apply Z.mod_pos_bound. lia.
  - split; [apply Z.div_pos; lia|apply Z.div_lt_upper_bound; lia].
Qed.

(** X26.  [_compute_content_hash] returns 64 characters, each one of 0-9
    and a-f, for every content. *)
Theorem X26_content_hash_is_64_hex_digits content :
  String.length (SyncManager._compute_content_hash content) = 64%nat
  /\ all_chars lower_hex (SyncManager._compute_content_hash content) = true.
Proof.
  unfold SyncManager._compute_content_hash, hexdigest.
  destruct (digest_spec (encode content)) as [Hlen Hbytes].
  destruct (hex_spec _ Hbytes) as [H1 H2]. split; [rewrite H1, Hlen; reflexivity|exact H2].
Qed.
End Hash.

(** ** The properties above on concrete inputs *)

Section ConcreteMore.
Import Obs PassObs StoreObs BatchProcessor SyncManager.
#[local] Existing Instance Fixture.libs.

Lemma X1_witness :
  TemplateManager._generate_toc ("Release notes" ++ nl ++ "#hashtag is not a heading")
  = ("", "Release notes" ++ nl ++ "#hashtag is not a heading")%string.
Proof.
  apply X1_toc_of_plain_content.
  intros line Hin. vm_compute in Hin. destruct Hin as [<-|[<-|[]]]; reflexivity.
Defined.

Lemma X10_witness :
  0 <= 4
  /\ keys (CodaPack.Formula_PreviewContent (Fixture.site Fixture.pages1)
             ["https://a.example"; "https://b.example"] None None None 4)
     = keys (CodaPack.Formula_ExtractContent (Fixture.site Fixture.pages1)
               ["https://a.example"; "https://b.example"] None None None).
Proof.
  split; [lia|].
  apply (proj1 (X10_preview_content (Fixture.site Fixture.pages1)
                  ["https://a.example"; "https://b.example"] None None None 4 ltac:(lia))).
Defined.


Lemma X14_witness :
  process_url_value (Fixture.site Fixture.pages1) "https://a.example" Samples.body_without_nav
  = process_url_value (Fixture.site Fixture.pages1) "https://a.example"
      (BatchObs.without_exclude Samples.body_without_nav).
Proof.
  destruct (X14_exclude_selector_is_ignored (Fixture.site Fixture.pages1)
              "https://a.example" Samples.body_without_nav) as [Hsame _].
  - intros html _ _. exists []. reflexivity.
  - apply Hsame. reflexivity.
Defined.


Lemma X17_witness :
  dict_get (CodaPack.Formula_ExtractContent (Fixture.site Fixture.pages1)
              ["https://a.example"] (Some (SelStr "div[")) None None)
           "https://a.example"
  = Some "Error with selector 'div[': Malformed attribute selector at position 3".
Proof.
  apply (proj1 (X17_refused_selector_becomes_content (Fixture.site Fixture.pages1)
                  "https://a.example" "div[" "text of a"
                  (mkExc false "Malformed attribute selector at position 3")
                  eq_refl ltac:(discriminate) eq_refl ltac:(discriminate) eq_refl)).
Defined.

Lemma X21_witness :
  exists s1 s2,
    add_urls_to_config Fixture.tick1 1 ["https://a.example"; "https://new.example"]
      (init Fixture.db1) = (Ok tt, s1)
    /\ add_urls_to_config Fixture.tick1 1 ["https://a.example"; "https://new.example"] s1
       = (Ok tt, s2)
    /\ db s2 = db s1.
Proof.
  destruct (X21_add_urls_to_config_is_idempotent Fixture.tick1 1
              ["https://a.example"; "https://new.example"] (init Fixture.db1))
    as (s1 & s2 & H1 & H2 & H3 & _).
  - intros k _. reflexivity.
  - exists s1, s2. repeat split; assumption.
Defined.

Lemma X22_witness :
  exists s',
    _process_config Fixture.tick1 Samples.empty_config (init Fixture.db1) = (Ok tt, s')
    /\ db s' = Fixture.db1
    /\ sink_calls s' = [].
Proof.
  destruct (X22_pass_without_tracked_urls Fixture.tick1 Samples.empty_config (init Fixture.db1))
    as (s' & Hrun & Hdb & Hcalls & _).
  - vm_compute. reflexivity.
  - intros k _. reflexivity.
  - exists s'. repeat split; assumption.
Defined.

Lemma X23_witness :
  exists s' urls_changed urls_failed,
    _process_config Fixture.tick1 Fixture.config1 (init Fixture.db1) = (Ok tt, s')
    /\ sync_history (db s')
       = [mkHistory 1 "completed" (status_message 2 urls_changed urls_failed)
            2 urls_failed 1000]
    /\ urls_changed + urls_failed <= 2.
Proof.
  destruct (X23_completed_pass_is_recorded Fixture.tick1 Fixture.config1 (init Fixture.db1))
    as (s' & urls_changed & urls_failed & Hrun & Hhist & _ & _ & _ & Hle).
  - intros k _. reflexivity.
  - reflexivity.
  - vm_compute. discriminate.
  - vm_compute. repeat constructor; simpl; intuition discriminate.
  - exists s', urls_changed, urls_failed. repeat split; assumption.
Defined.

Lemma X25_witness :
  untouched 2 Fixture.db1 (db (run_sync_cycle Fixture.tick1 (init Fixture.db1))).
Proof.
  apply (X25_cycle_leaves_other_configurations Fixture.tick1 2 (init Fixture.db1)).
  intros c Hin. vm_compute in Hin. destruct Hin as [<-|[]]. discriminate.
Defined.

Lemma X27_witness :
  untouched 9 Samples.db_paused
    (db (start_sync_service
           [Fixture.tick1; mkTick (Fixture.site Fixture.pages1) 9000 (Fixture.fault_at 4 "deadlock")]
           (init Samples.db_paused))).
Proof.
  apply (X27_service_leaves_inactive_configurations
           [Fixture.tick1; mkTick (Fixture.site Fixture.pages1) 9000 (Fixture.fault_at 4 "deadlock")]
           9 (init Samples.db_paused)).
  intros c [<-|[<-|[]]] Hid; [discriminate Hid|reflexivity].
Defined.

End ConcreteMore.
